(** * Schema reconciliation, merge engine and formula evaluator

    A shallow embedding of [core_schema.py], [cost_components.py] and
    [data_engine.py], with the properties their design document states.

    Conventions of the embedding.
    - A Python [str] is a list of Unicode code points ([ustring]).  String
      constants of the source are written as UTF-8 literals and decoded by
      [U].
    - What the source takes from the Unicode character database (NFKD
      decompositions, case mappings, the alphanumeric class, decimal digit
      values) is known here on ASCII and left to the class [PyRuntime]
      elsewhere, with the text [repr] prints for a finite float: every
      result holds for every such runtime.
    - A pandas [DataFrame] is a list of column names and a list of rows.
      The dtype of a column is read off its cells, as the readers infer
      it: int64 for integers, float64 for floats, object otherwise;
      [pd.concat] and [iterrows] turn integers into floats by it.
    - A call that may raise returns [option]; [None] is the exception. *)

From Stdlib Require Import ZArith QArith Ascii String.
From stdpp Require Import gmap list.

Local Open Scope N_scope.

(** ** Strings *)

Abbreviation ustring := (list N).

(** UTF-8 decoding of a literal (well-formed input; a stray byte is kept
    as it is). *)
Fixpoint utf8_decode (bs : list N) : list N :=
  match bs with
  | [] => []
  | b0 :: r0 =>
      if b0 <? 0x80 then b0 :: utf8_decode r0
      else match r0 with
      | b1 :: r1 =>
          if b0 <? 0xE0
          then ((b0 - 0xC0) * 64 + (b1 - 0x80)) :: utf8_decode r1
          else match r1 with
          | b2 :: r2 =>
              if b0 <? 0xF0
              then ((b0 - 0xE0) * 4096 + (b1 - 0x80) * 64 + (b2 - 0x80))
                     :: utf8_decode r2
              else match r2 with
              | b3 :: r3 =>
                  ((b0 - 0xF0) * 262144 + (b1 - 0x80) * 4096
                   + (b2 - 0x80) * 64 + (b3 - 0x80)) :: utf8_decode r3
              | [] => bs
              end
          | [] => bs
          end
      | [] => bs
      end
  end.

Definition U (s : string) : ustring :=
  utf8_decode (map N_of_ascii (list_ascii_of_string s)).

Definition ustr_eqb (a b : ustring) : bool := bool_decide (a = b).

(** [needle in hay] on Python strings. *)
Fixpoint is_prefix (p s : ustring) : bool :=
  match p, s with
  | [], _ => true
  | _ :: _, [] => false
  | a :: p', b :: s' => (a =? b) && is_prefix p' s'
  end.

Fixpoint str_in (needle hay : ustring) : bool :=
  is_prefix needle hay ||
  match hay with
  | [] => false
  | _ :: hay' => str_in needle hay'
  end.

(** ** Character classes *)

Definition is_ascii (c : N) : bool := c <? 128.
Definition is_az (c : N) : bool := (97 <=? c) && (c <=? 122).
Definition is_AZ (c : N) : bool := (65 <=? c) && (c <=? 90).
Definition is_09 (c : N) : bool := (48 <=? c) && (c <=? 57).

(** The class [[a-z0-9]] of the regular expression in [normalize]. *)
Definition is_az09 (c : N) : bool := is_az c || is_09 c.

(** The class [[^a-z0-9]]. *)
Definition not_az09 (c : N) : bool := negb (is_az09 c).

Definition ascii_isalnum (c : N) : bool := is_az c || is_AZ c || is_09 c.

(** [str.isspace] and the class [\s] of [re] on [str] patterns. *)
Definition isspace (c : N) : bool :=
  ((9 <=? c) && (c <=? 13)) || ((28 <=? c) && (c <=? 32))
  || (c =? 0x85) || (c =? 0xA0) || (c =? 0x1680)
  || ((0x2000 <=? c) && (c <=? 0x200A))
  || (c =? 0x2028) || (c =? 0x2029) || (c =? 0x202F)
  || (c =? 0x205F) || (c =? 0x3000).

Definition ascii_lower (c : N) : N := if is_AZ c then c + 32 else c.
Definition ascii_upper (c : N) : N := if is_az c then c - 32 else c.

(** What the program reads from the Python runtime: the Unicode character
    database at the code points above U+007F, and [repr] of a finite
    float. *)
Class PyRuntime := {
  (** full compatibility decomposition of one code point *)
  uni_nfkd : N -> list N;
  (** [str.isalnum] *)
  uni_isalnum : N -> bool;
  (** [str.lower], [str.upper], [str.casefold] of one code point *)
  uni_lower : N -> list N;
  uni_upper : N -> list N;
  uni_casefold : N -> list N;
  (** value of a decimal digit, as [float] reads it *)
  uni_decimal : N -> option N;
  (** [repr] of a finite float *)
  float_repr : Q -> list N;
}.

(** A runtime that knows nothing outside ASCII, to run the definitions on
    ASCII strings and tables without floats. *)
Definition ascii_only : PyRuntime :=
  {| uni_nfkd := fun c => [c];
     uni_isalnum := fun _ => false;
     uni_lower := fun c => [c];
     uni_upper := fun c => [c];
     uni_casefold := fun c => [c];
     uni_decimal := fun _ => None;
     float_repr := fun _ => [] |}.

Section Strings.
Context {RT : PyRuntime}.

Definition isalnum (c : N) : bool :=
  if is_ascii c then ascii_isalnum c else uni_isalnum c.

(** The case mappings, one code point at a time.  ([str.lower] has one
    rule that looks at the context, for the Greek capital sigma; the
    program compares the result with ASCII words only.) *)
Definition str_lower (s : ustring) : ustring :=
  flat_map (fun c => if is_ascii c then [ascii_lower c] else uni_lower c) s.

Definition str_upper (s : ustring) : ustring :=
  flat_map (fun c => if is_ascii c then [ascii_upper c] else uni_upper c) s.

Definition casefold (s : ustring) : ustring :=
  flat_map (fun c => if is_ascii c then [ascii_lower c] else uni_casefold c) s.

(** [unicodedata.normalize("NFKD", s)], one code point at a time.  ASCII
    is left as it is.  (The reordering of combining marks that completes
    the normal form moves no ASCII character, and [normalize] keeps only
    those.) *)
Definition nfkd (s : ustring) : ustring :=
  flat_map (fun c => if is_ascii c then [c] else uni_nfkd c) s.

End Strings.

(** [str.strip()] *)
Fixpoint lstrip (s : ustring) : ustring :=
  match s with
  | [] => []
  | c :: s' => if isspace c then lstrip s' else s
  end.

Fixpoint rstrip (s : ustring) : ustring :=
  match s with
  | [] => []
  | c :: s' =>
      match rstrip s' with
      | [] => if isspace c then [] else [c]
      | r => c :: r
      end
  end.

Definition strip (s : ustring) : ustring := rstrip (lstrip s).

(** [s.encode("ascii", "ignore").decode("ascii")] *)
Definition encode_ascii_ignore (s : ustring) : ustring := List.filter is_ascii s.

(** [re.sub(cls+, " ", s)]: every maximal run of characters of the class
    becomes one space.  [in_run] tells that the previous character was in
    the class. *)
Fixpoint sub_runs (cls : N -> bool) (in_run : bool) (s : ustring) : ustring :=
  match s with
  | [] => []
  | c :: s' =>
      if cls c
      then (if in_run then sub_runs cls true s' else 32 :: sub_runs cls true s')
      else c :: sub_runs cls false s'
  end.

(** ** Python dictionaries

    A [dict] keeps its keys in insertion order; [d[k] = v] on a key that
    is present changes the value and leaves the key where it is. *)

Abbreviation dict V := (list (list N * V)).

Fixpoint dict_get {V} (d : dict V) (k : ustring) : option V :=
  match d with
  | [] => None
  | (k', v) :: d' => if ustr_eqb k' k then Some v else dict_get d' k
  end.

Fixpoint dict_set {V} (d : dict V) (k : ustring) (v : V) : dict V :=
  match d with
  | [] => [(k, v)]
  | (k', v') :: d' =>
      if ustr_eqb k' k then (k', v) :: d' else (k', v') :: dict_set d' k v
  end.

Definition dict_keys {V} (d : dict V) : list ustring := map fst d.
Definition dict_has {V} (d : dict V) (k : ustring) : bool :=
  match dict_get d k with Some _ => true | None => false end.

(** [{key(x): x for x in xs}] *)
Definition dict_comprehension (key : ustring -> ustring) (xs : list ustring)
  : dict ustring :=
  foldl (fun d x => dict_set d (key x) x) [] xs.

(** Truth value of an [Optional[str]]. *)
Definition truthy (o : option ustring) : bool :=
  match o with
  | Some (_ :: _) => true
  | _ => false
  end.

(** ** core_schema.py *)

Module CoreSchema.

(** [_TURKISH_CHAR_MAP] *)
Definition _TURKISH_CHAR_MAP (c : N) : N :=
  if (c =? 0x131) || (c =? 0x130) then 105      (* ı İ -> i *)
  else if (c =? 0x15F) || (c =? 0x15E) then 115 (* ş Ş -> s *)
  else if (c =? 0x11F) || (c =? 0x11E) then 103 (* ğ Ğ -> g *)
  else if (c =? 0xF6) || (c =? 0xD6) then 111   (* ö Ö -> o *)
  else if (c =? 0xFC) || (c =? 0xDC) then 117   (* ü Ü -> u *)
  else if (c =? 0xE7) || (c =? 0xC7) then 99    (* ç Ç -> c *)
  else c.

Definition translate (s : ustring) : ustring := map _TURKISH_CHAR_MAP s.

Section Normalize.
Context {RT : PyRuntime}.

(** The body of [normalize] on a string. *)
Definition normalize_str (s : ustring) : ustring :=
  let s := strip s in
  let s := translate s in
  let s := nfkd s in
  let s := encode_ascii_ignore s in
  let s := map ascii_lower s in
  let s := sub_runs not_az09 false s in
  let s := sub_runs isspace false s in
  strip s.

(** [normalize(s)]; [None] is Python's [None]. *)
Definition normalize (s : option ustring) : ustring :=
  match s with
  | None => []
  | Some s => normalize_str s
  end.

End Normalize.

(** One entry of a schema: [{"label": ..., "synonyms": [...]}].  A missing
    ["synonyms"] reads as the empty list, as [meta.get("synonyms", [])]
    does. *)
Record FieldMeta := {
  label : option ustring;
  synonyms : list ustring;
}.

Definition DEFAULT_SCHEMA : dict FieldMeta :=
  [ (U "is_yeri_kodu",
      {| label := Some (U "İş Yeri Kodu");
         synonyms := [U "is yeri"; U "iş yeri"; U "plant"; U "site";
                      U "plant code"; U "işyeri"; U "isyeri"] |});
    (U "masraf_yeri_kodu",
      {| label := Some (U "Masraf Yeri Kodu");
         synonyms := [U "masraf yeri"; U "cost center"; U "cost centre";
                      U "cc"; U "masraf kodu"] |});
    (U "makine_kodu",
      {| label := Some (U "Makine Kodu");
         synonyms := [U "makina kodu"; U "ekipman kodu"; U "equipment code";
                      U "asset code"] |});
    (U "makine_adi",
      {| label := Some (U "Makine Adı");
         synonyms := [U "makina adi"; U "ekipman adı"; U "equipment name";
                      U "asset name"] |});
    (U "malzeme_adi",
      {| label := Some (U "Malzeme Adı");
         synonyms := [U "malzeme adi"; U "stok adı"; U "material name";
                      U "item name"] |}) ].

Definition REQUIRED_FIELDS : list ustring := dict_keys DEFAULT_SCHEMA.

Section Mapper.
Context {RT : PyRuntime}.

(** [difflib.get_close_matches(word, possibilities, n=1, cutoff=0.88)] *)
Variable get_close_matches : ustring -> list ustring -> list ustring.

(** The loop [for c in cand_norm: if c in norm_headers_map: ...; break]. *)
Fixpoint exact_pass (cand_norm : list ustring) (norm_headers_map : dict ustring)
  : option ustring :=
  match cand_norm with
  | [] => None
  | c :: rest =>
      match dict_get norm_headers_map c with
      | Some h => Some h
      | None => exact_pass rest norm_headers_map
      end
  end.

(** The loop over [norm_headers_map.keys()].  The second component lists
    the words [get_close_matches] was called with. *)
Fixpoint fuzzy_pass (keys : list ustring) (cand_norm : list ustring)
    (norm_headers_map : dict ustring) : option ustring * list ustring :=
  match keys with
  | [] => (None, [])
  | nh :: rest =>
      match get_close_matches nh cand_norm with
      | _ :: _ => (dict_get norm_headers_map nh, [nh])
      | [] =>
          let '(hit, asked) := fuzzy_pass rest cand_norm norm_headers_map in
          (hit, nh :: asked)
      end
  end.

(** The body of the loop over the schema, for one canonical field. *)
Definition suggest_field (norm_headers_map : dict ustring)
    (canonical : ustring) (meta : FieldMeta) : option ustring * list ustring :=
  let candidates := canonical :: synonyms meta in
  let cand_norm := map (fun x => normalize (Some x)) candidates in
  match exact_pass cand_norm norm_headers_map with
  | Some h => (Some h, [])
  | None => fuzzy_pass (dict_keys norm_headers_map) cand_norm norm_headers_map
  end.

(** [Mapper.suggest_mapping] *)
Definition suggest_mapping (schema : dict FieldMeta) (headers : list ustring)
  : dict (option ustring) :=
  let norm_headers_map := dict_comprehension (fun h => normalize (Some h)) headers in
  foldl (fun mapping '(canonical, meta) =>
           dict_set mapping canonical
             (fst (suggest_field norm_headers_map canonical meta)))
        [] schema.

(** The words the fuzzy search is asked about while [suggest_mapping]
    works on the field [canonical]. *)
Definition fuzzy_consulted (headers : list ustring) (canonical : ustring)
    (meta : FieldMeta) : list ustring :=
  snd (suggest_field
         (dict_comprehension (fun h => normalize (Some h)) headers)
         canonical meta).

End Mapper.
End CoreSchema.



(** ** pandas *)

Inductive pyfloat :=
  | FFinite (q : Q)
  | FInf (negative : bool)
  | FNaN.

(** A scalar held in a table. *)
Inductive cell :=
  | CStr (s : ustring)
  | CInt (z : Z)
  | CFloat (f : pyfloat)
  | CNone
  | CNA.

Definition NaN : cell := CFloat FNaN.
Definition zero_float : pyfloat := FFinite 0.

Fixpoint uint_digits (u : Decimal.uint) : ustring :=
  match u with
  | Decimal.Nil => []
  | Decimal.D0 u => 48 :: uint_digits u
  | Decimal.D1 u => 49 :: uint_digits u
  | Decimal.D2 u => 50 :: uint_digits u
  | Decimal.D3 u => 51 :: uint_digits u
  | Decimal.D4 u => 52 :: uint_digits u
  | Decimal.D5 u => 53 :: uint_digits u
  | Decimal.D6 u => 54 :: uint_digits u
  | Decimal.D7 u => 55 :: uint_digits u
  | Decimal.D8 u => 56 :: uint_digits u
  | Decimal.D9 u => 57 :: uint_digits u
  end.

Definition str_of_Z (z : Z) : ustring :=
  match Z.to_int z with
  | Decimal.Pos u => uint_digits u
  | Decimal.Neg u => 45 :: uint_digits u
  end.

Section PyStr.
Context {RT : PyRuntime}.

(** [str(x)], which is also what [astype(str)] puts in an object column. *)
Definition py_str (x : cell) : ustring :=
  match x with
  | CStr s => s
  | CInt z => str_of_Z z
  | CFloat (FFinite q) => float_repr q
  | CFloat (FInf false) => U "inf"
  | CFloat (FInf true) => U "-inf"
  | CFloat FNaN => U "nan"
  | CNone => U "None"
  | CNA => U "<NA>"
  end.

End PyStr.

(** A table: the column names and the rows, each row holding one cell per
    column. *)
Record DataFrame := {
  columns : list ustring;
  rows : list (list cell);
}.

(** [pd.DataFrame()] *)
Definition empty_frame : DataFrame := {| columns := []; rows := [] |}.

(** [df.empty]: some axis has length 0. *)
Definition df_empty (df : DataFrame) : bool :=
  match columns df, rows df with
  | _ :: _, _ :: _ => false
  | _, _ => true
  end.

(** [df is None or df.empty] *)
Definition absent_or_empty (df : option DataFrame) : bool :=
  match df with
  | None => true
  | Some df => df_empty df
  end.

(** [len(df)] *)
Definition df_len (df : DataFrame) : nat := length (rows df).

Fixpoint index_of (c : ustring) (cols : list ustring) : option nat :=
  match cols with
  | [] => None
  | c' :: cols' =>
      if ustr_eqb c' c then Some 0%nat else S <$> index_of c cols'
  end.

Definition has_column (df : DataFrame) (c : ustring) : bool :=
  match index_of c (columns df) with Some _ => true | None => false end.

(** The cell of row [r] under column [c]; NaN where the table has none. *)
Definition cell_at (cols : list ustring) (r : list cell) (c : ustring) : cell :=
  match index_of c cols with
  | Some i => default NaN (r !! i)
  | None => NaN
  end.

(** [df[c]]; [None] is the [KeyError]. *)
Definition getcol (df : DataFrame) (c : ustring) : option (list cell) :=
  if has_column df c
  then Some (map (fun r => cell_at (columns df) r c) (rows df))
  else None.

(** A row of a table with columns [old], laid out on the columns [new]. *)
Definition realign (new old : list ustring) (r : list cell) : list cell :=
  map (cell_at old r) new.

(** [df.loc[:, cols]] for columns of the table. *)
Definition select_columns (df : DataFrame) (cols : list ustring) : DataFrame :=
  {| columns := cols; rows := map (realign cols (columns df)) (rows df) |}.

(** *** Column types

    The dtype pandas keeps for a column, read off the cells: [int64] for
    a column of integers, [float64] for a column of floats (NaN is the
    missing number), [object] for anything else. *)
Inductive dtype := DInt | DFloat | DObject.

Definition is_int (x : cell) : bool :=
  match x with CInt _ => true | _ => false end.

Definition is_float (x : cell) : bool :=
  match x with CFloat _ => true | _ => false end.

(** [pd.isna] *)
Definition isna (x : cell) : bool :=
  match x with CNone | CNA | CFloat FNaN => true | _ => false end.

Definition column_dtype (cells : list cell) : dtype :=
  if forallb is_int cells then DInt
  else if forallb is_float cells then DFloat
  else DObject.

(** [np.find_common_type] on the three. *)
Definition common_dtype (a b : dtype) : dtype :=
  match a, b with
  | DInt, DInt => DInt
  | DObject, _ | _, DObject => DObject
  | _, _ => DFloat
  end.

(** The double an int64 is converted to: the integer itself below 2^53,
    the nearest multiple of the spacing above, ties to even. *)
Definition double_of_Z (z : Z) : Q :=
  let a := Z.abs z in
  let e := (Z.log2 a - 52)%Z in
  if (e <=? 0)%Z then inject_Z z
  else
    let q := Z.shiftr a e in
    let r := (a - Z.shiftl q e)%Z in
    let half := Z.shiftl 1 (e - 1) in
    let q' := if (half <? r)%Z || ((r =? half)%Z && Z.odd q)
              then (q + 1)%Z else q in
    inject_Z (Z.sgn z * Z.shiftl q' e).

(** A cell of a column that becomes float64. *)
Definition to_float64 (x : cell) : cell :=
  match x with
  | CInt z => CFloat (FFinite (double_of_Z z))
  | CFloat f => CFloat f
  | _ => NaN
  end.

(** The cells of the rows of a table under a name, NaN where the table
    has no such column. *)
Definition cells_under (df : DataFrame) (c : ustring) : list cell :=
  map (fun r => cell_at (columns df) r c) (rows df).

(** [cols], then the names of [more] that [cols] does not have. *)
Definition add_columns (cols more : list ustring) : list ustring :=
  cols ++ List.filter
            (fun c => negb (match index_of c cols with
                            | Some _ => true
                            | None => false
                            end)) more.

(** The pieces of one result column of [pd.concat]: the cells each table
    has under the name, [None] for a table without the column. *)
Definition pieces (frames : list DataFrame) (c : ustring)
  : list (option (list cell)) :=
  map (fun df => getcol df c) frames.

(** Whether a result column of [pd.concat] is float64.  A piece without
    a value (no row, or missing values only) has no say at first: the
    common dtype of the others decides.  Integers stay integers only
    when no table lacks the column and no piece holds NaN alone. *)
Definition concat_float64 (ps : list (option (list cell))) : bool :=
  let present := omap id ps in
  let solid := List.filter (fun p => negb (forallb isna p)) present in
  let hollow :=
    List.filter (fun p => forallb isna p && negb (bool_decide (p = []))) present in
  match solid with
  | [] => false
  | p :: rest =>
      match foldl common_dtype (column_dtype p) (map column_dtype rest) with
      | DObject => false
      | DFloat => true
      | DInt =>
          existsb (fun p => bool_decide (p = None)) ps
          || (negb (bool_decide (hollow = []))
              && forallb (forallb is_float) hollow)
      end
  end.

(** What [pd.concat] makes of a cell under column [c]: its float in a
    column that becomes float64 (NaN for a missing value), the cell
    itself in any other. *)
Definition concat_cell (frames : list DataFrame) (c : ustring) (x : cell) : cell :=
  if concat_float64 (pieces frames c) then to_float64 x else x.

(** [pd.concat(frames, ignore_index=True, join="outer")] of one table at
    least: the column names in the order they are first met; the rows of
    the tables in turn; a cell a table does not have is NaN; a column
    that becomes float64 has its integers converted. *)
Definition concat_frames (frames : list DataFrame) : DataFrame :=
  let cols :=
    match frames with
    | [] => []
    | f :: rest => foldl (fun cols df => add_columns cols (columns df)) (columns f) rest
    end in
  {| columns := cols;
     rows := flat_map
               (fun df =>
                  map (fun r =>
                         map (fun c => concat_cell frames c (cell_at (columns df) r c))
                             cols)
                      (rows df))
               frames |}.

(** [pd.concat([a, b], ignore_index=True, join="outer")] *)
Definition concat (a b : DataFrame) : DataFrame := concat_frames [a; b].

(** [df.iterrows()]: every row comes as a Series of the one dtype all
    the columns fit in, so with int64 and float64 columns only, integers
    are read as floats. *)
Definition iterrows (df : DataFrame) : list (list cell) :=
  match map (fun c => column_dtype (cells_under df c)) (columns df) with
  | [] => rows df
  | d :: ds =>
      match foldl common_dtype d ds with
      | DFloat => map (map to_float64) (rows df)
      | _ => rows df
      end
  end.

(** Rows picked by a boolean mask. *)
Fixpoint select_mask {A} (xs : list A) (mask : list bool) : list A :=
  match xs, mask with
  | x :: xs', m :: mask' =>
      if m then x :: select_mask xs' mask' else select_mask xs' mask'
  | _, _ => []
  end.

(** [df.loc[mask]] *)
Definition loc_mask (df : DataFrame) (mask : list bool) : DataFrame :=
  {| columns := columns df; rows := select_mask (rows df) mask |}.

(** [mask &= m] *)
Fixpoint mask_and (mask m : list bool) : list bool :=
  match mask, m with
  | a :: mask', b :: m' => (a && b) :: mask_and mask' m'
  | _, _ => []
  end.

(** The row labels are positions throughout, so [reset_index(drop=True)]
    and [copy()] of a table value change nothing in it. *)
Definition reset_index (df : DataFrame) : DataFrame := df.

(** A value an expression over columns evaluates to. *)
Inductive pyvalue :=
  | VScalar (c : cell)
  | VSeries (l : list cell).

Fixpoint set_nth {A} (i : nat) (x : A) (pad : A) (l : list A) : list A :=
  match i, l with
  | O, [] => [x]
  | O, _ :: l' => x :: l'
  | S i', [] => pad :: set_nth i' x pad []
  | S i', y :: l' => y :: set_nth i' x pad l'
  end.

Fixpoint number_rows {A} (i : nat) (l : list A) : list (nat * A) :=
  match l with
  | [] => []
  | x :: l' => (i, x) :: number_rows (S i) l'
  end.

(** [df[name] = v]: a scalar fills the column, a series is taken label by
    label (NaN where it has no such label); a new name is added as the
    last column. *)
Definition df_setitem (df : DataFrame) (name : ustring) (v : pyvalue) : DataFrame :=
  let value_at (i : nat) : cell :=
    match v with
    | VScalar c => c
    | VSeries l => default NaN (l !! i)
    end in
  match index_of name (columns df) with
  | Some j =>
      {| columns := columns df;
         rows := map (fun '(i, r) => set_nth j (value_at i) NaN r)
                     (number_rows 0 (rows df)) |}
  | None =>
      {| columns := columns df ++ [name];
         rows := map (fun '(i, r) => set_nth (length (columns df)) (value_at i) NaN r)
                     (number_rows 0 (rows df)) |}
  end.

(** Objects on the heap: a table is reached through a reference, and two
    names may hold the same reference. *)
Abbreviation heap := (gmap nat DataFrame).

(** [df.copy()] *)
Definition df_copy (h : heap) (r : nat) : option (heap * nat) :=
  df ← h !! r;
  let r' := fresh (dom h) in
  Some (<[r' := df]> h, r').

Definition heap_setitem (h : heap) (r : nat) (name : ustring) (v : pyvalue)
  : option heap :=
  df ← h !! r;
  Some (<[r := df_setitem df name v]> h).

(** [df[name] = v] on a table that may have no rows yet: a table without
    row labels takes the labels of a non-empty series first, its columns
    being NaN there; then the assignment is as above. *)
Definition df_assign (df : DataFrame) (name : ustring) (v : pyvalue) : DataFrame :=
  let df :=
    match rows df, v with
    | [], VSeries ((_ :: _) as l) =>
        {| columns := columns df;
           rows := map (fun _ => repeat NaN (length (columns df))) l |}
    | _, _ => df
    end in
  df_setitem df name v.

(** [pd.DataFrame(index=df.index)]: the row labels of [df], no column. *)
Definition index_frame (df : DataFrame) : DataFrame :=
  {| columns := []; rows := map (fun _ => []) (rows df) |}.

(** [pd.concat(frames, ignore_index=True, join="outer") if frames else
    pd.DataFrame()] *)
Definition concat_all (frames : list DataFrame) : DataFrame :=
  match frames with
  | [] => empty_frame
  | _ :: _ => concat_frames frames
  end.

(** *** Files

    The state directory: what each of its files holds.  A pickle holds
    the table [to_pickle] wrote, a JSON file the object [json.dumps]
    wrote (a key may be missing from it); [read_pickle] and [json.loads]
    raise on anything else. *)

Record Config := {
  cfg_loaded_files_top : option (list (list N));
  cfg_loaded_files_bottom : option (list (list N));
  cfg_manual_values : option (gmap (list N) (list N));
  cfg_window : gmap (list N) Z;
}.

Inductive file :=
  | FPickle (df : DataFrame)
  | FConfig (cfg : Config)
  | FOther.

Abbreviation directory := (gmap (list N) file).

(** [pd.read_pickle(p)]; [None] is the exception. *)
Definition read_pickle (dir : directory) (name : ustring) : option DataFrame :=
  match dir !! name with
  | Some (FPickle df) => Some df
  | _ => None
  end.

(** [json.loads(p.read_text(encoding="utf-8"))]; [None] is the exception. *)
Definition read_json (dir : directory) (name : ustring) : option Config :=
  match dir !! name with
  | Some (FConfig cfg) => Some cfg
  | _ => None
  end.

(** [if p.exists(): p.unlink()] *)
Definition unlink_if_exists (dir : directory) (name : ustring) : directory :=
  delete name dir.

(** ** core_schema.py, the part on tables *)

Module CoreSchemaFrames.
Import CoreSchema.

(** [Mapper.apply_mapping] *)
Definition apply_mapping (schema : dict FieldMeta) (df : DataFrame)
    (mapping : dict (option ustring)) : DataFrame :=
  let out :=
    foldl (fun out '(canonical, meta) =>
             let src := default None (dict_get mapping canonical) in
             let label := default canonical (label meta) in
             df_assign out label
               match src with
               | Some ((_ :: _) as src) =>
                   match getcol df src with
                   | Some col => VSeries col
                   | None => VScalar CNA
                   end
               | _ => VScalar CNA
               end)
          empty_frame schema in
  match getcol df (U "__kaynak_dosya__") with
  | Some col => df_assign out (U "__kaynak_dosya__") (VSeries col)
  | None => out
  end.

End CoreSchemaFrames.

(** ** cost_components.py *)

Module CostComponents.
Import CoreSchema.

Definition COMPONENTS : list ustring :=
  [U "AMOR"; U "DIS"; U "EDIS"; U "ENER"; U "GUG"].

Definition COMP_COL_CANDIDATES : dict (list ustring) :=
  [ (U "AMOR", [U "amor"; U "amortisman"; U "depreciation"]);
    (U "DIS", [U "dis"; U "di̇s"; U "direkt iscilik"; U "direkt işçilik";
               U "direct labor"; U "dl"]);
    (U "EDIS", [U "edis"; U "endirekt iscilik"; U "endirekt işçilik";
                U "indirect labor"; U "il"]);
    (U "ENER", [U "ener"; U "enerji"; U "electricity"; U "kwh";
                U "energy cost"; U "elektrik"]);
    (U "GUG", [U "gug"; U "güg"; U "genel uretim gider";
               U "genel üretim gider"; U "overhead"; U "oh"]) ].

Definition PLANT_COL_CANDIDATES : list ustring :=
  [U "is yeri kodu"; U "iş yeri kodu"; U "is yeri"; U "işyeri"; U "plant";
   U "site"; U "plant code"].

Definition CCTR_COL_CANDIDATES : list ustring :=
  [U "masraf yeri kodu"; U "masraf yeri"; U "cost center"; U "cost centre";
   U "cc"; U "masraf kodu"].

Section Columns.
Context {RT : PyRuntime}.

(** The loop [for cand in candidates: ... if n in norm_map: return norm_map[n]]. *)
Fixpoint exact_match (candidates : list ustring) (norm_map : dict ustring)
  : option ustring :=
  match candidates with
  | [] => None
  | cand :: rest =>
      let n := normalize (Some cand) in
      match dict_get norm_map n with
      | Some c => Some c
      | None => exact_match rest norm_map
      end
  end.

(** The loop [for col in df.columns: if any(normalize(c) in ncol ...)]. *)
Definition loose_match (cols candidates : list ustring) : option ustring :=
  List.find
    (fun col =>
       let ncol := normalize (Some col) in
       existsb (fun c => str_in (normalize (Some c)) ncol) candidates)
    cols.

Definition _find_col_by_candidates (df : option DataFrame)
    (candidates : list ustring) : option ustring :=
  match df with
  | None => None
  | Some df =>
      let norm_map := dict_comprehension (fun c => normalize (Some c)) (columns df) in
      match exact_match candidates norm_map with
      | Some c => Some c
      | None => loose_match (columns df) candidates
      end
  end.

End Columns.

(** *** Numeric coercion *)

Section ToFloat.
Context {RT : PyRuntime}.

(** [digit (["_"] digit)*] at the head of [s]: the digits and what
    follows them. *)
Fixpoint digitpart (s : ustring) : list N * ustring :=
  match s with
  | [] => ([], [])
  | c :: s' =>
      if is_09 c then
        match s' with
        | u :: s'' =>
            if (u =? 95) && match s'' with d :: _ => is_09 d | [] => false end
            then let '(ds, r) := digitpart s'' in (c :: ds, r)
            else let '(ds, r) := digitpart s' in (c :: ds, r)
        | [] => ([c], [])
        end
      else ([], s)
  end.

Definition digits_value (ds : list N) : Z :=
  foldl (fun acc d => (acc * 10 + Z.of_N (d - 48))%Z) 0%Z ds.

Definition pow10 (e : Z) : Q :=
  if (0 <=? e)%Z then inject_Z (10 ^ e) else Qinv (inject_Z (10 ^ (- e))).

(** [[eE] [+-] digitpart] up to the end of the string, or nothing. *)
Definition exponent (s : ustring) : option Z :=
  match s with
  | [] => Some 0%Z
  | e :: s' =>
      if (e =? 101) || (e =? 69) then
        let '(neg, s'') :=
          match s' with
          | sg :: t => if sg =? 45 then (true, t)
                       else if sg =? 43 then (false, t) else (false, s')
          | [] => (false, s')
          end in
        match digitpart s'' with
        | ((_ :: _) as ds, []) =>
            Some (if neg then (- digits_value ds)%Z else digits_value ds)
        | _ => None
        end
      else None
  end.

(** An unsigned decimal literal, read to the end of the string:
    [digitpart ["." [digitpart]] [exponent]] or ["." digitpart [exponent]]. *)
Definition unsigned_literal (s : ustring) : option Q :=
  let '(ip, r) := digitpart s in
  let '(fp, r') :=
    match r with
    | d :: t => if d =? 46 then digitpart t else ([], r)
    | [] => ([], r)
    end in
  match ip, fp with
  | [], [] => None
  | _, _ =>
      e ← exponent r';
      Some (Qred (inject_Z (digits_value (ip ++ fp))
                    * pow10 (e - Z.of_nat (length fp))))
  end.

(** The spaces [float] drops around its argument. *)
Definition c_isspace (c : N) : bool := ((9 <=? c) && (c <=? 13)) || (c =? 32).

Fixpoint drop_spaces (s : ustring) : ustring :=
  match s with
  | [] => []
  | c :: s' => if c_isspace c then drop_spaces s' else s
  end.

Definition float_trim (s : ustring) : ustring :=
  rev (drop_spaces (rev (drop_spaces s))).

(** [float(s)] on a string; [None] is the [ValueError].  The value is the
    number the literal denotes. *)
Definition float_of_str (s : ustring) : option pyfloat :=
  let s :=
    if forallb is_ascii s then s
    else map (fun c => if is_ascii c then c
                       else if isspace c then 32
                       else match uni_decimal c with
                            | Some d => 48 + d
                            | None => c
                            end) s in
  let s := float_trim s in
  let '(neg, body) :=
    match s with
    | sg :: t => if sg =? 45 then (true, t)
                 else if sg =? 43 then (false, t) else (false, s)
    | [] => (false, s)
    end in
  let word := map ascii_lower body in
  if ustr_eqb word (U "inf") || ustr_eqb word (U "infinity") then Some (FInf neg)
  else if ustr_eqb word (U "nan") then Some FNaN
  else q ← unsigned_literal body;
       Some (FFinite (if neg then Qopp q else q)).

(** [float(x)]; [None] is the exception. *)
Definition py_float (x : cell) : option pyfloat :=
  match x with
  | CStr s => float_of_str s
  | CInt z =>
      (* OverflowError once the nearest double is out of range *)
      if (Z.abs z <? 2 ^ 1024 - 2 ^ 970)%Z then Some (FFinite (inject_Z z)) else None
  | CFloat f => Some f
  | CNone => None
  | CNA => None
  end.

(** [s.rfind(c)] for a one-character [c]. *)
Definition rfind (c : N) (s : ustring) : Z :=
  snd (foldl (fun '(i, found) d => ((i + 1)%Z, if d =? c then i else found))
             (0%Z, (-1)%Z) s).

(** [s.replace(c, d)] and the removal of [c] for one-character strings. *)
Definition remove_char (c : N) (s : ustring) : ustring :=
  List.filter (fun d => negb (d =? c)) s.
Definition replace_char (c d : N) (s : ustring) : ustring :=
  map (fun x => if x =? c then d else x) s.

Definition contains_char (c : N) (s : ustring) : bool := existsb (N.eqb c) s.

Definition _to_float (x : cell) : pyfloat :=
  let attempt : option pyfloat :=
    let s := strip (py_str x) in
    if ustr_eqb s []
       || existsb (ustr_eqb (str_lower s)) [U "nan"; U "<na>"; U "none"]
    then Some zero_float
    else
      let s :=
        if contains_char 44 s && contains_char 46 s
           && (rfind 46 s <? rfind 44 s)%Z
        then replace_char 44 46 (remove_char 46 (remove_char 32 s))
        else replace_char 44 46 s in
      float_of_str s in
  match attempt with
  | Some f => f
  | None =>
      match py_float x with
      | Some f => f
      | None => zero_float
      end
  end.

End ToFloat.

Record FoundColumns := {
  plant_col : option ustring;
  cctr_col : option ustring;
  comp_cols : dict (option ustring);
}.

Section Pipeline.
Context {RT : PyRuntime}.

Definition resolve_columns (df : DataFrame) : FoundColumns :=
  {| plant_col := _find_col_by_candidates (Some df) PLANT_COL_CANDIDATES;
     cctr_col := _find_col_by_candidates (Some df) CCTR_COL_CANDIDATES;
     comp_cols :=
       foldl (fun d comp =>
                dict_set d comp
                  (_find_col_by_candidates (Some df)
                     (default [comp] (dict_get COMP_COL_CANDIDATES comp))))
             [] COMPONENTS |}.

(** The three lines both blocks of [filter_by_codes] share: the mask of
    one code on one column. *)
Definition code_mask (df : DataFrame) (col code : ustring) : option (list bool) :=
  vals ← getcol df col;
  let s := map (fun v => strip (py_str v)) vals in
  let eq := map (fun v => ustr_eqb (casefold v) (casefold code)) s in
  Some (if existsb id eq
        then eq
        else map (fun v => str_in (str_upper code) (str_upper v)) s).

Definition filter_by_codes (df : option DataFrame)
    (plant_code cctr_code : option ustring) (found : FoundColumns)
  : option DataFrame :=
  match df with
  | None => Some empty_frame
  | Some df =>
      if df_empty df then Some empty_frame
      else
        let mask := repeat true (df_len df) in
        mask ← match plant_code, plant_col found with
               | Some ((_ :: _) as code), Some ((_ :: _) as col) =>
                   m ← code_mask df col code; Some (mask_and mask m)
               | _, _ => Some mask
               end;
        mask ← match cctr_code, cctr_col found with
               | Some ((_ :: _) as code), Some ((_ :: _) as col) =>
                   m ← code_mask df col code; Some (mask_and mask m)
               | _, _ => Some mask
               end;
        Some (loc_mask df mask)
  end.

(** [extract_components] *)
Definition extract_components (df_filtered : DataFrame) (found : FoundColumns)
  : DataFrame :=
  let out := index_frame df_filtered in
  let out :=
    foldl (fun out comp =>
             let src := default None (dict_get (comp_cols found) comp) in
             df_assign out comp
               match src with
               | Some ((_ :: _) as src) =>
                   match getcol df_filtered src with
                   | Some col => VSeries (map (fun x => CFloat (_to_float x)) col)
                   | None => VScalar (CFloat zero_float)
                   end
               | _ => VScalar (CFloat zero_float)
               end)
          out COMPONENTS in
  let out :=
    match getcol df_filtered (U "__kaynak_dosya__") with
    | Some col => df_assign out (U "__kaynak_dosya__") (VSeries col)
    | None => out
    end in
  let out :=
    match plant_col found with
    | Some ((_ :: _) as c) =>
        match getcol df_filtered c with
        | Some col => df_assign out (U "İş Yeri Kodu") (VSeries col)
        | None => out
        end
    | _ => out
    end in
  let out :=
    match cctr_col found with
    | Some ((_ :: _) as c) =>
        match getcol df_filtered c with
        | Some col => df_assign out (U "Masraf Yeri Kodu") (VSeries col)
        | None => out
        end
    | _ => out
    end in
  reset_index out.

End Pipeline.

(** *** Formulas *)

(** A value of the formula dictionary: a string, or anything else. *)
Inductive formula_expr :=
  | ExprStr (expr : ustring)
  | ExprOther.

Section Formulas.
Context {RT : PyRuntime}.

(** [eval(expr, {"__builtins__": {}}, local_env)]; [None] when it raises
    an [Exception]. *)
Variable py_eval : ustring -> dict pyvalue -> option pyvalue.

(** [ch.isalnum() or ch.isspace() or ch in "+-*/_"] *)
Definition allowed_char (ch : N) : bool :=
  isalnum ch || isspace ch || existsb (N.eqb ch) (U "+-*/_").

Definition expr_allowed (expr : ustring) : bool := forallb allowed_char expr.

(** [{comp: out[comp] if comp in out.columns else 0.0 for comp in COMPONENTS}] *)
Definition local_env (out : DataFrame) : dict pyvalue :=
  map (fun comp =>
         (comp, match getcol out comp with
                | Some col => VSeries col
                | None => VScalar (CFloat zero_float)
                end))
      COMPONENTS.

(** The body of the loop, on the table behind [out].  ([pd.notna(expr)]
    holds of every string.) *)
Definition eval_formula (h : heap) (out : nat) (name : ustring)
    (expr : formula_expr) : option heap :=
  match expr with
  | ExprOther => Some h
  | ExprStr expr =>
      if negb (expr_allowed expr) then Some h
      else
        df ← h !! out;
        match py_eval expr (local_env df) with
        | Some v => heap_setitem h out name v
        | None => Some h
        end
  end.

Fixpoint eval_formulas (h : heap) (out : nat) (formulas : dict formula_expr)
  : option heap :=
  match formulas with
  | [] => Some h
  | (name, expr) :: rest =>
      h' ← eval_formula h out name expr;
      eval_formulas h' out rest
  end.

(** [eval_formulas_on_rows(components_df, formulas)]: the heap after the
    call and the reference it returns. *)
Definition eval_formulas_on_rows (h : heap) (components_df : nat)
    (formulas : dict formula_expr) : option (heap * nat) :=
  '(h, out) ← df_copy h components_df;
  h ← eval_formulas h out formulas;
  Some (h, out).

End Formulas.

Definition DEFAULT_FORMULAS : dict ustring :=
  [ (U "PROCESS_MALIYETI", U "AMOR + DIS + EDIS + ENER + GUG") ].

Section Compute.
Context {RT : PyRuntime}.

(** [pd.read_excel(path)]; [None] when it raises. *)
Variable read_excel : ustring -> option DataFrame.

(** [eval], as above. *)
Variable py_eval : ustring -> dict pyvalue -> option pyvalue.

(** [float(series.sum(skipna=True))]; [None] when it raises. *)
Variable series_sum : list cell -> option pyfloat.

(** The loop over [df.iterrows()]. *)
Definition formulas_of_rows (df : DataFrame) (name_col expr_col : ustring)
  : dict ustring :=
  foldl (fun formulas r =>
           let nm := strip (py_str (cell_at (columns df) r name_col)) in
           let ex := strip (py_str (cell_at (columns df) r expr_col)) in
           match nm, ex with
           | _ :: _, _ :: _ => dict_set formulas nm ex
           | _, _ => formulas
           end)
        [] (iterrows df).

(** [load_formulas_from_excel] *)
Definition load_formulas_from_excel (path : ustring) : dict ustring :=
  match read_excel path with
  | None => DEFAULT_FORMULAS
  | Some df =>
      let name_col :=
        _find_col_by_candidates (Some df)
          [U "name"; U "formul ad"; U "formül adı"; U "kod"] in
      let expr_col :=
        _find_col_by_candidates (Some df)
          [U "expr"; U "formul"; U "formül"; U "expression"] in
      match name_col, expr_col with
      | Some ((_ :: _) as name_col), Some ((_ :: _) as expr_col) =>
          match formulas_of_rows df name_col expr_col with
          | [] => DEFAULT_FORMULAS
          | formulas => formulas
          end
      | _, _ => DEFAULT_FORMULAS
      end
  end.

(** The two loops that fill [summary]. *)
Fixpoint summarize (out_rows : DataFrame) (names : list ustring)
    (summary : dict pyfloat) : option (dict pyfloat) :=
  match names with
  | [] => Some summary
  | col :: rest =>
      match getcol out_rows col with
      | Some values =>
          total ← series_sum values;
          summarize out_rows rest (dict_set summary col total)
      | None => summarize out_rows rest summary
      end
  end.

(** [compute_by_plant_costcenter]; [None] when it raises. *)
Definition compute_by_plant_costcenter (src_df : option DataFrame)
    (isyeri_kodu masraf_yeri_kodu : option ustring)
    (formula_excel_path : option ustring)
  : option (DataFrame * dict pyfloat) :=
  match src_df with
  | None => Some (empty_frame, [])
  | Some src_df =>
      if df_empty src_df then Some (empty_frame, [])
      else
        let found := resolve_columns src_df in
        filtered ← filter_by_codes (Some src_df) isyeri_kodu masraf_yeri_kodu found;
        if df_empty filtered then Some (empty_frame, [])
        else
          let comp_df := extract_components filtered found in
          let formulas :=
            match formula_excel_path with
            | Some ((_ :: _) as path) => load_formulas_from_excel path
            | _ => DEFAULT_FORMULAS
            end in
          let h : heap := {[ 0%nat := comp_df ]} in
          '(h, out) ← eval_formulas_on_rows py_eval h 0%nat
                        (map (fun '(name, expr) => (name, ExprStr expr)) formulas);
          out_rows ← h !! out;
          summary ← summarize out_rows COMPONENTS [];
          summary ← summarize out_rows (dict_keys formulas) summary;
          Some (out_rows, summary)
  end.

End Compute.
End CostComponents.

(** ** data_engine.py *)

Module DataEngine.
Import CoreSchema.


Definition FALLBACK_LABELS : dict ustring :=
  [ (U "is_yeri_kodu", U "İş Yeri Kodu");
    (U "masraf_yeri_kodu", U "Masraf Yeri Kodu");
    (U "makine_kodu", U "Makine Kodu") ].

(** The state of an [Engine]. *)
Record Engine := {
  schema : dict FieldMeta;
  src_df : option DataFrame;
  staged_df : option DataFrame;
  processed_df : option DataFrame;
  loaded_files_top : list ustring;
  loaded_files_bottom : list ustring;
  manual_values : gmap (list N) (list N);
}.

Definition set_src_df (e : Engine) (df : option DataFrame) : Engine :=
  {| schema := schema e; src_df := df; staged_df := staged_df e;
     processed_df := processed_df e;
     loaded_files_top := loaded_files_top e;
     loaded_files_bottom := loaded_files_bottom e;
     manual_values := manual_values e |}.

Definition set_manual_value (e : Engine) (key val : ustring) : Engine :=
  {| schema := schema e; src_df := src_df e; staged_df := staged_df e;
     processed_df := processed_df e;
     loaded_files_top := loaded_files_top e;
     loaded_files_bottom := loaded_files_bottom e;
     manual_values := <[key := val]> (manual_values e) |}.

(** [Engine(schema)] *)
Definition new_engine (schema : option (dict FieldMeta)) : Engine :=
  {| schema := match schema with
               | Some ((_ :: _) as s) => s
               | _ => DEFAULT_SCHEMA
               end;
     src_df := None; staged_df := None; processed_df := None;
     loaded_files_top := []; loaded_files_bottom := [];
     manual_values := ∅ |}.

Section Engine.
Context {RT : PyRuntime}.

Definition _cands (e : Engine) (key : ustring) : list ustring :=
  let meta := default {| label := None; synonyms := [] |} (dict_get (schema e) key) in
  default (default key (dict_get FALLBACK_LABELS key)) (label meta)
    :: synonyms meta ++ [key].

(** As in [_find_col_by_candidates]: first the exact pass over the
    candidates, then the loop over the columns. *)
Fixpoint exact_match (candidates : list ustring) (norm_map : dict ustring)
  : option ustring :=
  match candidates with
  | [] => None
  | cand :: rest =>
      let n := normalize (Some cand) in
      match dict_get norm_map n with
      | Some c => Some c
      | None => exact_match rest norm_map
      end
  end.

Definition loose_match (cols candidates : list ustring) : option ustring :=
  List.find
    (fun col =>
       existsb (fun c => str_in (normalize (Some c)) (normalize (Some col)))
               candidates)
    cols.

Definition find_col_by_candidates (df : option DataFrame)
    (candidates : list ustring) : option ustring :=
  match df with
  | None => None
  | Some df =>
      let norm_map := dict_comprehension (fun c => normalize (Some c)) (columns df) in
      match exact_match candidates norm_map with
      | Some c => Some c
      | None => loose_match (columns df) candidates
      end
  end.

(** *** Majority vote *)

(** What [.replace({...: pd.NA})] turns into a missing value. *)
Definition null_marker (v : ustring) : bool :=
  existsb (ustr_eqb v) [[]; U "nan"; U "<NA>"; U "None"].

(** [df[col].astype(str).str.strip().replace({...}).dropna()] *)
Definition non_null_values (df : DataFrame) (col : ustring)
  : option (list ustring) :=
  vals ← getcol df col;
  Some (List.filter (fun v => negb (null_marker v))
          (map (fun v => strip (py_str v)) vals)).

(** [s.unique()]: the values in order of first appearance. *)
Fixpoint unique (s : list ustring) : list ustring :=
  match s with
  | [] => []
  | v :: s' => v :: List.filter (fun w => negb (ustr_eqb w v)) (unique s')
  end.

Definition count_of (v : ustring) (s : list ustring) : nat :=
  length (List.filter (ustr_eqb v) s).

Fixpoint insert_by_count (x : ustring * nat) (l : list (ustring * nat))
  : list (ustring * nat) :=
  match l with
  | [] => [x]
  | y :: l' =>
      if (snd y <=? snd x)%nat then x :: l else y :: insert_by_count x l'
  end.

(** [s.value_counts()]: the distinct values with their counts, the
    largest count first, equal counts in order of first appearance. *)
Definition value_counts (s : list ustring) : list (ustring * nat) :=
  foldr insert_by_count [] (map (fun v => (v, count_of v s)) (unique s)).

(** The value the vote settles on, if any.  [ratio < 0.9] compares
    [count / len(s)], rounded to a double, with the double nearest 0.9;
    for fewer than 2^49 values that is the comparison of [10 * count]
    with [9 * len(s)]. *)
Definition vote (s : list ustring) : option ustring :=
  match unique s with
  | [] => None
  | [v] => Some v
  | _ =>
      match value_counts s with
      | (top_val, top_count) :: _ =>
          if (10 * top_count <? 9 * length s)%nat then None else Some top_val
      | [] => None
      end
  end.

(** The body of the loop over [keys]: the engine and whether the key was
    filled. *)
Definition autofill_key (df : DataFrame) (override : bool) (e : Engine)
    (key : ustring) : option (Engine * bool) :=
  if negb override && truthy (manual_values e !! key) then Some (e, false)
  else
    match find_col_by_candidates (Some df) (_cands e key) with
    | Some ((_ :: _) as col) =>
        s ← non_null_values df col;
        match s with
        | [] => Some (e, false)
        | _ =>
            match vote s with
            | Some val => Some (set_manual_value e key val, true)
            | None => Some (e, false)
            end
        end
    | _ => Some (e, false)
    end.

Fixpoint autofill_keys (df : DataFrame) (override : bool) (e : Engine)
    (keys : list ustring) : option (Engine * list ustring) :=
  match keys with
  | [] => Some (e, [])
  | key :: rest =>
      match autofill_key df override e key with
      | None => None
      | Some (e, was_filled) =>
          match autofill_keys df override e rest with
          | None => None
          | Some (e, filled) =>
              Some (e, if was_filled then key :: filled else filled)
          end
      end
  end.

(** [Engine.autofill_manual_from_df] *)
Definition autofill_manual_from_df (e : Engine) (df : option DataFrame)
    (keys : list ustring) (override : bool) : option (Engine * list ustring) :=
  match df with
  | None => Some (e, [])
  | Some df =>
      if df_empty df then Some (e, []) else autofill_keys df override e keys
  end.

(** *** Import of the staged table *)

(** [df[col].astype(str).str.strip().str.casefold()] *)
Definition key_series (df : DataFrame) (col : ustring) : option (list ustring) :=
  vals ← getcol df col;
  Some (map (fun v => casefold (strip (py_str v))) vals).

(** [Engine.import_staged_into_system] *)
Definition import_staged_into_system (e : Engine) (replace_on_keys : bool)
  : option (Engine * (nat * nat)) :=
  match staged_df e with
  | None => Some (e, (0, 0)%nat)
  | Some staged =>
      if df_empty staged then Some (e, (0, 0)%nat)
      else
        match src_df e with
        | None => Some (set_src_df e (Some staged), (0%nat, df_len staged))
        | Some src =>
            if df_empty src
            then Some (set_src_df e (Some staged), (0%nat, df_len staged))
            else
              let top_is := find_col_by_candidates (Some src) (_cands e (U "is_yeri_kodu")) in
              let top_ms := find_col_by_candidates (Some src) (_cands e (U "masraf_yeri_kodu")) in
              let bot_is := find_col_by_candidates (Some staged) (_cands e (U "is_yeri_kodu")) in
              let bot_ms := find_col_by_candidates (Some staged) (_cands e (U "masraf_yeri_kodu")) in
              let removal : option (DataFrame * nat) :=
                match replace_on_keys, top_is, top_ms, bot_is, bot_ms with
                | true, Some ((_ :: _) as top_is), Some ((_ :: _) as top_ms),
                  Some ((_ :: _) as bot_is), Some ((_ :: _) as bot_ms) =>
                    b_is ← key_series staged bot_is;
                    b_ms ← key_series staged bot_ms;
                    let key_pairs : gset (list N * list N) :=
                      list_to_set (zip b_is b_ms) in
                    let before := df_len src in
                    t_is ← key_series src top_is;
                    t_ms ← key_series src top_ms;
                    let mask_keep :=
                      map (fun p => negb (bool_decide (p ∈ key_pairs)))
                          (zip t_is t_ms) in
                    let src := reset_index (loc_mask src mask_keep) in
                    Some (src, (before - df_len src)%nat)
                | _, _, _, _, _ => Some (src, 0%nat)
                end in
              '(src, removed) ← removal;
              Some (set_src_df e (Some (concat src staged)),
                    (removed, df_len staged))
        end
  end.

(** [Engine.filter_df_by_codes].  The mask of one code is computed by the
    same three lines as in [cost_components.filter_by_codes]. *)
Definition filter_df_by_codes (e : Engine) (df : option DataFrame)
    (isyeri masraf : option ustring) : option DataFrame :=
  match df with
  | None => Some empty_frame
  | Some df =>
      if df_empty df then Some empty_frame
      else
        let col_is :=
          if truthy isyeri
          then find_col_by_candidates (Some df) (_cands e (U "is_yeri_kodu"))
          else None in
        let col_ms :=
          if truthy masraf
          then find_col_by_candidates (Some df) (_cands e (U "masraf_yeri_kodu"))
          else None in
        let mask := repeat true (df_len df) in
        mask ← match isyeri, col_is with
               | Some ((_ :: _) as code), Some ((_ :: _) as col) =>
                   m ← CostComponents.code_mask df col code;
                   Some (mask_and mask m)
               | _, _ => Some mask
               end;
        mask ← match masraf, col_ms with
               | Some ((_ :: _) as code), Some ((_ :: _) as col) =>
                   m ← CostComponents.code_mask df col code;
                   Some (mask_and mask m)
               | _, _ => Some mask
               end;
        let sub := loc_mask df mask in
        if df_empty sub then Some empty_frame
        else
          let cols := columns sub in
          let sub :=
            if has_column sub (U "__kaynak_dosya__")
            then select_columns sub
                   (U "__kaynak_dosya__"
                    :: List.filter (fun c => negb (ustr_eqb c (U "__kaynak_dosya__"))) cols)
            else sub in
          Some (reset_index sub)
  end.

End Engine.

(** *** The other operations on the buffers *)

Definition set_staged_df (e : Engine) (df : option DataFrame) : Engine :=
  {| schema := schema e; src_df := src_df e; staged_df := df;
     processed_df := processed_df e;
     loaded_files_top := loaded_files_top e;
     loaded_files_bottom := loaded_files_bottom e;
     manual_values := manual_values e |}.

Definition set_processed_df (e : Engine) (df : option DataFrame) : Engine :=
  {| schema := schema e; src_df := src_df e; staged_df := staged_df e;
     processed_df := df;
     loaded_files_top := loaded_files_top e;
     loaded_files_bottom := loaded_files_bottom e;
     manual_values := manual_values e |}.

Definition set_loaded_files_top (e : Engine) (files : list ustring) : Engine :=
  {| schema := schema e; src_df := src_df e; staged_df := staged_df e;
     processed_df := processed_df e;
     loaded_files_top := files;
     loaded_files_bottom := loaded_files_bottom e;
     manual_values := manual_values e |}.

Definition set_loaded_files_bottom (e : Engine) (files : list ustring) : Engine :=
  {| schema := schema e; src_df := src_df e; staged_df := staged_df e;
     processed_df := processed_df e;
     loaded_files_top := loaded_files_top e;
     loaded_files_bottom := files;
     manual_values := manual_values e |}.

Definition set_manual_values (e : Engine) (values : gmap (list N) (list N)) : Engine :=
  {| schema := schema e; src_df := src_df e; staged_df := staged_df e;
     processed_df := processed_df e;
     loaded_files_top := loaded_files_top e;
     loaded_files_bottom := loaded_files_bottom e;
     manual_values := values |}.

(** The loop [for p in source_paths: if p not in files: files.append(p)]. *)
Definition record_paths (files source_paths : list ustring) : list ustring :=
  foldl (fun files p => if bool_decide (p ∈ files) then files else files ++ [p])
        files source_paths.

(** [Engine.append_to_top] *)
Definition append_to_top (e : Engine) (new_df : option DataFrame)
    (source_paths : list ustring) : Engine :=
  match new_df with
  | None => e
  | Some new_df =>
      if df_empty new_df then e
      else
        let e :=
          match src_df e with
          | None => set_src_df e (Some new_df)
          | Some src =>
              if df_empty src then set_src_df e (Some new_df)
              else set_src_df e (Some (concat src new_df))
          end in
        set_loaded_files_top e (record_paths (loaded_files_top e) source_paths)
  end.

(** [Engine.append_to_bottom] *)
Definition append_to_bottom (e : Engine) (new_df : option DataFrame)
    (source_paths : list ustring) : Engine :=
  match new_df with
  | None => e
  | Some new_df =>
      if df_empty new_df then e
      else
        let e :=
          match staged_df e with
          | None => set_staged_df e (Some new_df)
          | Some staged =>
              if df_empty staged then set_staged_df e (Some new_df)
              else set_staged_df e (Some (concat staged new_df))
          end in
        set_loaded_files_bottom e
          (record_paths (loaded_files_bottom e) source_paths)
  end.

Section Apply.
Context {RT : PyRuntime}.
Variable get_close_matches : ustring -> list ustring -> list ustring.

(** [Engine.auto_apply_top]: the engine after the call and what it
    returns. *)
Definition auto_apply_top (e : Engine) : Engine * option DataFrame :=
  match src_df e with
  | None => (e, None)
  | Some src =>
      if df_empty src then (e, None)
      else
        let mapping := suggest_mapping get_close_matches (schema e) (columns src) in
        let processed := CoreSchemaFrames.apply_mapping (schema e) src mapping in
        (set_processed_df e (Some processed), Some processed)
  end.

End Apply.

Section Reading.
Context {RT : PyRuntime}.

(** [pd.read_csv(path)] and [pd.read_excel(path)]; [None] when they
    raise. *)
Variables read_csv read_excel : ustring -> option DataFrame.

(** [Path(path).name] *)
Variable path_name : ustring -> ustring.

(** [s.endswith(suffix)] *)
Definition endswith (s suffix : ustring) : bool :=
  is_prefix (rev suffix) (rev s).

Definition _read_any (path : ustring) : option DataFrame :=
  if endswith (str_lower path) (U ".csv") then read_csv path else read_excel path.

(** [Engine.read_files] *)
Definition read_files (paths : list ustring) : DataFrame :=
  let frames :=
    foldl (fun frames path =>
             match _read_any path with
             | None => frames
             | Some df =>
                 if df_empty df then frames
                 else frames
                      ++ [df_assign df (U "__kaynak_dosya__")
                            (VScalar (CStr (path_name path)))]
             end)
          [] paths in
  concat_all frames.

End Reading.

(** *** Persistence *)

(** [Engine.load_state].  The three pickles are read inside one [try]:
    the first that cannot be read ends the block. *)
Definition load_state (e : Engine) (dir : directory) : Engine :=
  let load (name : ustring) (set : Engine -> option DataFrame -> Engine)
      (k : Engine -> Engine) (e : Engine) : Engine :=
    match dir !! name with
    | None => k e
    | Some _ =>
        match read_pickle dir name with
        | Some df => k (set e (Some df))
        | None => e
        end
    end in
  let e :=
    load (U "src_df.pkl") set_src_df
      (load (U "staged_df.pkl") set_staged_df
         (load (U "processed_df.pkl") set_processed_df (fun e => e))) e in
  match dir !! U "config.json" with
  | None => e
  | Some _ =>
      match read_json dir (U "config.json") with
      | Some data =>
          let e := set_loaded_files_top e (default [] (cfg_loaded_files_top data)) in
          let e := set_loaded_files_bottom e (default [] (cfg_loaded_files_bottom data)) in
          set_manual_values e (default ∅ (cfg_manual_values data))
      | None => e
      end
  end.

(** [Engine.save_state] *)
Definition save_state (e : Engine) (window : option (gmap (list N) Z))
    (dir : directory) : directory :=
  let save (name : ustring) (df : option DataFrame) (dir : directory) : directory :=
    match df with
    | Some df => if df_empty df then dir else <[name := FPickle df]> dir
    | None => dir
    end in
  let dir := save (U "src_df.pkl") (src_df e) dir in
  let dir := save (U "staged_df.pkl") (staged_df e) dir in
  let dir := save (U "processed_df.pkl") (processed_df e) dir in
  let cfg :=
    {| cfg_loaded_files_top := Some (loaded_files_top e);
       cfg_loaded_files_bottom := Some (loaded_files_bottom e);
       cfg_manual_values := Some (manual_values e);
       cfg_window := default ∅ window |} in
  <[U "config.json" := FConfig cfg]> dir.

(** [Engine.reset_bottom] *)
Definition reset_bottom (e : Engine) (dir : directory) : Engine * directory :=
  let e := set_staged_df e None in
  let e := set_loaded_files_bottom e [] in
  (e, unlink_if_exists dir (U "staged_df.pkl")).

(** [Engine.reset_state] *)
Definition reset_state (e : Engine) (dir : directory) : Engine * directory :=
  ({| schema := schema e; src_df := None; staged_df := None;
      processed_df := None; loaded_files_top := []; loaded_files_bottom := [];
      manual_values := ∅ |},
   foldl unlink_if_exists dir
     [U "src_df.pkl"; U "staged_df.pkl"; U "processed_df.pkl"; U "config.json"]).

(** [Engine.reset_top] *)
Definition reset_top (e : Engine) (dir : directory) : Engine * directory :=
  let e := set_src_df e None in
  let e := set_processed_df e None in
  let e := set_loaded_files_top e [] in
  (e, unlink_if_exists (unlink_if_exists dir (U "src_df.pkl")) (U "processed_df.pkl")).

End DataEngine.

(** * Notions the statements use *)

(** A character up to ASCII case and the Turkish folding table. *)
Definition fold_char (c : N) : N := ascii_lower (CoreSchema._TURKISH_CHAR_MAP c).

(** ASCII punctuation, spacing and control characters: what separates
    words. *)
Definition is_separator (c : N) : bool := is_ascii c && negb (ascii_isalnum c).

(** The state of [sub_runs] after a string. *)
Definition run_after (cls : N -> bool) (in_run : bool) (s : ustring) : bool :=
  foldl (fun _ c => cls c) in_run s.

(** Only letters a-z, digits and single spaces. *)
Fixpoint tidy (after_space : bool) (s : ustring) : bool :=
  match s with
  | [] => true
  | c :: s' =>
      if is_az09 c then tidy false s'
      else (c =? 32) && negb after_space && tidy true s'
  end.

Section KeyChars.
Context {RT : PyRuntime}.

(** What [normalize] makes of one character between its two strips. *)
Definition key_chars (c : N) : ustring :=
  map ascii_lower
    (List.filter is_ascii
       (let d := CoreSchema._TURKISH_CHAR_MAP c in
        if is_ascii d then [d] else uni_nfkd d)).

End KeyChars.

(** The last three steps of [normalize] without the second substitution. *)
Definition squeeze (t : ustring) : ustring := strip (sub_runs not_az09 false t).


(** The first and the last element of a list that satisfy [p]. *)
Definition first_such (p : ustring -> bool) (xs : list ustring) : option ustring :=
  List.find p xs.

Fixpoint last_such (p : ustring -> bool) (xs : list ustring) : option ustring :=
  match xs with
  | [] => None
  | x :: xs' =>
      match last_such p xs' with
      | Some y => Some y
      | None => if p x then Some x else None
      end
  end.

Section MapperNotions.
Context {RT : PyRuntime}.

(** The header [h] has the normalized form [k]. *)
Definition has_key (k : ustring) (h : ustring) : bool :=
  ustr_eqb (CoreSchema.normalize (Some h)) k.

(** [c] is the first of the normalized candidates of a field that is the
    normalized form of some header. *)
Definition first_matching (cand_norm headers : list ustring) (c : ustring) : Prop :=
  exists before after,
    cand_norm = before ++ c :: after
    /\ (forall c' h, In c' before -> In h headers -> has_key c' h = false)
    /\ (exists h, In h headers /\ has_key c h = true).

(** The normalized candidates of a canonical field. *)
Definition cand_norm_of (canonical : ustring) (meta : CoreSchema.FieldMeta)
  : list ustring :=
  map (fun x => CoreSchema.normalize (Some x))
      (canonical :: CoreSchema.synonyms meta).

End MapperNotions.

(** The mapper's lookup with the first-seen header winning, as a
    statement about every schema and every list of headers. *)
Definition first_seen_wins : Prop :=
  forall (RT : PyRuntime) (get_close_matches : ustring -> list ustring -> list ustring)
         (schema : dict CoreSchema.FieldMeta) (headers : list ustring)
         (canonical : ustring) (meta : CoreSchema.FieldMeta) (c h : ustring),
    NoDup (dict_keys schema) ->
    In (canonical, meta) schema ->
    first_matching (cand_norm_of canonical meta) headers c ->
    first_such (has_key c) headers = Some h ->
    dict_get (CoreSchema.suggest_mapping get_close_matches schema headers) canonical
    = Some (Some h).

Section FormulaNotions.
Context {RT : PyRuntime}.
Variable py_eval : ustring -> dict pyvalue -> option pyvalue.
Import CostComponents.

(** What one formula makes of the table the loop works on, and what a
    list of formulas makes of it. *)
Definition apply_formula (out : DataFrame) (name : ustring) (expr : formula_expr)
  : DataFrame :=
  match expr with
  | ExprOther => out
  | ExprStr expr =>
      if expr_allowed expr
      then match py_eval expr (local_env out) with
           | Some v => df_setitem out name v
           | None => out
           end
      else out
  end.

Definition apply_formulas (out : DataFrame) (formulas : dict formula_expr)
  : DataFrame :=
  foldl (fun out '(name, expr) => apply_formula out name expr) out formulas.

End FormulaNotions.

(** * Sample data *)

Module Sample.

(** An evaluator that knows one kind of expression, the name of a
    component. *)
Definition name_eval (expr : ustring) (env : dict pyvalue) : option pyvalue :=
  dict_get env expr.

(** A two-row components table. *)
Definition components : DataFrame :=
  {| columns := [U "AMOR"; U "DIS"];
     rows := [[CInt 100; CInt 7]; [CInt 50; CInt 8]] |}.

Definition formulas : dict CostComponents.formula_expr :=
  [ (U "A", CostComponents.ExprStr (U "AMOR"));
    (U "BAD", CostComponents.ExprStr (U "AMOR; import os"));
    (U "MISSING", CostComponents.ExprStr (U "TOTAL")) ].

End Sample.

Section FilterNotions.
Context {RT : PyRuntime}.

(** The text of a cell, stringified and trimmed. *)
Definition cell_text (v : cell) : ustring := strip (py_str v).

(** Case-insensitive equality and containment of a code. *)
Definition equals_code (code : ustring) (v : cell) : bool :=
  ustr_eqb (casefold (cell_text v)) (casefold code).

Definition contains_code (code : ustring) (v : cell) : bool :=
  str_in (str_upper code) (str_upper (cell_text v)).

(** Row [r] of the table passes the test of [code] on column [col]:
    equality when some row of the table equals the code, containment
    otherwise. *)
Definition code_matches (df : DataFrame) (col code : ustring) (r : list cell) : bool :=
  if existsb (fun r' => equals_code code (cell_at (columns df) r' col)) (rows df)
  then equals_code code (cell_at (columns df) r col)
  else contains_code code (cell_at (columns df) r col).

(** The constraint of one key: none when the code or the column is empty
    or absent. *)
Definition code_constraint (df : DataFrame) (code col : option ustring)
    (r : list cell) : bool :=
  match code, col with
  | Some ((_ :: _) as code), Some ((_ :: _) as col) => code_matches df col code r
  | _, _ => true
  end.

End FilterNotions.

(** A column name that, when it is there and not empty, is a column of
    the table. *)
Definition column_of (df : DataFrame) (col : option ustring) : Prop :=
  forall c, col = Some c -> c <> [] -> In c (columns df).

Module SampleFilter.

(** No plant is "P1"; one is "P1-EXT". *)
Definition table : DataFrame :=
  {| columns := [U "plant"; U "cc"];
     rows := [ [CStr (U "P1-EXT"); CStr (U "C1")];
               [CStr (U "P2"); CStr (U "C2")] ] |}.


Definition found : CostComponents.FoundColumns :=
  {| CostComponents.plant_col := Some (U "plant");
     CostComponents.cctr_col := Some (U "cc");
     CostComponents.comp_cols := [] |}.

End SampleFilter.

Section AutofillNotions.
Context {RT : PyRuntime}.


End AutofillNotions.

Module SampleVote.

(** A one-column table with [n] cells "A" and one cell "B". *)
Definition table (n : nat) : DataFrame :=
  {| columns := [U "plant"];
     rows := repeat [CStr (U "A")] n ++ [[CStr (U "B")]] |}.

End SampleVote.

(** ** What [pd.concat] does to a cell *)

(** The cell [y] is the cell [x] after [pd.concat]: [x] itself, or the
    float of the integer [x], or a missing value for a missing value. *)
Definition same_value (x y : cell) : Prop :=
  y = x
  \/ (exists z, x = CInt z /\ y = CFloat (FFinite (double_of_Z z)))
  \/ (isna x = true /\ isna y = true).

(** The rows [out] are the rows [rs] of a table with the columns [old],
    in their order, laid out on the columns [cols]: one cell per column,
    with the value of the cell the row had under that name, NaN for a
    name the table did not have. *)
Definition laid_out (cols old : list ustring) (rs out : list (list cell)) : Prop :=
  Forall2 (fun r r' =>
             length r' = length cols
             /\ forall c, In c cols ->
                  same_value (cell_at old r c) (cell_at cols r' c))
          rs out.

(** A column of the table that holds integers only. *)
Definition integers_under (df : DataFrame) (c : ustring) : Prop :=
  In c (columns df)
  /\ forall r, In r (rows df) -> is_int (cell_at (columns df) r c) = true.

Definition text_or_float (x : cell) : bool :=
  match x with CStr _ | CFloat _ => true | _ => false end.

(** No integer, [None] or [pd.NA] under the name: strings and floats
    only (NaN among them, also when the table has no such column). *)
Definition plain_under (df : DataFrame) (c : ustring) : Prop :=
  forall r, In r (rows df) -> text_or_float (cell_at (columns df) r c) = true.

(** Tables in which every column holds integers in each of them, or
    strings and floats in each of them: [pd.concat] has no cell to
    convert. *)
Definition unconverted (frames : list DataFrame) : Prop :=
  forall c,
    (exists f, In f frames /\ In c (columns f)) ->
    (forall f, In f frames -> integers_under f c)
    \/ (forall f, In f frames -> plain_under f c).

(** Nothing of the engine but the system table has changed. *)
Definition system_table_only (e e' : DataEngine.Engine) : Prop :=
  DataEngine.schema e' = DataEngine.schema e
  /\ DataEngine.staged_df e' = DataEngine.staged_df e
  /\ DataEngine.processed_df e' = DataEngine.processed_df e
  /\ DataEngine.loaded_files_top e' = DataEngine.loaded_files_top e
  /\ DataEngine.loaded_files_bottom e' = DataEngine.loaded_files_bottom e
  /\ DataEngine.manual_values e' = DataEngine.manual_values e.

Section ImportNotions.
Context {RT : PyRuntime}.

(** The plant and cost-center columns of a table, when both can be
    resolved. *)
Definition key_columns (e : DataEngine.Engine) (df : DataFrame)
  : option (list N * list N) :=
  match DataEngine.find_col_by_candidates (Some df)
          (DataEngine._cands e (U "is_yeri_kodu")),
        DataEngine.find_col_by_candidates (Some df)
          (DataEngine._cands e (U "masraf_yeri_kodu")) with
  | Some ((_ :: _) as col_is), Some ((_ :: _) as col_ms) => Some (col_is, col_ms)
  | _, _ => None
  end.

(** The trimmed, case-folded (plant, cost center) pair of a row. *)
Definition row_key (cols : list ustring) (key_cols : list N * list N)
    (r : list cell) : list N * list N :=
  (casefold (cell_text (cell_at cols r (fst key_cols))),
   casefold (cell_text (cell_at cols r (snd key_cols)))).

(** The pairs of the rows of a table. *)
Definition table_keys (df : DataFrame) (key_cols : list N * list N)
  : list (list N * list N) :=
  map (row_key (columns df) key_cols) (rows df).

(** The row's pair occurs among the given pairs. *)
Definition key_among (keys : list (list N * list N)) (cols : list ustring)
    (key_cols : list N * list N) (r : list cell) : bool :=
  bool_decide (row_key cols key_cols r ∈ keys).

End ImportNotions.



(** [repr] of a float with a short decimal expansion, from 10^-4 up to
    10^16 in size: the digits before the point, the point, and the
    digits after it, "0" when there is none. *)
Fixpoint decimal_digits (fuel : nat) (r d : Z) : ustring :=
  match fuel with
  | O => []
  | S fuel =>
      if (r =? 0)%Z then []
      else Z.to_N (48 + (10 * r) / d) :: decimal_digits fuel ((10 * r) mod d) d
  end.

Definition decimal_repr (q : Q) : ustring :=
  let d := Z.pos (Qden q) in
  let a := Z.abs (Qnum q) in
  (if (Qnum q <? 0)%Z then [45] else [])
  ++ str_of_Z (a / d) ++ [46]
  ++ match decimal_digits 17 (a mod d) d with
     | [] => [48]
     | ds => ds
     end.

(** The runtime [ascii_only], with that [repr]. *)
Definition ascii_decimal : PyRuntime :=
  {| uni_nfkd := fun c => [c];
     uni_isalnum := fun _ => false;
     uni_lower := fun c => [c];
     uni_upper := fun c => [c];
     uni_casefold := fun c => [c];
     uni_decimal := fun _ => None;
     float_repr := decimal_repr |}.





Module SampleImport.

Definition with_tables (src staged : option DataFrame) : DataEngine.Engine :=
  {| DataEngine.schema := CoreSchema.DEFAULT_SCHEMA;
     DataEngine.src_df := src;
     DataEngine.staged_df := staged;
     DataEngine.processed_df := None;
     DataEngine.loaded_files_top := [];
     DataEngine.loaded_files_bottom := [];
     DataEngine.manual_values := ∅ |}.


(** Two tables with the key columns "plant" and "cc". *)
Definition top : DataFrame :=
  {| columns := [U "plant"; U "cc"; U "AMOR"];
     rows := [ [CStr (U "P1"); CStr (U "C1"); CInt 100];
               [CStr (U "P2"); CStr (U "C2"); CInt 50] ] |}.
Definition staged : DataFrame :=
  {| columns := [U "plant"; U "cc"; U "AMOR"];
     rows := [ [CStr (U " p1"); CStr (U "c1 "); CInt 7];
               [CStr (U "P3"); CStr (U "C3"); CInt 9] ] |}.


(** Plant codes that are integers in the system table and floats in the
    staged table. *)
Definition int_top : DataFrame :=
  {| columns := [U "plant"; U "cc"];
     rows := [ [CInt 1; CStr (U "C")] ] |}.
Definition float_staged : DataFrame :=
  {| columns := [U "plant"; U "cc"];
     rows := [ [CFloat (FFinite 1); CStr (U "C")];
               [CFloat (FFinite (5 # 2)); CStr (U "C")] ] |}.

End SampleImport.

Module SampleImportResult.



(** The tables [int_top] and [float_staged] after one import and after
    two. *)
Definition float_once : DataFrame :=
  {| columns := [U "plant"; U "cc"];
     rows := [ [CFloat (FFinite 1); CStr (U "C")];
               [CFloat (FFinite 1); CStr (U "C")];
               [CFloat (FFinite (5 # 2)); CStr (U "C")] ] |}.

End SampleImportResult.

(** The cells the assignment [df[name] = v] gives to the column, in a
    table of [n] rows. *)
Definition assigned_cells (v : pyvalue) (n : nat) : list cell :=
  match v with
  | VScalar c => repeat c n
  | VSeries l => map (fun i => default NaN (l !! i)) (seq 0 n)
  end.

(** A series of [n] cells, or a scalar. *)
Definition fits (v : pyvalue) (n : nat) : Prop :=
  match v with
  | VScalar _ => True
  | VSeries l => length l = n
  end.

Definition is_series (v : pyvalue) : bool :=
  match v with VSeries _ => true | VScalar _ => false end.

(** The column an entry of a schema gets: [meta.get("label", canonical)]. *)
Definition label_of (entry : ustring * CoreSchema.FieldMeta) : ustring :=
  default (fst entry) (CoreSchema.label (snd entry)).

Module SampleMapping.

(** A table with a plant column, an amount and the name of its file. *)
Definition table : DataFrame :=
  {| columns := [U "Plant"; U "Amount"; U "__kaynak_dosya__"];
     rows := [ [CStr (U "P1"); CInt 3; CStr (U "a.csv")];
               [CStr (U "P2"); CInt 4; CStr (U "a.csv")] ] |}.

Definition mapping : dict (option ustring) :=
  [ (U "is_yeri_kodu", Some (U "Plant")); (U "masraf_yeri_kodu", None);
    (U "makine_kodu", None); (U "makine_adi", None); (U "malzeme_adi", None) ].

End SampleMapping.

(** The table [res] is [new] put under [old]: [new] itself when there is
    no table yet or an empty one; otherwise the columns of [old] followed
    by those only [new] has, the rows of [old] followed by those of [new],
    each cell having the value of the cell of its row in its own table
    (an integer may have become a float), NaN where that table has no
    such column, and being that cell itself when the two tables leave
    nothing to convert. *)
Definition appended (old : option DataFrame) (new res : DataFrame) : Prop :=
  (absent_or_empty old = true -> res = new)
  /\ forall src,
       old = Some src -> df_empty src = false ->
       let cols :=
         columns src ++ List.filter (fun c => negb (has_column src c)) (columns new) in
       columns res = cols
       /\ exists top bottom,
            rows res = top ++ bottom
            /\ laid_out cols (columns src) (rows src) top
            /\ laid_out cols (columns new) (rows new) bottom
            /\ (unconverted [src; new] ->
                top = map (realign cols (columns src)) (rows src)
                /\ bottom = map (realign cols (columns new)) (rows new)).

(** The list [res] is [old] followed by the paths of [paths] that [old]
    does not have, each once. *)
Definition recorded (old paths res : list ustring) : Prop :=
  exists more,
    res = old ++ more /\ NoDup more
    /\ forall p, In p more <-> In p paths /\ ~ In p old.

Section FilledNotions.
Context {RT : PyRuntime}.

(** The text [v] is the trimmed text of some cell of the table, and not
    one of the markers of a missing value. *)
Definition filled_value (df : DataFrame) (v : ustring) : Prop :=
  DataEngine.null_marker v = false
  /\ exists col r,
       In col (columns df) /\ In r (rows df)
       /\ v = strip (py_str (cell_at (columns df) r col)).

(** The key [k] holds such a text. *)
Definition holds_value (df : DataFrame) (e : DataEngine.Engine) (k : ustring) : Prop :=
  exists v, DataEngine.manual_values e !! k = Some v /\ filled_value df v.

End FilledNotions.

(** A pickle of the state directory is absent or can be read. *)
Definition absent_or_pickle (f : option file) : Prop :=
  match f with
  | None | Some (FPickle _) => True
  | Some _ => False
  end.

(** What a buffer is after a save and a load: the table that was saved
    when there was one to save; otherwise the table of the pickle that
    was in the directory before, and what the loading engine had when
    there was no such pickle. *)
Definition restored (saved : option DataFrame) (old : option file)
    (before after : option DataFrame) : Prop :=
  (forall df, saved = Some df -> df_empty df = false -> after = Some df)
  /\ (absent_or_empty saved = true ->
      (forall df, old = Some (FPickle df) -> after = Some df)
      /\ (old = None -> after = before)).

(** The cells of a column of a table, NaN in every row when the table
    has no such column. *)
Definition column_or_nan (df : DataFrame) (c : ustring) : list cell :=
  default (repeat NaN (df_len df)) (getcol df c).

Section ReadNotions.
Context {RT : PyRuntime}.
Variables read_csv read_excel : ustring -> option DataFrame.

(** The files of a list that can be read and hold a table with rows and
    columns, each with its table. *)
Definition files_read (paths : list ustring) : list (ustring * DataFrame) :=
  omap (fun path =>
          match DataEngine._read_any read_csv read_excel path with
          | Some df => if df_empty df then None else Some (path, df)
          | None => None
          end) paths.

End ReadNotions.

Section FormulaRowNotions.
Context {RT : PyRuntime}.

(** The formula a row of a workbook gives: the trimmed texts of its
    cells under the name column and the expression column, when neither
    is empty. *)
Definition row_formula (cols : list ustring) (name_col expr_col : ustring)
    (r : list cell) : option (ustring * ustring) :=
  match strip (py_str (cell_at cols r name_col)),
        strip (py_str (cell_at cols r expr_col)) with
  | (_ :: _) as nm, (_ :: _) as ex => Some (nm, ex)
  | _, _ => None
  end.

End FormulaRowNotions.

(** The expression of the last of the formulas that has the name. *)
Fixpoint last_named (name : ustring) (found : list (ustring * ustring))
  : option ustring :=
  match found with
  | [] => None
  | (n, ex) :: rest =>
      match last_named name rest with
      | Some y => Some y
      | None => if ustr_eqb n name then Some ex else None
      end
  end.

Module SampleFormulas.

(** A workbook with blanks around its texts, a row without a name, a
    number for an expression and a name given twice. *)
Definition text : DataFrame :=
  {| columns := [U "Name"; U "Expr"];
     rows := [ [CStr (U " A "); CStr (U " AMOR + DIS ")];
               [CStr (U "  "); CStr (U "GUG")];
               [CStr (U "B"); CInt 3];
               [CStr (U "A"); CStr (U "ENER")] ] |}.

(** A workbook of numbers: an int64 column and a float64 column. *)
Definition numeric : DataFrame :=
  {| columns := [U "kod"; U "expr"];
     rows := [ [CInt 1; CFloat (FFinite (5 # 2))] ] |}.

End SampleFormulas.

Module SampleAppend.

(** A table of integers and a table that has another column only. *)
Definition counted : DataFrame :=
  {| columns := [U "n"]; rows := [[CInt 1]; [CInt 2]] |}.
Definition named : DataFrame :=
  {| columns := [U "s"]; rows := [[CStr (U "x")]] |}.

End SampleAppend.

(** * Properties *)

(** ** Characters *)

Ltac bool_to_prop :=
  repeat first
    [ rewrite andb_true_iff | rewrite orb_true_iff
    | rewrite andb_false_iff | rewrite orb_false_iff
    | rewrite negb_true_iff | rewrite negb_false_iff
    | rewrite N.leb_le | rewrite N.leb_gt
    | rewrite N.ltb_lt | rewrite N.ltb_ge
    | rewrite N.eqb_eq | rewrite N.eqb_neq ].

Ltac bool_to_prop_in H :=
  repeat first
    [ rewrite andb_true_iff in H | rewrite orb_true_iff in H
    | rewrite andb_false_iff in H | rewrite orb_false_iff in H
    | rewrite negb_true_iff in H | rewrite negb_false_iff in H
    | rewrite N.leb_le in H | rewrite N.leb_gt in H
    | rewrite N.ltb_lt in H | rewrite N.ltb_ge in H
    | rewrite N.eqb_eq in H | rewrite N.eqb_neq in H ].

Ltac char_arith :=
  repeat match goal with
         | H : _ = true |- _ => bool_to_prop_in H; revert H
         | H : _ = false |- _ => bool_to_prop_in H; revert H
         end;
  intros; bool_to_prop; lia.

Lemma az09_not_space c : is_az09 c = true -> isspace c = false.
Proof. unfold is_az09, is_az, is_09, isspace. intros H. char_arith. Qed.

Lemma az09_ascii c : is_az09 c = true -> is_ascii c = true.
Proof. unfold is_az09, is_az, is_09, is_ascii. intros H. char_arith. Qed.

Lemma az09_lower c : is_az09 c = true -> ascii_lower c = c.
Proof.
  unfold ascii_lower. intros H.
  destruct (is_AZ c) eqn:E; [| reflexivity].
  unfold is_az09, is_az, is_09, is_AZ in *. char_arith.
Qed.

Lemma space_is_space : isspace 32 = true.
Proof. reflexivity. Qed.

Lemma turkish_ascii c : is_ascii c = true -> CoreSchema._TURKISH_CHAR_MAP c = c.
Proof.
  unfold is_ascii, CoreSchema._TURKISH_CHAR_MAP. intros H.
  repeat match goal with
         | |- context [if ?b then _ else _] =>
             let E := fresh "E" in destruct b eqn:E; [exfalso; char_arith |]
         end.
  reflexivity.
Qed.

Lemma turkish_cases c :
  CoreSchema._TURKISH_CHAR_MAP c = c
  \/ is_az (CoreSchema._TURKISH_CHAR_MAP c) = true.
Proof.
  unfold CoreSchema._TURKISH_CHAR_MAP.
  repeat match goal with
         | |- context [if ?b then _ else _] =>
             destruct b; [right; reflexivity |]
         end.
  now left.
Qed.

Lemma turkish_not_space c : isspace (CoreSchema._TURKISH_CHAR_MAP c) = isspace c.
Proof.
  unfold CoreSchema._TURKISH_CHAR_MAP.
  repeat match goal with
         | |- context [if ?b then _ else _] =>
             let E := fresh "E" in
             destruct b eqn:E;
             [ symmetry; unfold isspace; char_arith |]
         end.
  reflexivity.
Qed.

(** ** Stripping *)

Lemma lstrip_map (f : N -> N) s :
  (forall c, isspace (f c) = isspace c) -> lstrip (map f s) = map f (lstrip s).
Proof.
  intros Hf. induction s as [|c s IH]; simpl; [reflexivity |].
  rewrite Hf. destruct (isspace c); [exact IH | reflexivity].
Qed.

Lemma rstrip_map (f : N -> N) s :
  (forall c, isspace (f c) = isspace c) -> rstrip (map f s) = map f (rstrip s).
Proof.
  intros Hf. induction s as [|c s IH]; simpl; [reflexivity |].
  rewrite IH, Hf. destruct (rstrip s); simpl; [destruct (isspace c) |]; reflexivity.
Qed.

Lemma strip_map (f : N -> N) s :
  (forall c, isspace (f c) = isspace c) -> strip (map f s) = map f (strip s).
Proof. intros Hf. unfold strip. now rewrite lstrip_map, rstrip_map. Qed.

Lemma lstrip_spaces w : forallb isspace w = true -> lstrip w = [].
Proof.
  induction w as [|c w IH]; simpl; [reflexivity |].
  intros [Hc Hw]%andb_true_iff. rewrite Hc. auto.
Qed.

Lemma rstrip_spaces w : forallb isspace w = true -> rstrip w = [].
Proof.
  induction w as [|c w IH]; simpl; [reflexivity |].
  intros [Hc Hw]%andb_true_iff. rewrite IH, Hc by assumption. reflexivity.
Qed.

Lemma rstrip_app_spaces s w : forallb isspace w = true -> rstrip (s ++ w) = rstrip s.
Proof.
  intros Hw. induction s as [|c s IH]; simpl.
  - now apply rstrip_spaces.
  - now rewrite IH.
Qed.

Lemma strip_app_spaces s w : forallb isspace w = true -> strip (s ++ w) = strip s.
Proof.
  intros Hw. unfold strip. induction s as [|c s IH]; simpl.
  - rewrite lstrip_spaces by assumption. reflexivity.
  - destruct (isspace c); [exact IH |].
    change (c :: s ++ w) with ((c :: s) ++ w). now apply rstrip_app_spaces.
Qed.

Lemma rstrip_idem s : rstrip (rstrip s) = rstrip s.
Proof.
  induction s as [|c s IH]; simpl; [reflexivity |].
  destruct (rstrip s) as [|d r] eqn:E.
  - destruct (isspace c) eqn:Ec; simpl; [reflexivity | now rewrite Ec].
  - simpl in *. now rewrite IH.
Qed.

(** A string splits into leading spaces, its stripped part and trailing
    spaces. *)
Lemma lstrip_split s :
  exists w, s = w ++ lstrip s /\ forallb isspace w = true.
Proof.
  induction s as [|c s (w & Hs & Hw)]; simpl.
  - now exists [].
  - destruct (isspace c) eqn:Ec.
    + exists (c :: w). simpl. rewrite Ec, Hw. split; [now f_equal | reflexivity].
    + now exists [].
Qed.

Lemma rstrip_split s :
  exists w, s = rstrip s ++ w /\ forallb isspace w = true.
Proof.
  induction s as [|c s (w & Hs & Hw)]; simpl.
  - now exists [].
  - destruct (rstrip s) as [|d r] eqn:E.
    + destruct (isspace c) eqn:Ec.
      * exists (c :: w). simpl in *. rewrite Ec, Hw. split; [now f_equal | reflexivity].
      * exists w. simpl in *. split; [now f_equal | assumption].
    + exists w. split; [simpl in *; now f_equal | assumption].
Qed.

Lemma strip_split s :
  exists w1 w2, s = w1 ++ strip s ++ w2
                /\ forallb isspace w1 = true /\ forallb isspace w2 = true.
Proof.
  destruct (lstrip_split s) as (w1 & H1 & Hw1).
  destruct (rstrip_split (lstrip s)) as (w2 & H2 & Hw2).
  exists w1, w2. unfold strip. now rewrite <- H2, <- H1.
Qed.

(** ** Runs *)


Lemma sub_runs_app cls b s t :
  sub_runs cls b (s ++ t) = sub_runs cls b s ++ sub_runs cls (run_after cls b s) t.
Proof.
  revert b. induction s as [|c s IH]; intros b; simpl; [reflexivity |].
  destruct (cls c) eqn:Ec.
  - destruct b; simpl; now rewrite IH.
  - simpl. now rewrite IH.
Qed.

Lemma sub_runs_all cls b w :
  forallb cls w = true -> w <> [] ->
  sub_runs cls b w = (if b then [] else [32]) /\ run_after cls b w = true.
Proof.
  revert b. induction w as [|c w IH]; intros b Hw Hne; [congruence |].
  simpl in Hw. apply andb_true_iff in Hw as [Hc Hw]. simpl. rewrite Hc.
  destruct w as [|d w].
  - destruct b; split; reflexivity.
  - destruct (IH true Hw ltac:(discriminate)) as [E1 E2].
    unfold run_after in *. simpl in *. rewrite E1.
    destruct b; split; auto.
Qed.

(** Any two non-empty runs of the class give the same result. *)
Lemma sub_runs_sep cls b a p q t :
  forallb cls p = true -> forallb cls q = true -> p <> [] -> q <> [] ->
  sub_runs cls b (a ++ p ++ t) = sub_runs cls b (a ++ q ++ t).
Proof.
  intros Hp Hq Np Nq. rewrite !sub_runs_app.
  destruct (sub_runs_all cls (run_after cls b a) p Hp Np) as [-> ->].
  destruct (sub_runs_all cls (run_after cls b a) q Hq Nq) as [-> ->].
  reflexivity.
Qed.

(** ** The shape of a key *)

Lemma tidy_sub_runs b t : tidy b (sub_runs not_az09 b t) = true.
Proof.
  revert b. induction t as [|c t IH]; intros b; simpl; [reflexivity |].
  unfold not_az09 at 1. destruct (is_az09 c) eqn:Ec; simpl.
  - rewrite Ec. apply IH.
  - destruct b; simpl; [apply IH |]. rewrite IH. reflexivity.
Qed.

Lemma tidy_weaken b s : tidy b s = true -> tidy false s = true.
Proof.
  destruct s as [|c s]; simpl; [reflexivity |].
  destruct (is_az09 c); [trivial |].
  intros [[-> _]%andb_true_iff ->]%andb_true_iff. reflexivity.
Qed.

Lemma tidy_sub_spaces b s : tidy b s = true -> sub_runs isspace b s = s.
Proof.
  revert b. induction s as [|c s IH]; intros b; simpl; [reflexivity |].
  destruct (is_az09 c) eqn:Ec.
  - rewrite (az09_not_space c Ec). intros H. now rewrite (IH false H).
  - intros [[Hc Hb]%andb_true_iff H]%andb_true_iff.
    apply N.eqb_eq in Hc. subst c. simpl.
    apply negb_true_iff in Hb. subst b. now rewrite (IH true H).
Qed.

Lemma tidy_sub_not_az09 b s : tidy b s = true -> sub_runs not_az09 b s = s.
Proof.
  revert b. induction s as [|c s IH]; intros b; simpl; [reflexivity |].
  unfold not_az09 at 1. destruct (is_az09 c) eqn:Ec; simpl.
  - intros H. now rewrite (IH false H).
  - intros [[Hc Hb]%andb_true_iff H]%andb_true_iff.
    apply N.eqb_eq in Hc. subst c.
    apply negb_true_iff in Hb. subst b. now rewrite (IH true H).
Qed.

Lemma tidy_lstrip_id s : tidy true s = true -> lstrip s = s.
Proof.
  destruct s as [|c s]; simpl; [reflexivity |].
  destruct (is_az09 c) eqn:Ec.
  - now rewrite (az09_not_space c Ec).
  - rewrite andb_false_r. discriminate.
Qed.

Lemma tidy_lstrip s : tidy false s = true -> tidy true (lstrip s) = true.
Proof.
  destruct s as [|c s]; simpl; [reflexivity |].
  destruct (is_az09 c) eqn:Ec.
  - rewrite (az09_not_space c Ec). simpl. now rewrite Ec.
  - intros [[Hc _]%andb_true_iff H]%andb_true_iff.
    apply N.eqb_eq in Hc. subst c. simpl.
    now rewrite (tidy_lstrip_id s H).
Qed.

Lemma tidy_rstrip b s : tidy b s = true -> tidy b (rstrip s) = true.
Proof.
  revert b. induction s as [|c s IH]; intros b; simpl; [reflexivity |].
  destruct (is_az09 c) eqn:Ec.
  - intros H. specialize (IH false H).
    destruct (rstrip s) as [|d r]; simpl.
    + rewrite (az09_not_space c Ec). simpl. now rewrite Ec.
    + rewrite Ec. exact IH.
  - intros [[Hc Hb]%andb_true_iff H]%andb_true_iff.
    apply N.eqb_eq in Hc. subst c. specialize (IH true H).
    destruct (rstrip s) as [|d r]; simpl; [reflexivity |].
    rewrite Hb. simpl. exact IH.
Qed.

Lemma tidy_chars b s c : tidy b s = true -> In c s -> is_az09 c = true \/ c = 32.
Proof.
  revert b. induction s as [|d s IH]; intros b H []; simpl in H.
  - subst d. destruct (is_az09 c); [now left |].
    apply andb_true_iff in H as [[Hc _]%andb_true_iff _].
    right. now apply N.eqb_eq.
  - destruct (is_az09 d); [eauto |].
    apply andb_true_iff in H as [_ H]. eauto.
Qed.

Lemma key_char_fixed c :
  is_az09 c = true \/ c = 32 ->
  CoreSchema._TURKISH_CHAR_MAP c = c /\ is_ascii c = true /\ ascii_lower c = c.
Proof.
  intros [H | ->]; [| now vm_compute].
  pose proof (az09_ascii c H) as Ha.
  now rewrite (turkish_ascii c Ha), (az09_lower c H).
Qed.


Lemma lower_not_space c : isspace (ascii_lower c) = isspace c.
Proof.
  unfold ascii_lower. destruct (is_AZ c) eqn:E; [| reflexivity].
  unfold is_AZ in E.
  assert (isspace c = false) as -> by (unfold isspace; char_arith).
  unfold isspace; char_arith.
Qed.

Lemma fold_char_space c : isspace (fold_char c) = isspace c.
Proof. unfold fold_char. now rewrite lower_not_space, turkish_not_space. Qed.

Lemma separator_not_az09 c : is_separator c = true -> not_az09 c = true.
Proof.
  unfold is_separator, not_az09, ascii_isalnum, is_az09.
  intros [_ H]%andb_true_iff. apply negb_true_iff in H. apply negb_true_iff.
  destruct (is_az c), (is_09 c), (is_AZ c); simpl in *; congruence.
Qed.

Lemma ascii_space_separator c :
  isspace c = true -> is_ascii c = true -> is_separator c = true.
Proof.
  unfold is_separator, ascii_isalnum, is_az, is_AZ, is_09, is_ascii, isspace.
  intros H1 H2. char_arith.
Qed.

Section NormalizeFacts.
Context {RT : PyRuntime}.
Import CoreSchema.

Lemma key_chars_flat s :
  map ascii_lower (encode_ascii_ignore (nfkd (translate s))) = flat_map key_chars s.
Proof.
  unfold encode_ascii_ignore, nfkd, translate.
  induction s as [|c s IH]; simpl; [reflexivity |].
  rewrite List.filter_app, map_app, IH. reflexivity.
Qed.

Lemma normalize_str_squeeze s :
  normalize_str s = squeeze (flat_map key_chars (strip s)).
Proof.
  unfold normalize_str, squeeze. rewrite key_chars_flat.
  now rewrite (tidy_sub_spaces false _ (tidy_sub_runs false _)).
Qed.

Lemma key_chars_fixed c : is_az09 c = true \/ c = 32 -> key_chars c = [c].
Proof.
  intros H. destruct (key_char_fixed c H) as (Ht & Ha & Hl).
  unfold key_chars. rewrite Ht. simpl. rewrite Ha. simpl. rewrite Ha. simpl.
  now rewrite Hl.
Qed.

Lemma key_chars_separator c : is_separator c = true -> key_chars c = [c].
Proof.
  intros H. unfold is_separator in H. apply andb_true_iff in H as [Ha Hn].
  unfold key_chars. rewrite (turkish_ascii c Ha). simpl. rewrite Ha. simpl. rewrite Ha.
  simpl. f_equal. unfold ascii_lower. destruct (is_AZ c) eqn:E; [| reflexivity].
  unfold ascii_isalnum in Hn. rewrite E, orb_true_r in Hn. discriminate.
Qed.

Lemma key_chars_fold c : key_chars (fold_char c) = key_chars c.
Proof.
  unfold fold_char. destruct (turkish_cases c) as [E | E].
  - rewrite E. unfold ascii_lower. destruct (is_AZ c) eqn:Ec; [| reflexivity].
    assert (Ha : is_ascii c = true) by (unfold is_AZ, is_ascii in *; char_arith).
    assert (Ha' : is_ascii (c + 32) = true) by (unfold is_AZ, is_ascii in *; char_arith).
    unfold key_chars. rewrite (turkish_ascii _ Ha), (turkish_ascii _ Ha').
    simpl. rewrite Ha, Ha'. simpl. rewrite Ha, Ha'. simpl. f_equal.
    unfold ascii_lower. rewrite Ec.
    assert (is_AZ (c + 32) = false) as -> by (unfold is_AZ in *; char_arith).
    reflexivity.
  - set (d := _TURKISH_CHAR_MAP c) in *.
    assert (Hd : ascii_lower d = d).
    { unfold ascii_lower. destruct (is_AZ d) eqn:Ed; [| reflexivity].
      unfold is_AZ, is_az in *. char_arith. }
    rewrite Hd. unfold key_chars. fold d.
    assert (Ha : is_ascii d = true) by (unfold is_az, is_ascii in *; char_arith).
    now rewrite (turkish_ascii d Ha).
Qed.

Lemma flat_map_fixed (f : N -> ustring) s :
  (forall c, In c s -> f c = [c]) -> flat_map f s = s.
Proof.
  induction s as [|c s IH]; intros H; simpl; [reflexivity |].
  rewrite (H c) by now left. simpl. f_equal. apply IH. intros; apply H. now right.
Qed.

(** *** Idempotence *)

Lemma squeeze_key s : tidy true (squeeze s) = true /\ strip (squeeze s) = squeeze s.
Proof.
  unfold squeeze, strip.
  pose proof (tidy_rstrip _ _ (tidy_lstrip _ (tidy_sub_runs false s))) as Ht.
  split; [exact Ht |].
  rewrite (tidy_lstrip_id _ Ht). apply rstrip_idem.
Qed.

Lemma normalize_str_idem x : normalize_str (normalize_str x) = normalize_str x.
Proof.
  rewrite (normalize_str_squeeze x).
  set (k := squeeze _). destruct (squeeze_key (flat_map key_chars (strip x))) as [Ht Hs].
  fold k in Ht, Hs.
  rewrite normalize_str_squeeze, Hs.
  rewrite flat_map_fixed
    by (intros c Hc; apply key_chars_fixed; exact (tidy_chars _ _ _ Ht Hc)).
  unfold squeeze at 1.
  now rewrite (tidy_sub_not_az09 false k (tidy_weaken _ _ Ht)).
Qed.

(** *** Case and Turkish letters *)

Lemma normalize_str_fold x : normalize_str (map fold_char x) = normalize_str x.
Proof.
  rewrite !normalize_str_squeeze. rewrite (strip_map _ _ fold_char_space).
  f_equal. induction (strip x) as [|c s IH]; simpl; [reflexivity |].
  now rewrite key_chars_fold, IH.
Qed.

(** *** Separators *)

Lemma lstrip_sub_runs_flag t :
  lstrip (sub_runs not_az09 true t) = lstrip (sub_runs not_az09 false t).
Proof. destruct t as [|c t]; simpl; [reflexivity |]. now destruct (not_az09 c). Qed.

Lemma squeeze_sep_l w t : forallb not_az09 w = true -> squeeze (w ++ t) = squeeze t.
Proof.
  intros Hw. destruct w as [|c w]; [reflexivity |].
  unfold squeeze. rewrite sub_runs_app.
  destruct (sub_runs_all not_az09 false (c :: w) Hw ltac:(discriminate)) as [-> ->].
  unfold strip. simpl. now rewrite lstrip_sub_runs_flag.
Qed.

Lemma squeeze_sep_r w t : forallb not_az09 w = true -> squeeze (t ++ w) = squeeze t.
Proof.
  intros Hw. unfold squeeze. rewrite sub_runs_app.
  destruct w as [|c w]; [now rewrite app_nil_r |].
  destruct (sub_runs_all not_az09 (run_after not_az09 false t) (c :: w) Hw
              ltac:(discriminate)) as [-> _].
  destruct (run_after _ _ _); [now rewrite app_nil_r |].
  now apply strip_app_spaces.
Qed.

Lemma spaces_separators w s :
  forallb isspace w = true -> incl w s ->
  Forall (fun c => isspace c = true -> is_ascii c = true) s ->
  forallb is_separator w = true.
Proof.
  intros Hw Hi Hs. apply forallb_forall. intros c Hc.
  rewrite forallb_forall in Hw. rewrite Forall_forall in Hs.
  apply ascii_space_separator; [now apply Hw |].
  apply Hs; [| now apply Hw]. apply list_elem_of_In. now apply Hi.
Qed.

Lemma separators_fixed w :
  forallb is_separator w = true ->
  flat_map key_chars w = w /\ forallb not_az09 w = true.
Proof.
  intros Hw. rewrite forallb_forall in Hw. split.
  - apply flat_map_fixed. intros c Hc. now apply key_chars_separator, Hw.
  - apply forallb_forall. intros c Hc. now apply separator_not_az09, Hw.
Qed.

(** Where every space of the string is an ASCII one, the first strip of
    [normalize] changes nothing in the key. *)
Lemma normalize_str_unstripped s :
  Forall (fun c => isspace c = true -> is_ascii c = true) s ->
  normalize_str s = squeeze (flat_map key_chars s).
Proof.
  intros Hs. rewrite normalize_str_squeeze.
  destruct (strip_split s) as (w1 & w2 & E & H1 & H2).
  rewrite E at 2. rewrite !flat_map_app.
  assert (I1 : incl w1 s) by (rewrite E; apply incl_appl, incl_refl).
  assert (I2 : incl w2 s) by (rewrite E; apply incl_appr, incl_appr, incl_refl).
  destruct (separators_fixed w1 (spaces_separators w1 s H1 I1 Hs)) as [-> F1].
  destruct (separators_fixed w2 (spaces_separators w2 s H2 I2 Hs)) as [-> F2].
  now rewrite (squeeze_sep_l _ _ F1), (squeeze_sep_r _ _ F2).
Qed.

Lemma normalize_str_separators a p q b :
  p <> [] -> q <> [] ->
  forallb is_separator p = true -> forallb is_separator q = true ->
  Forall (fun c => isspace c = true -> is_ascii c = true) (a ++ b) ->
  normalize_str (a ++ p ++ b) = normalize_str (a ++ q ++ b).
Proof.
  intros Np Nq Hp Hq Hab.
  assert (Hall : forall r, forallb is_separator r = true ->
            Forall (fun c => isspace c = true -> is_ascii c = true) (a ++ r ++ b)).
  { intros r Hr. apply Forall_app in Hab as [Ha Hb].
    apply Forall_app; split; [assumption |]. apply Forall_app; split; [| assumption].
    apply Forall_forall. intros c Hc _. rewrite forallb_forall in Hr.
    apply list_elem_of_In in Hc. apply Hr in Hc. unfold is_separator in Hc.
    now apply andb_true_iff in Hc as [? _]. }
  rewrite !normalize_str_unstripped by auto.
  rewrite !flat_map_app.
  destruct (separators_fixed p Hp) as [-> Fp].
  destruct (separators_fixed q Hq) as [-> Fq].
  unfold squeeze. f_equal. now apply sub_runs_sep.
Qed.

End NormalizeFacts.

(** ** The text normalizer *)

(** C9.  [normalize] is idempotent; two strings that differ only in the
    case of ASCII letters and in the letters of the Turkish folding table
    have the same key, and so have two strings that differ only in which
    non-empty run of ASCII punctuation or spacing separates two parts
    (the spaces of the parts being ASCII ones); the keys of "İş Yeri" and
    "is yeri" are equal; and the function is total, the key of [None]
    being the empty string. *)
Theorem normalize_idempotent_insensitive_total {RT : PyRuntime} :
  (forall x : option ustring,
      CoreSchema.normalize (Some (CoreSchema.normalize x)) = CoreSchema.normalize x)
  /\ (forall x y : ustring,
         map fold_char x = map fold_char y ->
         CoreSchema.normalize (Some x) = CoreSchema.normalize (Some y))
  /\ (forall a p q b : ustring,
         p <> [] -> q <> [] ->
         forallb is_separator p = true -> forallb is_separator q = true ->
         Forall (fun c => isspace c = true -> is_ascii c = true) (a ++ b) ->
         CoreSchema.normalize (Some (a ++ p ++ b))
         = CoreSchema.normalize (Some (a ++ q ++ b)))
  /\ CoreSchema.normalize (Some (U "İş Yeri")) = CoreSchema.normalize (Some (U "is yeri"))
  /\ CoreSchema.normalize None = [].
Proof.
  split; [| split; [| split; [| split; [| reflexivity]]]].
  - intros [x |]; simpl; [apply normalize_str_idem | reflexivity].
  - intros x y E. simpl.
    now rewrite <- (normalize_str_fold x), <- (normalize_str_fold y), E.
  - intros a p q b. simpl. apply normalize_str_separators.
  - simpl.
    rewrite <- (normalize_str_fold (U "İş Yeri")), <- (normalize_str_fold (U "is yeri")).
    reflexivity.
Qed.

Lemma normalize_idempotent_insensitive_total_witness :
  @CoreSchema.normalize ascii_only (Some (U "Plant CODE"))
  = @CoreSchema.normalize ascii_only (Some (U "plant code"))
  /\ @CoreSchema.normalize ascii_only (Some (U "plant" ++ U "_-" ++ U "code"))
     = @CoreSchema.normalize ascii_only (Some (U "plant" ++ U " " ++ U "code")).
Proof.
  destruct (@normalize_idempotent_insensitive_total ascii_only) as (_ & Hcase & Hsep & _).
  split.
  - apply Hcase. reflexivity.
  - apply Hsep; try discriminate; try reflexivity.
    repeat constructor; discriminate.
Defined.

(** ** Dictionaries *)

Lemma ustr_eqb_eq a b : ustr_eqb a b = true <-> a = b.
Proof. unfold ustr_eqb. apply bool_decide_eq_true. Qed.

Lemma ustr_eqb_neq a b : ustr_eqb a b = false <-> a <> b.
Proof. unfold ustr_eqb. apply bool_decide_eq_false. Qed.

Lemma ustr_eqb_refl a : ustr_eqb a a = true.
Proof. now apply ustr_eqb_eq. Qed.

Section DictFacts.
Context {V : Type}.
Implicit Types (d : dict V) (k : ustring) (v : V).

Lemma dict_get_set_eq d k v : dict_get (dict_set d k v) k = Some v.
Proof.
  induction d as [|[k' v'] d IH]; simpl.
  - now rewrite ustr_eqb_refl.
  - destruct (ustr_eqb k' k) eqn:E; simpl; now rewrite E.
Qed.

Lemma dict_get_set_ne d k k' v :
  k <> k' -> dict_get (dict_set d k v) k' = dict_get d k'.
Proof.
  intros Hne. pose proof (proj2 (ustr_eqb_neq k k') Hne) as Hf.
  induction d as [|[k0 v0] d IH]; simpl.
  - now rewrite Hf.
  - destruct (ustr_eqb k0 k) eqn:E; simpl.
    + apply ustr_eqb_eq in E. subst k0. now rewrite Hf.
    + now rewrite IH.
Qed.

Lemma dict_get_set d k k' v :
  dict_get (dict_set d k v) k' = if ustr_eqb k k' then Some v else dict_get d k'.
Proof.
  destruct (ustr_eqb k k') eqn:E.
  - apply ustr_eqb_eq in E. subst. apply dict_get_set_eq.
  - apply ustr_eqb_neq in E. now apply dict_get_set_ne.
Qed.

Lemma dict_keys_set d k v :
  dict_keys (dict_set d k v)
  = if dict_has d k then dict_keys d else dict_keys d ++ [k].
Proof.
  unfold dict_has, dict_keys. induction d as [|[k' v'] d IH]; simpl; [reflexivity |].
  destruct (ustr_eqb k' k) eqn:E; simpl; [reflexivity |].
  rewrite IH. now destruct (dict_get d k).
Qed.

End DictFacts.

(** A dictionary comprehension keeps, for each key, the last element that
    has it. *)
Lemma dict_comprehension_get_from (key : ustring -> ustring) xs d0 k :
  dict_get (foldl (fun d x => dict_set d (key x) x) d0 xs) k
  = match last_such (fun x => ustr_eqb (key x) k) xs with
    | Some x => Some x
    | None => dict_get d0 k
    end.
Proof.
  revert d0. induction xs as [|x xs IH]; intros d0; simpl; [reflexivity |].
  rewrite IH. destruct (last_such _ xs); [reflexivity |].
  rewrite dict_get_set. now destruct (ustr_eqb (key x) k).
Qed.

Lemma dict_comprehension_get key xs k :
  dict_get (dict_comprehension key xs) k
  = last_such (fun x => ustr_eqb (key x) k) xs.
Proof.
  unfold dict_comprehension. rewrite dict_comprehension_get_from.
  now destruct (last_such _ xs).
Qed.

Lemma last_such_some p xs x : last_such p xs = Some x -> In x xs /\ p x = true.
Proof.
  induction xs as [|y xs IH]; simpl; [discriminate |].
  destruct (last_such p xs) as [z|].
  - intros [= ->]. destruct (IH eq_refl). auto.
  - destruct (p y) eqn:E; [| discriminate]. intros [= ->]. auto.
Qed.

Lemma last_such_none p xs : last_such p xs = None -> forall x, In x xs -> p x = false.
Proof.
  induction xs as [|y xs IH]; simpl; [intros _ x [] |].
  destruct (last_such p xs) as [z|]; [discriminate |].
  destruct (p y) eqn:E; [discriminate |].
  intros _ x [<- | Hx]; auto.
Qed.

Lemma last_such_exists p xs x :
  In x xs -> p x = true -> exists y, last_such p xs = Some y.
Proof.
  intros Hx Hp. destruct (last_such p xs) as [y|] eqn:E; [eauto |].
  rewrite (last_such_none p xs E x Hx) in Hp. discriminate.
Qed.

(** ** The column mapper *)

Section MapperFacts.
Context {RT : PyRuntime}.
Variable get_close_matches : ustring -> list ustring -> list ustring.
Import CoreSchema.

Lemma norm_headers_map_get headers k :
  dict_get (dict_comprehension (fun h => normalize (Some h)) headers) k
  = last_such (has_key k) headers.
Proof. apply dict_comprehension_get. Qed.

Lemma exact_pass_app before c after m :
  (forall c', In c' before -> dict_get m c' = None) ->
  exact_pass (before ++ c :: after) m
  = match dict_get m c with
    | Some h => Some h
    | None => exact_pass after m
    end.
Proof.
  intros Hb. induction before as [|b before IH]; simpl; [reflexivity |].
  rewrite (Hb b) by now left. apply IH. intros; apply Hb. now right.
Qed.

Lemma exact_pass_found cands m c :
  In c cands -> dict_has m c = true ->
  exists c' h, In c' cands /\ dict_get m c' = Some h /\ exact_pass cands m = Some h.
Proof.
  unfold dict_has. induction cands as [|d cands IH]; intros []; simpl.
  - subst d. destruct (dict_get m c) as [h|] eqn:E; [| discriminate].
    intros _. exists c, h. auto.
  - intros Hc. destruct (dict_get m d) as [h|] eqn:E.
    + exists d, h. auto.
    + destruct (IH H Hc) as (c' & h & ? & ? & ?). exists c', h. auto.
Qed.

(** The mapping holds, for each field of the schema, what the loop body
    found for it. *)
Lemma mapping_other (f : ustring -> FieldMeta -> option ustring) schema m0 k :
  ~ In k (dict_keys schema) ->
  dict_get (foldl (fun mapping '(canonical, meta) =>
                     dict_set mapping canonical (f canonical meta)) m0 schema) k
  = dict_get m0 k.
Proof.
  revert m0. induction schema as [|[c mt] schema IH]; intros m0 Hk; simpl; [reflexivity |].
  simpl in Hk. rewrite IH by tauto. apply dict_get_set_ne. tauto.
Qed.

Lemma mapping_field (f : ustring -> FieldMeta -> option ustring) schema m0 canonical meta :
  NoDup (dict_keys schema) -> In (canonical, meta) schema ->
  dict_get (foldl (fun mapping '(canonical, meta) =>
                     dict_set mapping canonical (f canonical meta)) m0 schema)
           canonical
  = Some (f canonical meta).
Proof.
  revert m0. induction schema as [|[c mt] schema IH]; intros m0 Hnd []; simpl.
  - injection H as -> ->. apply NoDup_cons in Hnd as [Hc _].
    rewrite mapping_other by (rewrite <- list_elem_of_In; exact Hc).
    apply dict_get_set_eq.
  - apply NoDup_cons in Hnd as [_ Hnd]. now apply IH.
Qed.

Lemma suggest_mapping_field schema headers canonical meta :
  NoDup (dict_keys schema) -> In (canonical, meta) schema ->
  dict_get (suggest_mapping get_close_matches schema headers) canonical
  = Some (fst (suggest_field get_close_matches
                 (dict_comprehension (fun h => normalize (Some h)) headers)
                 canonical meta)).
Proof.
  intros Hnd Hin. unfold suggest_mapping.
  exact (mapping_field
           (fun canonical meta =>
              fst (suggest_field get_close_matches _ canonical meta))
           schema [] canonical meta Hnd Hin).
Qed.

Lemma suggest_field_first_matching headers canonical meta c :
  first_matching (cand_norm_of canonical meta) headers c ->
  suggest_field get_close_matches
    (dict_comprehension (fun h => normalize (Some h)) headers) canonical meta
  = (last_such (has_key c) headers, []).
Proof.
  intros (before & after & Hc & Hb & h & Hh & Hk).
  unfold suggest_field. fold (cand_norm_of canonical meta). rewrite Hc.
  rewrite exact_pass_app.
  - rewrite norm_headers_map_get.
    destruct (last_such_exists _ _ _ Hh Hk) as [y ->]. reflexivity.
  - intros c' Hc'. rewrite norm_headers_map_get.
    destruct (last_such (has_key c') headers) as [y|] eqn:E; [| reflexivity].
    apply last_such_some in E as [Hy Ey]. now rewrite (Hb c' y Hc' Hy) in Ey.
Qed.

End MapperFacts.

(** C3, as the specification states it, fails: with the headers "Plant"
    and "plant" the field [is_yeri_kodu] is mapped to "plant", the later
    of the two. *)
Lemma suggest_mapping_not_first_seen : ~ first_seen_wins.
Proof.
  intros H.
  specialize (H ascii_only (fun _ _ => []) CoreSchema.DEFAULT_SCHEMA
                [U "Plant"; U "plant"] (U "is_yeri_kodu")
                {| CoreSchema.label := Some (U "İş Yeri Kodu");
                   CoreSchema.synonyms :=
                     [U "is yeri"; U "iş yeri"; U "plant"; U "site";
                      U "plant code"; U "işyeri"; U "isyeri"] |}
                (U "plant") (U "Plant")).
  assert (E : dict_get
                (@CoreSchema.suggest_mapping ascii_only (fun _ _ => [])
                   CoreSchema.DEFAULT_SCHEMA [U "Plant"; U "plant"])
                (U "is_yeri_kodu") = Some (Some (U "plant")))
    by (vm_compute; reflexivity).
  rewrite E in H. discriminate H.
  - vm_compute. repeat constructor; intros Hin;
      repeat (apply list_elem_of_In in Hin; destruct Hin as [Hin | Hin];
              [discriminate Hin | apply list_elem_of_In in Hin]);
      try (apply list_elem_of_In in Hin; destruct Hin).
  - left. reflexivity.
  - exists [U "is yeri kodu"; U "is yeri"; U "is yeri"],
      [U "site"; U "plant code"; U "isyeri"; U "isyeri"].
    split; [vm_compute; reflexivity |]. split.
    + intros c' h Hc Hh.
      destruct Hh as [<- | [<- | []]];
        destruct Hc as [<- | [<- | [<- | []]]]; vm_compute; reflexivity.
    + exists (U "plant"). split; [right; left; reflexivity | vm_compute; reflexivity].
  - vm_compute. reflexivity.
Qed.

(** C3, amended.  The lookup built from the headers holds, for each
    normalized key, the last header of the input sequence that has it;
    and when [c] is the first candidate of a canonical field that is the
    normalized form of some header, the mapping assigns to the field the
    last header whose normalized form is [c]. *)
Theorem suggest_mapping_last_seen_wins {RT : PyRuntime}
    (get_close_matches : ustring -> list ustring -> list ustring)
    (schema : dict CoreSchema.FieldMeta) (headers : list ustring)
    (canonical : ustring) (meta : CoreSchema.FieldMeta) (c : ustring) :
  NoDup (dict_keys schema) ->
  In (canonical, meta) schema ->
  first_matching (cand_norm_of canonical meta) headers c ->
  (forall k,
      dict_get (dict_comprehension (fun h => CoreSchema.normalize (Some h)) headers) k
      = last_such (has_key k) headers)
  /\ exists h,
      last_such (has_key c) headers = Some h
      /\ dict_get (CoreSchema.suggest_mapping get_close_matches schema headers) canonical
         = Some (Some h).
Proof.
  intros Hnd Hin Hfm. split; [apply norm_headers_map_get |].
  rewrite (suggest_mapping_field _ _ _ _ _ Hnd Hin).
  rewrite (suggest_field_first_matching _ _ _ _ _ Hfm). simpl.
  destruct Hfm as (_ & _ & _ & _ & h & Hh & Hk).
  destruct (last_such_exists _ _ _ Hh Hk) as [y Hy].
  exists y. split; [exact Hy | now rewrite Hy].
Qed.

Lemma suggest_mapping_last_seen_wins_witness :
  exists h,
    last_such (@has_key ascii_only (U "plant")) [U "Plant"; U "plant"] = Some h
    /\ dict_get (@CoreSchema.suggest_mapping ascii_only (fun _ _ => [])
                   [(U "is_yeri_kodu",
                     {| CoreSchema.label := None; CoreSchema.synonyms := [U "plant"] |})]
                   [U "Plant"; U "plant"])
                (U "is_yeri_kodu")
       = Some (Some h).
Proof.
  refine (proj2 (@suggest_mapping_last_seen_wins ascii_only (fun _ _ => [])
                   [(U "is_yeri_kodu",
                     {| CoreSchema.label := None; CoreSchema.synonyms := [U "plant"] |})]
                   [U "Plant"; U "plant"] (U "is_yeri_kodu")
                   {| CoreSchema.label := None; CoreSchema.synonyms := [U "plant"] |}
                   (U "plant") _ _ _)).
  - repeat constructor. intros H. apply list_elem_of_In in H. destruct H.
  - left. reflexivity.
  - exists [U "is yeri kodu"], []. split; [reflexivity |]. split.
    + intros c' h [<- | []] [<- | [<- | []]]; reflexivity.
    + exists (U "plant"). split; [right; left; reflexivity | reflexivity].
Defined.

(** C7.  When some candidate of a canonical field (its key or one of its
    synonyms) and some observed header have the same normalized form, the
    field is mapped to an observed header whose normalized form is that
    of a candidate, and [get_close_matches] is not called for the field
    at all. *)
Theorem exact_match_precedes_fuzzy {RT : PyRuntime}
    (get_close_matches : ustring -> list ustring -> list ustring)
    (schema : dict CoreSchema.FieldMeta) (headers : list ustring)
    (canonical : ustring) (meta : CoreSchema.FieldMeta) (cand h : ustring) :
  NoDup (dict_keys schema) ->
  In (canonical, meta) schema ->
  In cand (canonical :: CoreSchema.synonyms meta) ->
  In h headers ->
  CoreSchema.normalize (Some cand) = CoreSchema.normalize (Some h) ->
  (exists cand' h',
      In cand' (canonical :: CoreSchema.synonyms meta)
      /\ In h' headers
      /\ CoreSchema.normalize (Some cand') = CoreSchema.normalize (Some h')
      /\ dict_get (CoreSchema.suggest_mapping get_close_matches schema headers) canonical
         = Some (Some h'))
  /\ CoreSchema.fuzzy_consulted get_close_matches headers canonical meta = [].
Proof.
  intros Hnd Hin Hcand Hh Heq.
  rewrite (suggest_mapping_field _ _ _ _ _ Hnd Hin).
  unfold CoreSchema.fuzzy_consulted, CoreSchema.suggest_field.
  set (m := dict_comprehension _ headers).
  set (cn := map _ (canonical :: CoreSchema.synonyms meta)).
  assert (Hc : In (CoreSchema.normalize (Some cand)) cn)     by (apply (in_map (fun x => CoreSchema.normalize (Some x))); exact Hcand).
  assert (Hm : dict_has m (CoreSchema.normalize (Some cand)) = true).
  { unfold dict_has, m. rewrite norm_headers_map_get.
    destruct (last_such_exists (has_key (CoreSchema.normalize (Some cand))) headers h Hh)
      as [y ->]; [| reflexivity].
    unfold has_key. apply ustr_eqb_eq. now rewrite Heq. }
  destruct (exact_pass_found cn m _ Hc Hm) as (c' & h' & Hc' & Hg & ->).
  split; [| reflexivity]. simpl.
  unfold m in Hg. rewrite norm_headers_map_get in Hg.
  apply last_such_some in Hg as [Hh' Hk]. apply ustr_eqb_eq in Hk.
  apply in_map_iff in Hc' as (cand' & <- & Hcand').
  exists cand', h'. auto.
Qed.

Lemma exact_match_precedes_fuzzy_witness :
  (exists cand' h',
      In cand' [U "is_yeri_kodu"; U "plant"]
      /\ In h' [U "plan"; U "PLANT"]
      /\ @CoreSchema.normalize ascii_only (Some cand')
         = @CoreSchema.normalize ascii_only (Some h')
      /\ dict_get (@CoreSchema.suggest_mapping ascii_only (fun _ _ => [U "plant"])
                     [(U "is_yeri_kodu",
                       {| CoreSchema.label := None; CoreSchema.synonyms := [U "plant"] |})]
                     [U "plan"; U "PLANT"])
                  (U "is_yeri_kodu")
         = Some (Some h'))
  /\ @CoreSchema.fuzzy_consulted ascii_only (fun _ _ => [U "plant"])
       [U "plan"; U "PLANT"] (U "is_yeri_kodu")
       {| CoreSchema.label := None; CoreSchema.synonyms := [U "plant"] |} = [].
Proof.
  apply (@exact_match_precedes_fuzzy ascii_only (fun _ _ => [U "plant"])
           [(U "is_yeri_kodu",
             {| CoreSchema.label := None; CoreSchema.synonyms := [U "plant"] |})]
           [U "plan"; U "PLANT"] (U "is_yeri_kodu")
           {| CoreSchema.label := None; CoreSchema.synonyms := [U "plant"] |}
           (U "plant") (U "PLANT")).
  - repeat constructor. intros H. apply list_elem_of_In in H. destruct H.
  - left. reflexivity.
  - right. left. reflexivity.
  - right. left. reflexivity.
  - reflexivity.
Defined.

(** ** Numeric coercion *)

(** C2.  On "1,234.56", where the dot is the rightmost of the two
    separators, [_to_float] gives 0.0: the comma is replaced by a dot and
    "1.234.56" is not a number.  The Turkish form "1.234,56" and the plain
    "1234.56" give 1234.56, the empty string gives 0.0. *)
Theorem to_float_comma_thousands_is_zero {RT : PyRuntime} :
  CostComponents._to_float (CStr (U "1,234.56")) = FFinite 0
  /\ CostComponents._to_float (CStr (U "1.234,56")) = FFinite (30864 # 25)
  /\ CostComponents._to_float (CStr (U "1234.56")) = FFinite (30864 # 25)
  /\ CostComponents._to_float (CStr []) = FFinite 0.
Proof. repeat split; reflexivity. Qed.

(** ** Tables *)

Lemma index_of_lookup c cols i : index_of c cols = Some i -> cols !! i = Some c.
Proof.
  revert i. induction cols as [|d cols IH]; intros i; simpl; [discriminate |].
  destruct (ustr_eqb d c) eqn:E.
  - intros [= <-]. apply ustr_eqb_eq in E. now subst.
  - destruct (index_of c cols) as [j|]; simpl; [| discriminate].
    intros [= <-]. simpl. now apply IH.
Qed.

Lemma index_of_none c cols : index_of c cols = None <-> ~ In c cols.
Proof.
  induction cols as [|d cols IH]; simpl; [tauto |].
  destruct (ustr_eqb d c) eqn:E.
  - apply ustr_eqb_eq in E. split; [discriminate | tauto].
  - apply ustr_eqb_neq in E. destruct (index_of c cols) as [j|] eqn:Ej; simpl.
    + split; [discriminate |]. intros H. exfalso. apply H. right.
      apply index_of_lookup in Ej. apply list_elem_of_In.
      eapply list_elem_of_lookup_2. exact Ej.
    + split; [| reflexivity]. intros _ [? | ?]; [congruence |]. now apply IH.
Qed.

Lemma has_column_In df c : has_column df c = true <-> In c (columns df).
Proof.
  unfold has_column. destruct (index_of c (columns df)) as [i|] eqn:E.
  - split; [| reflexivity]. intros _. apply index_of_lookup in E.
    apply list_elem_of_In. eapply list_elem_of_lookup_2. exact E.
  - split; [discriminate |]. intros H. now apply index_of_none in E.
Qed.

Lemma index_of_app_other c d cols : c <> d -> index_of c (cols ++ [d]) = index_of c cols.
Proof.
  intros Hne. induction cols as [|e cols IH]; simpl.
  - assert (ustr_eqb d c = false) as -> by (apply ustr_eqb_neq; congruence). reflexivity.
  - now rewrite IH.
Qed.

Lemma set_nth_other {A} (i j : nat) (x pad : A) (r : list A) :
  i <> j -> default pad (set_nth j x pad r !! i) = default pad (r !! i).
Proof.
  revert i r. induction j as [|j IH]; intros i r Hne.
  - destruct i as [|i]; [congruence |]. destruct r; simpl; [| reflexivity].
    now destruct i.
  - destruct i as [|i], r as [|y r]; simpl; try reflexivity.
    + rewrite IH by lia. now destruct i.
    + apply IH. lia.
Qed.

Lemma map_number_rows {A B} (f f' : list A -> B) (g : nat * list A -> list A) k rws :
  (forall i r, f (g (i, r)) = f' r) ->
  map f (map g (number_rows k rws)) = map f' rws.
Proof.
  intros H. revert k. induction rws as [|r rws IH]; intros k; simpl; [reflexivity |].
  now rewrite H, IH.
Qed.

Lemma length_number_rows {A} k (l : list A) : length (number_rows k l) = length l.
Proof. revert k. induction l; intros k; simpl; [reflexivity |]. now rewrite IHl. Qed.

Lemma setitem_columns df name v :
  columns (df_setitem df name v)
  = if has_column df name then columns df else columns df ++ [name].
Proof. unfold df_setitem, has_column. now destruct (index_of name (columns df)). Qed.

Lemma setitem_len df name v : df_len (df_setitem df name v) = df_len df.
Proof.
  unfold df_setitem, df_len.
  destruct (index_of name (columns df)); simpl;
    now rewrite length_map, length_number_rows.
Qed.

(** Assigning a column leaves every other column as it is. *)
Lemma setitem_getcol_other df name v c :
  c <> name -> getcol (df_setitem df name v) c = getcol df c.
Proof.
  intros Hne. unfold getcol, has_column, df_setitem.
  destruct (index_of name (columns df)) as [j|] eqn:Ej; simpl.
  - destruct (index_of c (columns df)) as [i|] eqn:Ei; [| reflexivity].
    f_equal. apply map_number_rows. intros k r. unfold cell_at. rewrite Ei.
    apply set_nth_other. intros ->.
    apply index_of_lookup in Ei, Ej. congruence.
  - rewrite (index_of_app_other c name _ Hne).
    destruct (index_of c (columns df)) as [i|] eqn:Ei; [| reflexivity].
    f_equal. apply map_number_rows. intros k r. unfold cell_at.
    rewrite (index_of_app_other c name _ Hne), Ei.
    apply set_nth_other. apply index_of_lookup, lookup_lt_Some in Ei. lia.
Qed.

(** ** The formula evaluator *)

Section FormulaFacts.
Context {RT : PyRuntime}.
Variable py_eval : ustring -> dict pyvalue -> option pyvalue.
Import CostComponents.

Lemma apply_formula_columns out name expr :
  exists new,
    columns (apply_formula py_eval out name expr) = columns out ++ new
    /\ forall c, In c new -> c = name.
Proof.
  assert (Hsame : exists new, columns out = columns out ++ new
                              /\ forall c, In c new -> c = name)
    by (exists []; split; [now rewrite app_nil_r | intros c []]).
  unfold apply_formula. destruct expr as [expr|]; [| exact Hsame].
  destruct (expr_allowed expr); [| exact Hsame].
  destruct (py_eval expr (local_env out)) as [v|]; [| exact Hsame].
  rewrite setitem_columns. destruct (has_column out name); [exact Hsame |].
  exists [name]. split; [reflexivity |]. now intros c [<- | []].
Qed.

Lemma apply_formula_getcol out name expr c :
  c <> name -> getcol (apply_formula py_eval out name expr) c = getcol out c.
Proof.
  intros Hne. unfold apply_formula. destruct expr as [expr|]; [| reflexivity].
  destruct (expr_allowed expr); [| reflexivity].
  destruct (py_eval expr (local_env out)); [| reflexivity].
  now apply setitem_getcol_other.
Qed.

Lemma apply_formula_len out name expr :
  df_len (apply_formula py_eval out name expr) = df_len out.
Proof.
  unfold apply_formula. destruct expr as [expr|]; [| reflexivity].
  destruct (expr_allowed expr); [| reflexivity].
  destruct (py_eval expr (local_env out)); [| reflexivity].
  apply setitem_len.
Qed.

Lemma apply_formulas_columns out formulas :
  exists new,
    columns (apply_formulas py_eval out formulas) = columns out ++ new
    /\ forall c, In c new -> In c (dict_keys formulas).
Proof.
  unfold apply_formulas. revert out.
  induction formulas as [|[name expr] formulas IH]; intros out; simpl.
  - exists []. split; [now rewrite app_nil_r | intros c []].
  - destruct (IH (apply_formula py_eval out name expr)) as (new2 & E2 & H2).
    destruct (apply_formula_columns out name expr) as (new1 & E1 & H1).
    exists (new1 ++ new2). rewrite E2, E1, app_assoc. split; [reflexivity |].
    intros c [Hc | Hc]%in_app_or; [left; symmetry; now apply H1 | right; now apply H2].
Qed.

Lemma apply_formulas_getcol out formulas c :
  ~ In c (dict_keys formulas) ->
  getcol (apply_formulas py_eval out formulas) c = getcol out c.
Proof.
  unfold apply_formulas. revert out.
  induction formulas as [|[name expr] formulas IH]; intros out Hc; simpl; [reflexivity |].
  simpl in Hc. rewrite IH by tauto. apply apply_formula_getcol. intros ->. tauto.
Qed.

Lemma apply_formulas_len out formulas :
  df_len (apply_formulas py_eval out formulas) = df_len out.
Proof.
  unfold apply_formulas. revert out.
  induction formulas as [|[name expr] formulas IH]; intros out; simpl; [reflexivity |].
  now rewrite IH, apply_formula_len.
Qed.

Lemma apply_formulas_app out f1 f2 :
  apply_formulas py_eval out (f1 ++ f2)
  = apply_formulas py_eval (apply_formulas py_eval out f1) f2.
Proof. unfold apply_formulas. apply foldl_app. Qed.

(** The loop on the heap does to the table behind [out] what
    [apply_formulas] says, touches no other object and does not raise. *)
Lemma eval_formula_heap (h : heap) out df name expr :
  h !! out = Some df ->
  eval_formula py_eval h out name expr
  = Some (<[out := apply_formula py_eval df name expr]> h).
Proof.
  intros Hout. unfold eval_formula, apply_formula.
  destruct expr as [expr|]; [| now rewrite insert_id].
  destruct (expr_allowed expr); simpl; [| now rewrite insert_id].
  rewrite Hout. simpl.
  destruct (py_eval expr (local_env df)) as [v|]; [| now rewrite insert_id].
  unfold heap_setitem. rewrite Hout. reflexivity.
Qed.

Lemma eval_formulas_heap (h : heap) out df formulas :
  h !! out = Some df ->
  eval_formulas py_eval h out formulas
  = Some (<[out := apply_formulas py_eval df formulas]> h).
Proof.
  unfold apply_formulas. revert h df.
  induction formulas as [|[name expr] formulas IH]; intros h df Hout; simpl.
  - now rewrite insert_id.
  - rewrite (eval_formula_heap h out df name expr Hout). simpl.
    rewrite (IH _ (apply_formula py_eval df name expr)) by apply lookup_insert_eq.
    now rewrite insert_insert_eq.
Qed.

Lemma eval_formulas_on_rows_heap (h : heap) components_df df formulas :
  h !! components_df = Some df ->
  let out := fresh (dom h) in
  eval_formulas_on_rows py_eval h components_df formulas
  = Some (<[out := apply_formulas py_eval df formulas]> h, out)
  /\ h !! out = None.
Proof.
  intros Hdf out.
  assert (Hfresh : h !! out = None) by (apply not_elem_of_dom, is_fresh).
  split; [| exact Hfresh].
  unfold eval_formulas_on_rows, df_copy. rewrite Hdf. simpl. fold out.
  rewrite (eval_formulas_heap _ out df) by apply lookup_insert_eq.
  simpl. now rewrite insert_insert_eq.
Qed.

End FormulaFacts.

Lemma getcol_has_column df df' c :
  getcol df c = getcol df' c -> (In c (columns df) <-> In c (columns df')).
Proof.
  unfold getcol. rewrite <- !has_column_In.
  destruct (has_column df c), (has_column df' c); intros H; try discriminate; tauto.
Qed.

(** C4.  A formula whose expression holds a character that is not
    alphanumeric, a space, an underscore or one of [+ - * /] is skipped,
    and so is one whose evaluation raises: the call returns, the result
    has a column of the formula's name exactly if the input had one, and
    that column is the input's.  "AMOR; import os" is such an expression. *)
Theorem disallowed_or_failing_formula_is_skipped {RT : PyRuntime}
    (py_eval : ustring -> dict pyvalue -> option pyvalue) :
  (forall (h : heap) (components_df : nat) (df : DataFrame)
          (formulas before after : dict CostComponents.formula_expr)
          (name expr : ustring),
      h !! components_df = Some df ->
      NoDup (dict_keys formulas) ->
      formulas = before ++ (name, CostComponents.ExprStr expr) :: after ->
      (existsb (fun ch => negb (CostComponents.allowed_char ch)) expr = true
       \/ py_eval expr
            (CostComponents.local_env (apply_formulas py_eval df before)) = None) ->
      exists h' out res,
        CostComponents.eval_formulas_on_rows py_eval h components_df formulas
        = Some (h', out)
        /\ h' !! out = Some res
        /\ (In name (columns res) <-> In name (columns df))
        /\ getcol res name = getcol df name)
  /\ existsb (fun ch => negb (CostComponents.allowed_char ch)) (U "AMOR; import os")
     = true.
Proof.
  split; [| reflexivity].
  intros h components_df df formulas before after name expr Hdf Hnd -> Hskip.
  destruct (eval_formulas_on_rows_heap py_eval h components_df df
              (before ++ (name, CostComponents.ExprStr expr) :: after) Hdf)
    as [Hrun _].
  eexists _, _, _. split; [exact Hrun |]. split; [apply lookup_insert_eq |].
  assert (Hcol : getcol (apply_formulas py_eval df
                           (before ++ (name, CostComponents.ExprStr expr) :: after)) name
                 = getcol df name).
  { unfold dict_keys in Hnd. rewrite map_app in Hnd. simpl in Hnd.
    apply NoDup_app in Hnd as (_ & Hdisj & Hnd'). apply NoDup_cons in Hnd' as [Hafter _].
    assert (Hbefore : ~ In name (map fst before)).
    { intros Hin. apply list_elem_of_In in Hin. apply (Hdisj _ Hin). left. }
    rewrite list_elem_of_In in Hafter.
    change (before ++ (name, CostComponents.ExprStr expr) :: after)
      with (before ++ [(name, CostComponents.ExprStr expr)] ++ after).
    rewrite !apply_formulas_app.
    rewrite (apply_formulas_getcol _ _ after) by exact Hafter.
    rewrite <- (apply_formulas_getcol py_eval df before name Hbefore).
    set (mid := apply_formulas py_eval df before) in *.
    unfold apply_formulas at 1. simpl. unfold CostComponents.expr_allowed.
    destruct Hskip as [Hbad | Hfail].
    - assert (forallb CostComponents.allowed_char expr = false) as ->; [| reflexivity].
      apply not_true_is_false. intros Hall. rewrite forallb_forall in Hall.
      apply existsb_exists in Hbad as (ch & Hch & Hn).
      rewrite (Hall ch Hch) in Hn. discriminate.
    - rewrite Hfail. now destruct (forallb _ _). }
  split; [now apply getcol_has_column | exact Hcol].
Qed.

Lemma disallowed_or_failing_formula_is_skipped_witness :
  exists h' out res,
    @CostComponents.eval_formulas_on_rows ascii_only Sample.name_eval
      {[ 0%nat := Sample.components ]} 0%nat Sample.formulas = Some (h', out)
    /\ h' !! out = Some res
    /\ (In (U "BAD") (columns res) <-> In (U "BAD") (columns Sample.components))
    /\ getcol res (U "BAD") = getcol Sample.components (U "BAD").
Proof.
  apply (proj1 (@disallowed_or_failing_formula_is_skipped ascii_only Sample.name_eval)
           {[ 0%nat := Sample.components ]} 0%nat Sample.components Sample.formulas
           [(U "A", CostComponents.ExprStr (U "AMOR"))]
           [(U "MISSING", CostComponents.ExprStr (U "TOTAL"))]
           (U "BAD") (U "AMOR; import os")).
  - reflexivity.
  - repeat constructor; intros H;
      repeat (apply list_elem_of_In in H; destruct H as [H | H];
              [discriminate H | apply list_elem_of_In in H]);
      try (apply list_elem_of_In in H; destruct H).
  - reflexivity.
  - left. reflexivity.
Defined.

(** C10.  When no formula is named like a column of the components
    table, the result keeps the columns of the input, in their order and
    with their values row by row, followed only by columns named after
    formulas; the input table is not changed (nor is any other object:
    the result is a new one), and the call returns. *)
Theorem eval_formulas_frame {RT : PyRuntime}
    (py_eval : ustring -> dict pyvalue -> option pyvalue)
    (h : heap) (components_df : nat) (df : DataFrame)
    (formulas : dict CostComponents.formula_expr) :
  h !! components_df = Some df ->
  (forall name, In name (dict_keys formulas) -> ~ In name (columns df)) ->
  exists h' out res new,
    CostComponents.eval_formulas_on_rows py_eval h components_df formulas
    = Some (h', out)
    /\ h !! out = None
    /\ (forall r, r <> out -> h' !! r = h !! r)
    /\ h' !! components_df = Some df
    /\ h' !! out = Some res
    /\ columns res = columns df ++ new
    /\ (forall c, In c new -> In c (dict_keys formulas))
    /\ (forall c, In c (columns df) -> getcol res c = getcol df c)
    /\ df_len res = df_len df.
Proof.
  intros Hdf Hdisj.
  destruct (eval_formulas_on_rows_heap py_eval h components_df df formulas Hdf)
    as [Hrun Hfresh].
  destruct (apply_formulas_columns py_eval df formulas) as (new & Hcols & Hnew).
  eexists _, _, _, new. split; [exact Hrun |]. split; [exact Hfresh |].
  split; [intros r Hr; now apply lookup_insert_ne |].
  split; [rewrite lookup_insert_ne; [exact Hdf | congruence] |].
  split; [apply lookup_insert_eq |].
  split; [exact Hcols |]. split; [exact Hnew |].
  split; [| apply apply_formulas_len].
  intros c Hc. apply apply_formulas_getcol. intros Hin. exact (Hdisj c Hin Hc).
Qed.

Lemma eval_formulas_frame_witness :
  exists h' out res new,
    @CostComponents.eval_formulas_on_rows ascii_only Sample.name_eval
      {[ 0%nat := Sample.components ]} 0%nat Sample.formulas = Some (h', out)
    /\ ({[ 0%nat := Sample.components ]} : heap) !! out = None
    /\ (forall r, r <> out -> h' !! r = ({[ 0%nat := Sample.components ]} : heap) !! r)
    /\ h' !! 0%nat = Some Sample.components
    /\ h' !! out = Some res
    /\ columns res = columns Sample.components ++ new
    /\ (forall c, In c new -> In c (dict_keys Sample.formulas))
    /\ (forall c, In c (columns Sample.components) ->
                  getcol res c = getcol Sample.components c)
    /\ df_len res = df_len Sample.components.
Proof.
  apply (@eval_formulas_frame ascii_only Sample.name_eval
           {[ 0%nat := Sample.components ]} 0%nat Sample.components Sample.formulas).
  - reflexivity.
  - intros name [<- | [<- | [<- | []]]] [H | [H | []]]; discriminate H.
Defined.

(** ** Filtering by codes *)

Lemma select_mask_map {A} (f : A -> bool) (xs : list A) :
  select_mask xs (map f xs) = List.filter f xs.
Proof.
  induction xs as [|x xs IH]; simpl; [reflexivity |].
  rewrite IH. reflexivity.
Qed.

Lemma mask_and_true n (m : list bool) :
  length m = n -> mask_and (repeat true n) m = m.
Proof.
  revert m. induction n as [|n IH]; intros [|b m]; simpl; try discriminate; [reflexivity |].
  intros [= H]. now rewrite IH.
Qed.

Lemma mask_and_map {A} (f g : A -> bool) (xs : list A) :
  mask_and (map f xs) (map g xs) = map (fun x => f x && g x) xs.
Proof. induction xs as [|x xs IH]; simpl; [reflexivity |]. now rewrite IH. Qed.

Lemma existsb_id_map {A} (f : A -> bool) (xs : list A) :
  existsb id (map f xs) = existsb f xs.
Proof. induction xs as [|x xs IH]; simpl; [reflexivity |]. now rewrite IH. Qed.

Lemma getcol_In df c :
  In c (columns df) -> getcol df c = Some (map (fun r => cell_at (columns df) r c) (rows df)).
Proof. intros H. unfold getcol. now apply has_column_In in H as ->. Qed.

Section FilterFacts.
Context {RT : PyRuntime}.
Import CostComponents.

Lemma code_mask_matches df col code :
  In col (columns df) ->
  code_mask df col code = Some (map (code_matches df col code) (rows df)).
Proof.
  intros Hcol. unfold code_mask. rewrite (getcol_In df col Hcol). simpl. f_equal.
  rewrite !map_map, existsb_id_map.
  unfold code_matches, equals_code, contains_code, cell_text.
  now destruct (existsb _ (rows df)).
Qed.

(** One block of the filter: the mask after it is the mask before it,
    row by row, and the constraint of the code. *)
Lemma constraint_step df (code col : option ustring) (keep : list cell -> bool) :
  column_of df col ->
  match code, col with
  | Some ((_ :: _) as code), Some ((_ :: _) as col) =>
      m ← code_mask df col code; Some (mask_and (map keep (rows df)) m)
  | _, _ => Some (map keep (rows df))
  end
  = Some (map (fun r => keep r && code_constraint df code col r) (rows df)).
Proof.
  intros Hcol. unfold code_constraint.
  assert (Hid : map keep (rows df) = map (fun r => keep r && true) (rows df))
    by (apply map_ext; intros; now rewrite andb_true_r).
  destruct code as [[|a code]|]; try (now rewrite Hid).
  destruct col as [[|b col]|]; try (now rewrite Hid).
  rewrite code_mask_matches by (apply Hcol; [reflexivity | discriminate]).
  simpl. now rewrite mask_and_map.
Qed.

End FilterFacts.

Lemma cell_at_realign new old r c :
  In c new -> cell_at new (realign new old r) c = cell_at old r c.
Proof.
  intros Hc. unfold cell_at at 1.
  destruct (index_of c new) as [i|] eqn:E.
  - apply index_of_lookup in E. unfold realign.
    now rewrite list_lookup_fmap, E.
  - now apply index_of_none in E.
Qed.

Section FindColumn.
Context {RT : PyRuntime}.

Lemma engine_exact_match_in cands cols c :
  DataEngine.exact_match cands
    (dict_comprehension (fun c => CoreSchema.normalize (Some c)) cols) = Some c ->
  In c cols.
Proof.
  induction cands as [|cand cands IH]; simpl; [discriminate |].
  rewrite dict_comprehension_get.
  destruct (last_such _ cols) as [y|] eqn:E; [| exact IH].
  intros [= <-]. now apply last_such_some in E as [? _].
Qed.

(** A column [find_col_by_candidates] returns is a column of the table. *)
Lemma find_col_in_columns df cands c :
  DataEngine.find_col_by_candidates (Some df) cands = Some c -> In c (columns df).
Proof.
  unfold DataEngine.find_col_by_candidates.
  destruct (DataEngine.exact_match _ _) as [c'|] eqn:E.
  - intros [= <-]. exact (engine_exact_match_in _ _ _ E).
  - unfold DataEngine.loose_match. intros H. now apply List.find_some in H as [? _].
Qed.

Lemma find_col_column_of df cands :
  column_of df (DataEngine.find_col_by_candidates (Some df) cands).
Proof. intros c Hc _. exact (find_col_in_columns df cands c Hc). Qed.

End FindColumn.

Lemma repeat_true_map {A} (l : list A) :
  repeat true (length l) = map (fun _ => true) l.
Proof. induction l as [|x l IH]; simpl; [reflexivity |]. now rewrite IH. Qed.




(** ** The majority vote *)

Section VoteFacts.
Import DataEngine.

Lemma count_of_cons v w s :
  count_of v (w :: s) = ((if ustr_eqb v w then 1 else 0) + count_of v s)%nat.
Proof. unfold count_of. simpl. now destruct (ustr_eqb v w). Qed.

Lemma count_of_le v s : (count_of v s <= length s)%nat.
Proof. unfold count_of. apply List.filter_length_le. Qed.

Lemma count_of_two v w s : v <> w -> (count_of v s + count_of w s <= length s)%nat.
Proof.
  intros Hne. induction s as [|x s IH]; [unfold count_of; simpl; lia |].
  rewrite !count_of_cons. simpl length.
  destruct (ustr_eqb v x) eqn:E1, (ustr_eqb w x) eqn:E2; cbv iota; try lia.
  apply ustr_eqb_eq in E1, E2. congruence.
Qed.

Lemma count_of_pos v s : In v s <-> (0 < count_of v s)%nat.
Proof.
  induction s as [|x s IH]; simpl.
  - unfold count_of. simpl. split; [tauto | lia].
  - rewrite count_of_cons. destruct (ustr_eqb v x) eqn:E.
    + apply ustr_eqb_eq in E. split; [lia | auto].
    + apply ustr_eqb_neq in E. cbv iota. rewrite Nat.add_0_l, <- IH.
      split; [intros [|]; congruence | auto].
Qed.

Lemma unique_In v s : In v (unique s) <-> In v s.
Proof.
  induction s as [|x s IH]; simpl; [tauto |].
  rewrite List.filter_In, IH. destruct (ustr_eqb v x) eqn:E.
  - apply ustr_eqb_eq in E. subst. simpl. tauto.
  - apply ustr_eqb_neq in E. simpl. split; [tauto |].
    intros [? | ?]; [congruence | tauto].
Qed.

(** With one distinct value, every value of the column is that one. *)
Lemma unique_single v s : unique s = [v] -> forall w, In w s -> w = v.
Proof.
  intros Hu w Hw. apply (proj2 (unique_In _ _)) in Hw. rewrite Hu in Hw.
  now destruct Hw as [<- | []].
Qed.

Lemma count_of_all v s : (forall w, In w s -> w = v) -> count_of v s = length s.
Proof.
  induction s as [|x s IH]; intros H; [reflexivity |].
  rewrite count_of_cons, IH by (intros; apply H; now right).
  rewrite (H x) by now left. now rewrite ustr_eqb_refl.
Qed.

(** The counts come out with a largest one first. *)
Lemma insert_by_count_head x l :
  exists y rest,
    insert_by_count x l = y :: rest
    /\ (y = x \/ head l = Some y)
    /\ (snd x <= snd y)%nat
    /\ (forall z, head l = Some z -> snd z <= snd y)%nat.
Proof.
  destruct l as [|z l]; simpl.
  - exists x, []. repeat split; auto. intros z [=].
  - destruct (snd z <=? snd x)%nat eqn:E.
    + apply Nat.leb_le in E. exists x, (z :: l). repeat split; auto.
      now intros ? [= <-].
    + apply Nat.leb_gt in E. exists z, (insert_by_count x l).
      repeat split; auto; [lia |]. now intros ? [= <-].
Qed.

Lemma sorted_head (l : list (list N * nat)) :
  l <> [] ->
  exists y rest,
    foldr insert_by_count [] l = y :: rest
    /\ In y l
    /\ forall z, In z l -> (snd z <= snd y)%nat.
Proof.
  induction l as [|x l IH]; [congruence |]. intros _. simpl.
  destruct l as [|x' l'].
  - simpl. exists x, []. repeat split; auto. now intros z [<- | []].
  - destruct (IH ltac:(discriminate)) as (y0 & rest0 & E0 & Hin0 & Hmax0).
    destruct (insert_by_count_head x (foldr insert_by_count [] (x' :: l')))
      as (y & rest & E & Hy & Hx & Hhd).
    exists y, rest. split; [exact E |]. split.
    + destruct Hy as [-> | Hy]; [now left |]. right.
      rewrite E0 in Hy. injection Hy as <-. exact Hin0.
    + rewrite E0 in Hhd. specialize (Hhd y0 eq_refl).
      intros z [<- | Hz]; [exact Hx |]. specialize (Hmax0 z Hz). lia.
Qed.

Lemma value_counts_head s :
  s <> [] ->
  exists top rest,
    value_counts s = (top, count_of top s) :: rest
    /\ In top s
    /\ forall w, (count_of w s <= count_of top s)%nat.
Proof.
  intros Hs. unfold value_counts.
  assert (Hne : map (fun v => (v, count_of v s)) (unique s) <> []).
  { destruct s as [|x s]; [congruence |]. discriminate. }
  destruct (sorted_head _ Hne) as ([top n] & rest & E & Hin & Hmax).
  apply in_map_iff in Hin as (v & [= <- <-] & Hv).
  apply (proj1 (unique_In _ _)) in Hv.
  exists v, rest. split; [exact E |]. split; [exact Hv |].
  intros w. destruct (count_of_pos w s) as [_ Hpos].
  destruct (Nat.eq_dec (count_of w s) 0%nat) as [-> | Hnz]; [lia |].
  specialize (Hpos ltac:(lia)). apply (proj2 (unique_In _ _)) in Hpos.
  exact (Hmax (w, count_of w s)
           (in_map (fun v => (v, count_of v s)) _ _ Hpos)).
Qed.

(** What the vote gives. *)
Lemma vote_single s v : unique s = [v] -> vote s = Some v.
Proof. unfold vote. now intros ->. Qed.

Lemma vote_several s :
  (1 < length (unique s))%nat ->
  exists top,
    In top s
    /\ (forall w, count_of w s <= count_of top s)%nat
    /\ vote s = if (10 * count_of top s <? 9 * length s)%nat then None else Some top.
Proof.
  intros Hlen.
  assert (Hs : s <> []) by (intros ->; simpl in Hlen; lia).
  destruct (value_counts_head s Hs) as (top & rest & E & Hin & Hmax).
  exists top. split; [exact Hin |]. split; [exact Hmax |].
  unfold vote. rewrite E.
  destruct (unique s) as [|a [|b u]]; simpl in Hlen; try lia. reflexivity.
Qed.

(** A value the vote accepts has at least nine tenths of the values, and
    every other value has fewer. *)
Lemma vote_majority s v :
  s <> [] -> vote s = Some v ->
  (9 * length s <= 10 * count_of v s)%nat
  /\ forall w, w <> v -> (count_of w s < count_of v s)%nat.
Proof.
  intros Hs Hv.
  assert (Hlen : (0 < length s)%nat) by (destruct s; [congruence | simpl; lia]).
  assert (Hmaj : (9 * length s <= 10 * count_of v s)%nat).
  { destruct (unique s) as [|a [|b u]] eqn:Eu.
    - unfold vote in Hv. now rewrite Eu in Hv.
    - rewrite (vote_single s a Eu) in Hv. injection Hv as <-.
      rewrite (count_of_all a s (unique_single a s Eu)). lia.
    - destruct (vote_several s) as (top & _ & _ & E); [rewrite Eu; simpl; lia |].
      rewrite E in Hv. destruct (_ <? _)%nat eqn:Elt; [discriminate |].
      injection Hv as <-. apply Nat.ltb_ge in Elt. lia. }
  split; [exact Hmaj |]. intros w Hw.
  pose proof (count_of_two w v s Hw). lia.
Qed.

End VoteFacts.

Section AutofillFacts.
Context {RT : PyRuntime}.
Import DataEngine.


Lemma non_null_values_total df col :
  In col (columns df) -> exists s, non_null_values df col = Some s.
Proof. intros H. unfold non_null_values. rewrite (getcol_In df col H). simpl. eauto. Qed.

(** One key: the engine changes at most in the manual value of the key. *)
Lemma autofill_key_total df override e key :
  exists e' was_filled,
    autofill_key df override e key = Some (e', was_filled)
    /\ schema e' = schema e
    /\ forall k, k <> key -> manual_values e' !! k = manual_values e !! k.
Proof.
  unfold autofill_key.
  destruct (negb override && _); [now exists e, false |].
  destruct (find_col_by_candidates _ _) as [[|c col]|] eqn:Ecol;
    try (now exists e, false).
  destruct (non_null_values_total df (c :: col) (find_col_in_columns _ _ _ Ecol))
    as [s ->]. simpl.
  destruct s as [|v s]; [now exists e, false |].
  destruct (vote (v :: s)) as [val|]; [| now exists e, false].
  exists (set_manual_value e key val), true. repeat split.
  intros k Hk. simpl. now apply lookup_insert_ne.
Qed.

Lemma autofill_key_skipped df e key :
  truthy (manual_values e !! key) = true ->
  autofill_key df false e key = Some (e, false).
Proof. intros H. unfold autofill_key. now rewrite H. Qed.


(** The loop: a key that is not in the list is left alone. *)
Lemma autofill_keys_total df override keys e :
  exists e' filled,
    autofill_keys df override e keys = Some (e', filled)
    /\ schema e' = schema e
    /\ forall k, ~ In k keys ->
         manual_values e' !! k = manual_values e !! k /\ ~ In k filled.
Proof.
  revert e. induction keys as [|key keys IH]; intros e; simpl.
  - exists e, []. repeat split; auto.
  - destruct (autofill_key_total df override e key) as (e1 & b & -> & Hs1 & Hm1).
    destruct (IH e1) as (e2 & filled & -> & Hs2 & Hm2).
    eexists _, _. split; [reflexivity |]. split; [congruence |].
    intros k Hk. destruct (Hm2 k ltac:(tauto)) as [Hk2 Hf2].
    rewrite Hk2, Hm1 by (intros ->; tauto). split; [reflexivity |].
    destruct b; [| exact Hf2]. intros [-> | ?]; tauto.
Qed.

Lemma autofill_keys_app df override k1 k2 e :
  autofill_keys df override e (k1 ++ k2)
  = match autofill_keys df override e k1 with
    | Some (e1, f1) =>
        match autofill_keys df override e1 k2 with
        | Some (e2, f2) => Some (e2, f1 ++ f2)
        | None => None
        end
    | None => None
    end.
Proof.
  revert e. induction k1 as [|key k1 IH]; intros e; simpl.
  - destruct (autofill_keys df override e k2) as [[e2 f2]|]; reflexivity.
  - destruct (autofill_key df override e key) as [[e1 b]|]; [| reflexivity].
    rewrite IH. destruct (autofill_keys df override e1 k1) as [[e2 f1]|]; [| reflexivity].
    destruct (autofill_keys df override e2 k2) as [[e3 f2]|]; [| reflexivity].
    now destruct b.
Qed.

Section OneKey.
Variables (df : DataFrame) (override : bool) (e : Engine) (key col : ustring)
          (s : list ustring).
Hypothesis Hrun : override = true \/ truthy (manual_values e !! key) = false.
Hypothesis Hcol : find_col_by_candidates (Some df) (_cands e key) = Some col.
Hypothesis Hne : col <> [].
Hypothesis Hs : non_null_values df col = Some s.
Hypothesis Hs' : s <> [].




End OneKey.

End AutofillFacts.


(** ** Tables put one under the other *)


Lemma filter_none {A} (p : A -> bool) (l : list A) :
  (forall x, In x l -> p x = false) -> List.filter p l = [].
Proof.
  induction l as [|x l IH]; intros H; simpl; [reflexivity |].
  rewrite (H x) by now left. apply IH. intros; apply H. now right.
Qed.

Lemma Forall2_map_same {A B} (R : A -> B -> Prop) (f : A -> B) (l : list A) :
  (forall x, In x l -> R x (f x)) -> Forall2 R l (map f l).
Proof.
  induction l as [|x l IH]; intros H; simpl; constructor.
  - apply H. now left.
  - apply IH. intros y Hy. apply H. now right.
Qed.

Lemma omap_id_Some {A} (l : list A) : omap id (map Some l) = l.
Proof. induction l as [|x l IH]; simpl; [reflexivity |]. f_equal. exact IH. Qed.

Lemma cell_at_map cols (f : ustring -> cell) c :
  In c cols -> cell_at cols (map f cols) c = f c.
Proof.
  intros Hc. unfold cell_at. destruct (index_of c cols) as [i|] eqn:E.
  - apply index_of_lookup in E. now rewrite list_lookup_fmap, E.
  - now apply index_of_none in E.
Qed.

Lemma cell_at_missing cols r c : ~ In c cols -> cell_at cols r c = NaN.
Proof. intros H. unfold cell_at. now apply index_of_none in H as ->. Qed.

Lemma getcol_cells_under df c :
  In c (columns df) -> getcol df c = Some (cells_under df c).
Proof. exact (getcol_In df c). Qed.

(** *** The dtype of a result column *)

Lemma fold_common_object ds d :
  d = DObject \/ In DObject ds -> foldl common_dtype d ds = DObject.
Proof.
  revert d. induction ds as [|a ds IH]; intros d H; simpl.
  - destruct H as [-> | []]. reflexivity.
  - apply IH. destruct H as [-> | [-> | H]].
    + left. now destruct a.
    + left. now destruct d.
    + now right.
Qed.

Lemma fold_common_int ds :
  (forall d, In d ds -> d = DInt) -> foldl common_dtype DInt ds = DInt.
Proof.
  induction ds as [|a ds IH]; intros H; simpl; [reflexivity |].
  rewrite (H a) by now left. simpl. apply IH. intros d Hd. apply H. now right.
Qed.

Lemma column_dtype_text p s : In (CStr s) p -> column_dtype p = DObject.
Proof.
  intros H. unfold column_dtype.
  destruct (forallb is_int p) eqn:E1.
  { rewrite forallb_forall in E1. discriminate (E1 _ H). }
  destruct (forallb is_float p) eqn:E2; [| reflexivity].
  rewrite forallb_forall in E2. discriminate (E2 _ H).
Qed.

Lemma column_dtype_ints p : forallb is_int p = true -> column_dtype p = DInt.
Proof. intros H. unfold column_dtype. now rewrite H. Qed.

(** A column with a string in it does not become float64. *)
Lemma float64_no_text ps p s :
  concat_float64 ps = true -> In (Some p) ps -> ~ In (CStr s) p.
Proof.
  intros Hf Hp Hs. unfold concat_float64 in Hf.
  set (solid := List.filter (fun p => negb (forallb isna p)) (omap id ps)) in Hf.
  assert (Hin : In p solid).
  { apply List.filter_In. split.
    - apply list_elem_of_In, list_elem_of_omap. exists (Some p).
      split; [now apply list_elem_of_In | reflexivity].
    - apply negb_true_iff. destruct (forallb isna p) eqn:E; [| reflexivity].
      rewrite forallb_forall in E. discriminate (E _ Hs). }
  destruct solid as [|p0 rest]; [destruct Hin |].
  rewrite fold_common_object in Hf; [discriminate |].
  destruct Hin as [<- | Hin].
  - left. exact (column_dtype_text _ _ Hs).
  - right. apply in_map_iff. exists p. split; [exact (column_dtype_text _ _ Hs) | exact Hin].
Qed.

(** Columns of integers, one in every table, stay integers. *)
Lemma float64_ints ls :
  (forall l, In l ls -> forallb is_int l = true) ->
  concat_float64 (map Some ls) = false.
Proof.
  intros H. unfold concat_float64. rewrite omap_id_Some.
  assert (Hhollow : List.filter
                      (fun p => forallb isna p && negb (bool_decide (p = []))) ls = []).
  { apply filter_none. intros l Hl. specialize (H l Hl).
    destruct l as [|x l]; [now rewrite andb_comm |].
    simpl in H. apply andb_true_iff in H as [Hx _]. destruct x; try discriminate Hx.
    reflexivity. }
  rewrite Hhollow.
  assert (Hnone : existsb (fun p : option (list cell) => bool_decide (p = None))
                          (map Some ls) = false).
  { clear. induction ls as [|l ls IH]; simpl; [reflexivity | exact IH]. }
  rewrite Hnone.
  destruct (List.filter (fun p => negb (forallb isna p)) ls) as [|p rest] eqn:Es;
    [reflexivity |].
  assert (Hsub : forall l, In l (p :: rest) -> In l ls).
  { intros l Hl. rewrite <- Es in Hl. now apply List.filter_In in Hl as [? _]. }
  rewrite (column_dtype_ints p) by (apply H, Hsub; now left).
  rewrite fold_common_int; [reflexivity |].
  intros d (l & <- & Hl)%in_map_iff. apply column_dtype_ints, H, Hsub. now right.
Qed.

Lemma pieces_present frames c :
  (forall f, In f frames -> In c (columns f)) ->
  pieces frames c = map Some (map (fun f => cells_under f c) frames).
Proof.
  intros H. unfold pieces. rewrite map_map. apply map_ext_in.
  intros f Hf. apply getcol_cells_under, H, Hf.
Qed.

Lemma cell_in_piece frames f r c s :
  In f frames -> In r (rows f) -> cell_at (columns f) r c = CStr s ->
  exists p, In (Some p) (pieces frames c) /\ In (CStr s) p.
Proof.
  intros Hf Hr Ex.
  assert (Hc : In c (columns f)).
  { destruct (has_column f c) eqn:E; [now apply has_column_In |].
    assert (Hn : ~ In c (columns f)) by (rewrite <- has_column_In; congruence).
    rewrite (cell_at_missing _ r c Hn) in Ex. discriminate Ex. }
  exists (cells_under f c). split.
  - apply in_map_iff. exists f. split; [now apply getcol_cells_under | exact Hf].
  - apply in_map_iff. exists r. split; [exact Ex | exact Hr].
Qed.

(** What [pd.concat] makes of a cell has the value of the cell. *)
Lemma concat_cell_same frames f r c :
  In f frames -> In r (rows f) ->
  same_value (cell_at (columns f) r c)
             (concat_cell frames c (cell_at (columns f) r c)).
Proof.
  intros Hf Hr. unfold concat_cell.
  destruct (concat_float64 _) eqn:E; [| now left].
  destruct (cell_at (columns f) r c) as [s|z|x| |] eqn:Ex; simpl.
  - exfalso. destruct (cell_in_piece frames f r c s Hf Hr Ex) as (p & Hp & Hs).
    exact (float64_no_text _ p s E Hp Hs).
  - right. left. eauto.
  - now left.
  - right. right. split; reflexivity.
  - right. right. split; reflexivity.
Qed.

(** With integers everywhere in a column, or none anywhere, it is the
    cell itself. *)
Lemma concat_cell_keep frames f r c :
  unconverted frames -> In f frames -> In r (rows f) ->
  (exists g, In g frames /\ In c (columns g)) ->
  concat_cell frames c (cell_at (columns f) r c) = cell_at (columns f) r c.
Proof.
  intros Hu Hf Hr Hc. unfold concat_cell.
  destruct (concat_float64 _) eqn:E; [| reflexivity].
  destruct (Hu c Hc) as [Hi | Hp].
  - exfalso. rewrite pieces_present in E by (intros g Hg; apply (Hi g Hg)).
    rewrite float64_ints in E; [discriminate |].
    intros l (g & <- & Hg)%in_map_iff. apply forallb_forall.
    intros x (r0 & <- & Hr0)%in_map_iff. now apply (Hi g Hg).
  - specialize (Hp f Hf r Hr).
    destruct (cell_at (columns f) r c) as [s|z|x| |] eqn:Ex; try discriminate Hp.
    + exfalso. destruct (cell_in_piece frames f r c s Hf Hr Ex) as (p & Hp' & Hs).
      exact (float64_no_text _ p s E Hp' Hs).
    + reflexivity.
Qed.

(** *** The result of [pd.concat] *)

Lemma add_columns_In cols more c :
  In c (add_columns cols more) <-> In c cols \/ In c more.
Proof.
  unfold add_columns. rewrite in_app_iff, List.filter_In.
  destruct (index_of c cols) as [i|] eqn:E; simpl.
  - assert (In c cols).
    { apply index_of_lookup in E. apply list_elem_of_In.
      eapply list_elem_of_lookup_2. exact E. }
    split; [intros [? | [? ?]]; [auto | discriminate] | tauto].
  - tauto.
Qed.

Lemma concat_frames_columns_In frames c :
  In c (columns (concat_frames frames))
  <-> exists f, In f frames /\ In c (columns f).
Proof.
  unfold concat_frames. cbn [columns].
  destruct frames as [|f rest].
  { split; [intros [] | intros (? & [] & _)]. }
  assert (H : forall cols,
             In c (foldl (fun cols df => add_columns cols (columns df)) cols rest)
             <-> In c cols \/ exists g, In g rest /\ In c (columns g)).
  { induction rest as [|g rest IH]; intros cols; simpl.
    - split; [auto | intros [? | (? & [] & _)]; auto].
    - rewrite IH, add_columns_In. split.
      + intros [[? | ?] | (h & ? & ?)]; [auto | right; exists g; auto | right; exists h; auto].
      + intros [? | (h & [<- | ?] & ?)]; [auto | auto | right; exists h; auto]. }
  rewrite H. split.
  - intros [? | (g & ? & ?)]; [exists f | exists g]; simpl; auto.
  - intros (g & [<- | ?] & ?); [auto | right; exists g; auto].
Qed.

Lemma flat_map_rows_length {A} (g : DataFrame -> list cell -> A) frames :
  length (flat_map (fun df => map (g df) (rows df)) frames)
  = list_sum (map df_len frames).
Proof.
  induction frames as [|f frames IH]; simpl; [reflexivity |].
  now rewrite length_app, length_map, IH.
Qed.

Lemma concat_frames_len frames :
  df_len (concat_frames frames) = list_sum (map df_len frames).
Proof. unfold df_len at 1, concat_frames. cbn [rows]. apply flat_map_rows_length. Qed.

Lemma concat_frames_getcol frames c :
  In c (columns (concat_frames frames)) ->
  getcol (concat_frames frames) c
  = Some (flat_map (fun df => map (concat_cell frames c) (cells_under df c)) frames).
Proof.
  intros Hc. rewrite (getcol_In _ _ Hc). f_equal.
  set (cols := columns (concat_frames frames)) in *.
  change (rows (concat_frames frames))
    with (flat_map
            (fun df =>
               map (fun r =>
                      map (fun c => concat_cell frames c (cell_at (columns df) r c)) cols)
                   (rows df))
            frames).
  generalize frames at 2 4. intros l.
  induction l as [|f l IH]; simpl; [reflexivity |].
  rewrite map_app, IH. f_equal. unfold cells_under. rewrite !map_map.
  apply map_ext. intros r.
  exact (cell_at_map cols (fun c => concat_cell frames c (cell_at (columns f) r c)) c Hc).
Qed.


Lemma concat_columns_In a b c :
  In c (columns (concat a b)) <-> In c (columns a) \/ In c (columns b).
Proof.
  unfold concat. rewrite concat_frames_columns_In. split.
  - intros (f & [<- | [<- | []]] & H); auto.
  - intros [H | H]; [exists a | exists b]; simpl; auto.
Qed.

Lemma concat_len a b : df_len (concat a b) = (df_len a + df_len b)%nat.
Proof. unfold concat. rewrite concat_frames_len. simpl. lia. Qed.

Lemma concat_rows a b :
  let cols := columns (concat a b) in
  rows (concat a b)
  = map (fun r => map (fun c => concat_cell [a; b] c (cell_at (columns a) r c)) cols)
        (rows a)
    ++ map (fun r => map (fun c => concat_cell [a; b] c (cell_at (columns b) r c)) cols)
           (rows b).
Proof. cbn zeta. unfold concat, concat_frames. cbn [rows flat_map]. now rewrite app_nil_r. Qed.

(** The rows of [a], then those of [b], every cell with its value, and
    the cell itself when there is nothing to convert. *)
Lemma concat_laid_out a b :
  let cols := columns (concat a b) in
  exists top bottom,
    rows (concat a b) = top ++ bottom
    /\ laid_out cols (columns a) (rows a) top
    /\ laid_out cols (columns b) (rows b) bottom
    /\ (unconverted [a; b] ->
        top = map (realign cols (columns a)) (rows a)
        /\ bottom = map (realign cols (columns b)) (rows b)).
Proof.
  cbn zeta. eexists _, _. split; [apply concat_rows |].
  split; [| split].
  1,2: apply Forall2_map_same; intros r Hr;
    (split; [apply length_map |]); intros c Hc; rewrite (cell_at_map _ _ c Hc);
    apply concat_cell_same; simpl; auto.
  intros Hu.
  assert (Hc : forall c, In c (columns (concat a b)) ->
                         exists g, In g [a; b] /\ In c (columns g)).
  { intros c Hc. apply concat_columns_In in Hc as [Hc | Hc];
      [exists a | exists b]; simpl; auto. }
  split; apply map_ext_in; intros r Hr; apply map_ext_in; intros c Hcc;
    apply concat_cell_keep; simpl; auto.
Qed.


Lemma unconverted_rows a b kept :
  unconverted [a; b] -> (forall r, In r kept -> In r (rows a)) ->
  unconverted [{| columns := columns a; rows := kept |}; b].
Proof.
  intros Hu Hsub c Hc.
  assert (Hc' : exists f, In f [a; b] /\ In c (columns f)).
  { destruct Hc as (f & [<- | [<- | []]] & H); [exists a | exists b]; simpl; auto. }
  destruct (Hu c Hc') as [Hi | Hp]; [left | right];
    intros f [<- | [<- | []]].
  - destruct (Hi a (or_introl eq_refl)) as [H1 H2]. split; [exact H1 |].
    intros r Hr. apply H2, Hsub, Hr.
  - apply Hi. simpl. auto.
  - intros r Hr. apply (Hp a (or_introl eq_refl)), Hsub, Hr.
  - apply Hp. simpl. auto.
Qed.

(** ** Import of the staged table *)

Lemma zip_map {A B C} (f : A -> B) (g : A -> C) (l : list A) :
  zip (map f l) (map g l) = map (fun x => (f x, g x)) l.
Proof. induction l as [|x l IH]; simpl; [reflexivity |]. now rewrite IH. Qed.

Lemma filter_negb_length {A} (p : A -> bool) (l : list A) :
  (length l - length (List.filter (fun x => negb (p x)) l))%nat
  = length (List.filter p l).
Proof.
  induction l as [|x l IH]; simpl; [reflexivity |].
  pose proof (List.filter_length_le (fun x => negb (p x)) l).
  destruct (p x); simpl; lia.
Qed.

Section ImportFacts.
Context {RT : PyRuntime}.
Import DataEngine.

Lemma key_series_In df col :
  In col (columns df) ->
  key_series df col
  = Some (map (fun r => casefold (cell_text (cell_at (columns df) r col))) (rows df)).
Proof.
  intros H. unfold key_series. rewrite (getcol_In df col H). simpl.
  now rewrite map_map.
Qed.

Lemma key_columns_some e df ks :
  key_columns e df = Some ks ->
  exists c1 k1 c2 k2,
    ks = (c1 :: k1, c2 :: k2)
    /\ find_col_by_candidates (Some df) (_cands e (U "is_yeri_kodu")) = Some (c1 :: k1)
    /\ find_col_by_candidates (Some df) (_cands e (U "masraf_yeri_kodu")) = Some (c2 :: k2)
    /\ In (c1 :: k1) (columns df) /\ In (c2 :: k2) (columns df).
Proof.
  unfold key_columns.
  destruct (find_col_by_candidates _ (_cands e (U "is_yeri_kodu"))) as [[|c1 k1]|] eqn:E1;
    try discriminate.
  destruct (find_col_by_candidates _ (_cands e (U "masraf_yeri_kodu"))) as [[|c2 k2]|] eqn:E2;
    try discriminate.
  intros [= <-]. exists c1, k1, c2, k2. repeat split.
  - exact (find_col_in_columns _ _ _ E1).
  - exact (find_col_in_columns _ _ _ E2).
Qed.

(** With nothing staged the import does nothing; into an empty system
    buffer it puts the staged table. *)
Lemma import_nothing e :
  absent_or_empty (staged_df e) = true ->
  import_staged_into_system e true = Some (e, (0, 0)%nat).
Proof.
  unfold import_staged_into_system, absent_or_empty.
  destruct (staged_df e) as [staged|]; [| reflexivity]. now intros ->.
Qed.

Lemma import_into_empty e staged :
  staged_df e = Some staged -> df_empty staged = false ->
  absent_or_empty (src_df e) = true ->
  import_staged_into_system e true
  = Some (set_src_df e (Some staged), (0%nat, df_len staged)).
Proof.
  intros Hst Hste Hsrc. unfold import_staged_into_system. rewrite Hst, Hste.
  unfold absent_or_empty in Hsrc.
  destruct (src_df e) as [src|]; [| reflexivity]. now rewrite Hsrc.
Qed.

(** The removal step, when both tables have their key columns. *)
Lemma import_with_keys e src staged top_keys bot_keys :
  staged_df e = Some staged -> df_empty staged = false ->
  src_df e = Some src -> df_empty src = false ->
  key_columns e src = Some top_keys ->
  key_columns e staged = Some bot_keys ->
  let among := key_among (table_keys staged bot_keys) (columns src) top_keys in
  import_staged_into_system e true
  = Some (set_src_df e
            (Some (concat {| columns := columns src;
                             rows := List.filter (fun r => negb (among r)) (rows src) |}
                          staged)),
          (length (List.filter among (rows src)), df_len staged)).
Proof.
  intros Hst Hste Hsrc Hsrce Htop Hbot among.
  apply key_columns_some in Htop as (t1 & t1' & t2 & t2' & -> & Et1 & Et2 & It1 & It2).
  apply key_columns_some in Hbot as (b1 & b1' & b2 & b2' & -> & Eb1 & Eb2 & Ib1 & Ib2).
  unfold import_staged_into_system.
  rewrite Hst, Hste, Hsrc, Hsrce, Et1, Et2, Eb1, Eb2.
  rewrite (key_series_In staged _ Ib1), (key_series_In staged _ Ib2). simpl.
  rewrite (key_series_In src _ It1), (key_series_In src _ It2). simpl.
  rewrite !zip_map, map_map. unfold reset_index, loc_mask, df_len. simpl.
  rewrite select_mask_map.
  assert (Hamong : forall r,
             bool_decide
               ((casefold (cell_text (cell_at (columns src) r (t1 :: t1'))),
                 casefold (cell_text (cell_at (columns src) r (t2 :: t2'))))
                ∈ (list_to_set
                     (map (fun x =>
                             (casefold (cell_text (cell_at (columns staged) x (b1 :: b1'))),
                              casefold (cell_text (cell_at (columns staged) x (b2 :: b2')))))
                          (rows staged)) : gset (list N * list N)))
             = among r).
  { intros r. unfold among, key_among, table_keys, row_key. simpl.
    apply bool_decide_ext. apply elem_of_list_to_set. }
  rewrite (List.filter_ext _ (fun r => negb (among r)))
    by (intros r; now rewrite Hamong).
  now rewrite filter_negb_length.
Qed.

(** No removal when a key column is missing on either side. *)
Lemma import_without_keys e src staged :
  staged_df e = Some staged -> df_empty staged = false ->
  src_df e = Some src -> df_empty src = false ->
  key_columns e src = None \/ key_columns e staged = None ->
  import_staged_into_system e true
  = Some (set_src_df e (Some (concat src staged)), (0%nat, df_len staged)).
Proof.
  intros Hst Hste Hsrc Hsrce Hnone.
  unfold import_staged_into_system. rewrite Hst, Hste, Hsrc, Hsrce.
  unfold key_columns in Hnone.
  destruct (find_col_by_candidates (Some src) (_cands e (U "is_yeri_kodu")))
    as [[|? ?]|]; try reflexivity;
  destruct (find_col_by_candidates (Some src) (_cands e (U "masraf_yeri_kodu")))
    as [[|? ?]|]; try reflexivity;
  destruct (find_col_by_candidates (Some staged) (_cands e (U "is_yeri_kodu")))
    as [[|? ?]|]; try reflexivity;
  destruct (find_col_by_candidates (Some staged) (_cands e (U "masraf_yeri_kodu")))
    as [[|? ?]|]; try reflexivity.
  destruct Hnone; discriminate.
Qed.

End ImportFacts.

(** The sample tables hold text under their key columns and integers
    under the third. *)
Lemma sample_import_unconverted :
  unconverted [SampleImport.top; SampleImport.staged].
Proof.
  intros c (f & Hf & Hc).
  assert (Hc' : In c [U "plant"; U "cc"; U "AMOR"])
    by (destruct Hf as [<- | [<- | []]]; exact Hc).
  destruct Hc' as [<- | [<- | [<- | []]]].
  - right. intros g [<- | [<- | []]] r [<- | [<- | []]]; reflexivity.
  - right. intros g [<- | [<- | []]] r [<- | [<- | []]]; reflexivity.
  - left. intros g [<- | [<- | []]];
      (split; [simpl; auto | intros r [<- | [<- | []]]; reflexivity]).
Qed.

(** C1.  [import_staged_into_system] (with [replace_on_keys] at its
    default, true): with the staged buffer empty or absent it returns
    (0, 0) and the engine is unchanged; with a staged table and the
    system buffer empty or absent, the staged table becomes the system
    table and the result is (0, number of staged rows); otherwise, when
    the plant and cost-center columns are resolved on both tables, the
    system rows whose trimmed, case-folded pair occurs among the pairs of
    the staged rows are removed, all staged rows are appended to the
    others, and the result is (number of removed rows, number of staged
    rows); and when a key column is missing on either side, nothing is
    removed and all staged rows are appended.  The new system table has
    the columns of the old one, then those only the staged table has; its
    rows are the rows left, in their order, then the staged rows in
    theirs, every cell with the value it had ([pd.concat] may give an
    integer as a float), NaN under a column its table did not have, and
    the cell itself when the two tables leave nothing to convert.
    Nothing else of the engine changes.  With the plant code 1 held as an
    integer in the system table and the plant codes 1.0 and 2.5 held as
    floats in the staged table, nothing is removed ("1" is not "1.0")
    and the system table holds 1.0, 1.0 and 2.5 afterwards. *)
Theorem import_staged_into_system_cases {RT : PyRuntime} (e : DataEngine.Engine) :
  (absent_or_empty (DataEngine.staged_df e) = true ->
   DataEngine.import_staged_into_system e true = Some (e, (0, 0)%nat))
  /\ (forall staged,
         DataEngine.staged_df e = Some staged -> df_empty staged = false ->
         absent_or_empty (DataEngine.src_df e) = true ->
         exists e',
           DataEngine.import_staged_into_system e true
           = Some (e', (0%nat, df_len staged))
           /\ DataEngine.src_df e' = Some staged
           /\ system_table_only e e')
  /\ (forall src staged top_keys bot_keys,
         DataEngine.staged_df e = Some staged -> df_empty staged = false ->
         DataEngine.src_df e = Some src -> df_empty src = false ->
         key_columns e src = Some top_keys ->
         key_columns e staged = Some bot_keys ->
         let among := key_among (table_keys staged bot_keys) (columns src) top_keys in
         let kept := List.filter (fun r => negb (among r)) (rows src) in
         let removed := List.filter among (rows src) in
         let cols := columns src
                     ++ List.filter (fun c => negb (has_column src c)) (columns staged) in
         (exists e' res top bottom,
             DataEngine.import_staged_into_system e true
             = Some (e', (length removed, df_len staged))
             /\ DataEngine.src_df e' = Some res
             /\ system_table_only e e'
             /\ columns res = cols
             /\ rows res = top ++ bottom
             /\ laid_out cols (columns src) kept top
             /\ laid_out cols (columns staged) (rows staged) bottom
             /\ (unconverted [src; staged] ->
                 top = map (realign cols (columns src)) kept
                 /\ bottom = map (realign cols (columns staged)) (rows staged)))
         /\ (forall r, In r kept <->
                       In r (rows src)
                       /\ ~ row_key (columns src) top_keys r ∈ table_keys staged bot_keys)
         /\ (forall r, In r removed <->
                       In r (rows src)
                       /\ row_key (columns src) top_keys r ∈ table_keys staged bot_keys))
  /\ (forall src staged,
         DataEngine.staged_df e = Some staged -> df_empty staged = false ->
         DataEngine.src_df e = Some src -> df_empty src = false ->
         key_columns e src = None \/ key_columns e staged = None ->
         let cols := columns src
                     ++ List.filter (fun c => negb (has_column src c)) (columns staged) in
         exists e' res top bottom,
           DataEngine.import_staged_into_system e true
           = Some (e', (0%nat, df_len staged))
           /\ DataEngine.src_df e' = Some res
           /\ system_table_only e e'
           /\ columns res = cols
           /\ rows res = top ++ bottom
           /\ laid_out cols (columns src) (rows src) top
           /\ laid_out cols (columns staged) (rows staged) bottom
           /\ (unconverted [src; staged] ->
               top = map (realign cols (columns src)) (rows src)
               /\ bottom = map (realign cols (columns staged)) (rows staged)))
  /\ (exists e',
        @DataEngine.import_staged_into_system ascii_decimal
          (SampleImport.with_tables (Some SampleImport.int_top)
             (Some SampleImport.float_staged)) true
        = Some (e', (0%nat, 2%nat))
        /\ DataEngine.src_df e' = Some SampleImportResult.float_once).
Proof.
  split; [| split; [| split; [| split]]].
  5:{ eexists. split; reflexivity. }
  - apply import_nothing.
  - intros staged Hst Hste Hsrc. eexists. split; [exact (import_into_empty e staged Hst Hste Hsrc) |].
    split; [reflexivity |]. repeat split.
  - intros src staged top_keys bot_keys Hst Hste Hsrc Hsrce Htop Hbot among kept removed cols.
    split.
    + destruct (concat_laid_out {| columns := columns src; rows := kept |} staged)
        as (top & bottom & Hrows & Htopr & Hbot' & Hexact).
      eexists _, _, top, bottom.
      split; [exact (import_with_keys e src staged _ _ Hst Hste Hsrc Hsrce Htop Hbot) |].
      split; [reflexivity |]. split; [repeat split |]. split; [reflexivity |].
      split; [exact Hrows |]. split; [exact Htopr |]. split; [exact Hbot' |].
      intros Hu. apply Hexact. apply unconverted_rows; [exact Hu |].
      intros r Hr. now apply List.filter_In in Hr as [? _].
    + split; intros r; unfold kept, removed; rewrite List.filter_In;
        unfold among, key_among.
      * rewrite negb_true_iff, bool_decide_eq_false. tauto.
      * rewrite bool_decide_eq_true. tauto.
  - intros src staged Hst Hste Hsrc Hsrce Hnone cols.
    destruct (concat_laid_out src staged) as (top & bottom & Hrows & Htopr & Hbot' & Hexact).
    eexists _, _, top, bottom.
    split; [exact (import_without_keys e src staged Hst Hste Hsrc Hsrce Hnone) |].
    split; [reflexivity |]. split; [repeat split |]. split; [reflexivity |].
    split; [exact Hrows |]. split; [exact Htopr |]. split; [exact Hbot' |]. exact Hexact.
Qed.

Lemma import_staged_into_system_cases_witness :
  exists e',
    @DataEngine.import_staged_into_system ascii_only
      (SampleImport.with_tables (Some SampleImport.top) (Some SampleImport.staged)) true
    = Some (e', (1%nat, 2%nat))
    /\ DataEngine.src_df e'
       = Some {| columns := [U "plant"; U "cc"; U "AMOR"];
                 rows := [ [CStr (U "P2"); CStr (U "C2"); CInt 50];
                           [CStr (U " p1"); CStr (U "c1 "); CInt 7];
                           [CStr (U "P3"); CStr (U "C3"); CInt 9] ] |}
    /\ DataEngine.staged_df e' = Some SampleImport.staged.
Proof.
  destruct (@import_staged_into_system_cases ascii_only
              (SampleImport.with_tables (Some SampleImport.top) (Some SampleImport.staged)))
    as (_ & _ & Hkeys & _ & _).
  destruct (Hkeys SampleImport.top SampleImport.staged
              (U "plant", U "cc") (U "plant", U "cc")
              eq_refl eq_refl eq_refl eq_refl eq_refl eq_refl)
    as [(e' & res & top & bottom & Hrun & Hsrc & Hrest & Hcols & Hrows & _ & _ & Hexact) _].
  destruct (Hexact sample_import_unconverted) as [-> ->].
  exists e'. split; [exact Hrun |]. split.
  - rewrite Hsrc. f_equal. destruct res as [c r]. simpl in Hcols, Hrows.
    rewrite Hcols, Hrows. reflexivity.
  - destruct Hrest as (_ & -> & _). reflexivity.
Defined.






Section ImportTwice.
Context {RT : PyRuntime}.
Import DataEngine.




End ImportTwice.




(** * Further properties *)

(** ** Resolving a column *)

Lemma is_prefix_refl s : is_prefix s s = true.
Proof. induction s as [|c s IH]; simpl; [reflexivity |]. now rewrite N.eqb_refl. Qed.

Lemma str_in_refl s : str_in s s = true.
Proof. destruct s; simpl; [reflexivity |]. now rewrite N.eqb_refl, is_prefix_refl. Qed.

Section FindColumnFacts.
Context {RT : PyRuntime}.

(** The two copies of the resolver are the same function. *)
Lemma exact_match_same cands m :
  CostComponents.exact_match cands m = DataEngine.exact_match cands m.
Proof. induction cands as [|c cands IH]; simpl; [reflexivity |]. now rewrite IH. Qed.

Lemma find_col_same df cands :
  CostComponents._find_col_by_candidates df cands
  = DataEngine.find_col_by_candidates df cands.
Proof.
  destruct df as [df|]; [| reflexivity]. simpl.
  now rewrite exact_match_same.
Qed.

Lemma engine_exact_match_some cands cols c :
  DataEngine.exact_match cands
    (dict_comprehension (fun c => CoreSchema.normalize (Some c)) cols) = Some c ->
  exists cand, In cand cands
               /\ CoreSchema.normalize (Some c) = CoreSchema.normalize (Some cand).
Proof.
  induction cands as [|cand cands IH]; simpl; [discriminate |].
  rewrite dict_comprehension_get.
  destruct (last_such _ cols) as [y|] eqn:E.
  - intros [= <-]. apply last_such_some in E as [_ E]. apply ustr_eqb_eq in E.
    exists cand. auto.
  - intros H. destruct (IH H) as (cand' & ? & ?). exists cand'. auto.
Qed.

Lemma engine_exact_match_app before cand after cols :
  (forall c' h, In c' before -> In h cols ->
                has_key (CoreSchema.normalize (Some c')) h = false) ->
  DataEngine.exact_match (before ++ cand :: after)
    (dict_comprehension (fun c => CoreSchema.normalize (Some c)) cols)
  = match last_such (has_key (CoreSchema.normalize (Some cand))) cols with
    | Some h => Some h
    | None =>
        DataEngine.exact_match after
          (dict_comprehension (fun c => CoreSchema.normalize (Some c)) cols)
    end.
Proof.
  intros Hb. induction before as [|b before IH].
  - simpl. now rewrite dict_comprehension_get.
  - assert (E : last_such (fun x => ustr_eqb (CoreSchema.normalize (Some x))
                                      (CoreSchema.normalize (Some b))) cols = None).
    { destruct (last_such (fun x => ustr_eqb (CoreSchema.normalize (Some x))
                                      (CoreSchema.normalize (Some b))) cols)
        as [y|] eqn:E; [| reflexivity].
      apply last_such_some in E as [Hy Ey]. cbv beta in Ey.
      pose proof (Hb b y (or_introl eq_refl) Hy) as Hf. unfold has_key in Hf.
      congruence. }
    simpl in *. rewrite dict_comprehension_get, E.
    apply IH. intros; apply Hb; auto.
Qed.

End FindColumnFacts.

(** X1.  [find_col_by_candidates] finds no column exactly when no column
    of the table has a normalized name that contains the normalized form
    of a candidate; a column it returns is a column of the table whose
    normalized name contains the normalized form of some candidate;
    without a table it returns [None]; and [_find_col_by_candidates] of
    [cost_components.py] returns the same column. *)
Theorem find_col_characterised {RT : PyRuntime}
    (df : DataFrame) (candidates : list ustring) :
  (DataEngine.find_col_by_candidates (Some df) candidates = None
   <-> forall col cand,
         In col (columns df) -> In cand candidates ->
         str_in (CoreSchema.normalize (Some cand)) (CoreSchema.normalize (Some col))
         = false)
  /\ (forall c,
         DataEngine.find_col_by_candidates (Some df) candidates = Some c ->
         In c (columns df)
         /\ exists cand,
              In cand candidates
              /\ str_in (CoreSchema.normalize (Some cand)) (CoreSchema.normalize (Some c))
                 = true)
  /\ DataEngine.find_col_by_candidates None candidates = None
  /\ (forall t,
         CostComponents._find_col_by_candidates t candidates
         = DataEngine.find_col_by_candidates t candidates).
Proof.
  assert (Hsome : forall c,
             DataEngine.find_col_by_candidates (Some df) candidates = Some c ->
             In c (columns df)
             /\ exists cand,
                  In cand candidates
                  /\ str_in (CoreSchema.normalize (Some cand))
                       (CoreSchema.normalize (Some c)) = true).
  { intros c Hc. split; [exact (find_col_in_columns df candidates c Hc) |].
    unfold DataEngine.find_col_by_candidates in Hc.
    destruct (DataEngine.exact_match _ _) as [c'|] eqn:E.
    - injection Hc as ->. apply engine_exact_match_some in E as (cand & Hin & ->).
      exists cand. split; [exact Hin | apply str_in_refl].
    - unfold DataEngine.loose_match in Hc. apply List.find_some in Hc as [_ Hc].
      apply existsb_exists in Hc as (cand & Hin & Hc). eauto. }
  split; [| split; [exact Hsome | split; [reflexivity | intros t; apply find_col_same]]].
  split.
  - intros Hnone col cand Hcol Hcand.
    unfold DataEngine.find_col_by_candidates in Hnone.
    destruct (DataEngine.exact_match _ _); [discriminate |].
    unfold DataEngine.loose_match in Hnone.
    pose proof (List.find_none _ _ Hnone col Hcol) as Hex. cbv beta in Hex.
    destruct (str_in _ _) eqn:E; [| reflexivity].
    exfalso. apply not_true_iff_false in Hex. apply Hex.
    apply existsb_exists. eauto.
  - intros Hall.
    destruct (DataEngine.find_col_by_candidates (Some df) candidates) as [c|] eqn:E;
      [| reflexivity].
    destruct (Hsome c eq_refl) as (Hc & cand & Hcand & Hin).
    rewrite (Hall c cand Hc Hcand) in Hin. discriminate.
Qed.

(** X2.  When [c] is the first candidate, in the order of the list, whose
    normalized form is the normalized name of some column, the resolver
    returns the last column that has this normalized name: an exact match
    on an earlier candidate is preferred to any other match, and of
    several columns with the same normalized name the last one is
    taken. *)
Theorem find_col_first_exact_candidate {RT : PyRuntime}
    (df : DataFrame) (candidates : list ustring) (c : ustring) :
  first_matching (map (fun x => CoreSchema.normalize (Some x)) candidates)
    (columns df) c ->
  exists col,
    DataEngine.find_col_by_candidates (Some df) candidates = Some col
    /\ last_such (has_key c) (columns df) = Some col
    /\ CoreSchema.normalize (Some col) = c.
Proof.
  intros (before & after & Hc & Hb & h & Hh & Hk).
  apply map_eq_app in Hc as (cb & rest & -> & <- & Hrest).
  destruct rest as [|cand ca]; [discriminate |].
  change (CoreSchema.normalize (Some cand)
          :: map (fun x => CoreSchema.normalize (Some x)) ca = c :: after) in Hrest.
  injection Hrest as Hcand _. subst c.
  change (CoreSchema.normalize_str cand) with (CoreSchema.normalize (Some cand)) in *.
  destruct (last_such_exists _ _ _ Hh Hk) as [col Hcol].
  exists col. split; [| split; [exact Hcol |]].
  - unfold DataEngine.find_col_by_candidates.
    rewrite engine_exact_match_app, Hcol; [reflexivity |].
    intros c' h' Hc' Hh'. apply Hb; [| exact Hh'].
    now apply (in_map (fun x => CoreSchema.normalize (Some x))).
  - apply last_such_some in Hcol as [_ E]. now apply ustr_eqb_eq in E.
Qed.

Lemma find_col_first_exact_candidate_witness :
  exists col,
    @DataEngine.find_col_by_candidates ascii_only (Some SampleFilter.table)
      [U "is yeri"; U "Plant"; U "cc"] = Some col
    /\ last_such (@has_key ascii_only (U "plant")) (columns SampleFilter.table) = Some col
    /\ @CoreSchema.normalize ascii_only (Some col) = U "plant".
Proof.
  apply (@find_col_first_exact_candidate ascii_only SampleFilter.table
           [U "is yeri"; U "Plant"; U "cc"] (U "plant")).
  exists [U "is yeri"], [U "cc"]. split; [reflexivity |]. split.
  - intros c' h [<- | []] [<- | [<- | []]]; reflexivity.
  - exists (U "plant"). split; [left; reflexivity | reflexivity].
Defined.

(** ** The mapping is over the schema and the observed headers *)

Section MappingSound.
Context {RT : PyRuntime}.
Variable get_close_matches : ustring -> list ustring -> list ustring.
Import CoreSchema.

Lemma exact_pass_in cands headers h :
  exact_pass cands (dict_comprehension (fun h => normalize (Some h)) headers) = Some h ->
  In h headers.
Proof.
  induction cands as [|c cands IH]; simpl; [discriminate |].
  rewrite dict_comprehension_get.
  destruct (last_such _ headers) as [y|] eqn:E; [| exact IH].
  intros [= <-]. now apply last_such_some in E as [? _].
Qed.

Lemma fuzzy_pass_in keys cands headers h :
  fst (fuzzy_pass get_close_matches keys cands
         (dict_comprehension (fun h => normalize (Some h)) headers)) = Some h ->
  In h headers.
Proof.
  induction keys as [|nh keys IH]; simpl; [discriminate |].
  destruct (get_close_matches nh cands).
  - destruct (fuzzy_pass _ _ _ _) as [hit asked]. exact IH.
  - simpl. rewrite dict_comprehension_get. intros E.
    now apply last_such_some in E as [? _].
Qed.

Lemma suggest_field_in headers canonical meta h :
  fst (suggest_field get_close_matches
         (dict_comprehension (fun h => normalize (Some h)) headers) canonical meta)
  = Some h ->
  In h headers.
Proof.
  unfold suggest_field.
  destruct (exact_pass _ _) as [h'|] eqn:E.
  - simpl. intros [= <-]. exact (exact_pass_in _ _ _ E).
  - apply fuzzy_pass_in.
Qed.

Lemma mapping_keys (f : ustring -> FieldMeta -> option ustring) schema m0 :
  NoDup (dict_keys m0 ++ dict_keys schema) ->
  dict_keys (foldl (fun mapping '(canonical, meta) =>
                      dict_set mapping canonical (f canonical meta)) m0 schema)
  = dict_keys m0 ++ dict_keys schema.
Proof.
  revert m0. induction schema as [|[c mt] schema IH]; intros m0 Hnd; simpl.
  - now rewrite app_nil_r.
  - assert (Hc : dict_has m0 c = false).
    { unfold dict_has. destruct (dict_get m0 c) eqn:E; [| reflexivity].
      exfalso. apply NoDup_app in Hnd as (_ & Hd & _). apply (Hd c).
      - clear -E. induction m0 as [|[k v] m0 IH]; simpl in E; [discriminate |].
        destruct (ustr_eqb k c) eqn:Ek.
        + apply ustr_eqb_eq in Ek. subst. left.
        + right. now apply IH.
      - left. }
    rewrite IH; rewrite dict_keys_set, Hc.
    + now rewrite <- app_assoc.
    + rewrite <- app_assoc. exact Hnd.
Qed.

Lemma mapping_value (f : ustring -> FieldMeta -> option ustring) schema m0 k v :
  dict_get (foldl (fun mapping '(canonical, meta) =>
                     dict_set mapping canonical (f canonical meta)) m0 schema) k
  = Some v ->
  dict_get m0 k = Some v \/ exists meta, In (k, meta) schema /\ v = f k meta.
Proof.
  revert m0. induction schema as [|[c mt] schema IH]; intros m0; simpl; [auto |].
  intros H. destruct (IH _ H) as [H0 | (meta & Hin & ->)].
  - rewrite dict_get_set in H0. destruct (ustr_eqb c k) eqn:E; [| auto].
    apply ustr_eqb_eq in E. subst c. injection H0 as <-. right. exists mt. auto.
  - right. exists meta. auto.
Qed.

End MappingSound.

(** X3.  [suggest_mapping] gives one entry per field of the schema, in
    the order of the schema, and a header it assigns to a field is one of
    the observed headers, whatever the fuzzy search answers. *)
Theorem suggest_mapping_over_schema_and_headers {RT : PyRuntime}
    (get_close_matches : ustring -> list ustring -> list ustring)
    (schema : dict CoreSchema.FieldMeta) (headers : list ustring) :
  NoDup (dict_keys schema) ->
  dict_keys (CoreSchema.suggest_mapping get_close_matches schema headers)
  = dict_keys schema
  /\ forall canonical h,
       dict_get (CoreSchema.suggest_mapping get_close_matches schema headers) canonical
       = Some (Some h) ->
       In h headers.
Proof.
  intros Hnd. unfold CoreSchema.suggest_mapping. split.
  - exact (mapping_keys
             (fun canonical meta =>
                fst (CoreSchema.suggest_field get_close_matches _ canonical meta))
             schema [] Hnd).
  - intros canonical h H.
    apply (mapping_value
             (fun canonical meta =>
                fst (CoreSchema.suggest_field get_close_matches _ canonical meta)))
      in H as [H | (meta & _ & H)]; [discriminate |].
    symmetry in H. exact (suggest_field_in _ _ _ _ _ H).
Qed.

Lemma suggest_mapping_over_schema_and_headers_witness :
  dict_keys (@CoreSchema.suggest_mapping ascii_only (fun _ l => l)
               CoreSchema.DEFAULT_SCHEMA [U "Plant"; U "cost centre"])
  = dict_keys CoreSchema.DEFAULT_SCHEMA
  /\ forall canonical h,
       dict_get (@CoreSchema.suggest_mapping ascii_only (fun _ l => l)
                   CoreSchema.DEFAULT_SCHEMA [U "Plant"; U "cost centre"]) canonical
       = Some (Some h) ->
       In h [U "Plant"; U "cost centre"].
Proof.
  apply (@suggest_mapping_over_schema_and_headers ascii_only (fun _ l => l)
           CoreSchema.DEFAULT_SCHEMA [U "Plant"; U "cost centre"]).
  vm_compute. repeat constructor; intros Hin;
    repeat (apply list_elem_of_In in Hin; destruct Hin as [Hin | Hin];
            [discriminate Hin | apply list_elem_of_In in Hin]);
    try (apply list_elem_of_In in Hin; destruct Hin).
Defined.

(** ** Filtering with the resolved columns *)

Lemma filter_sublist {A} (p : A -> bool) (l : list A) : sublist (List.filter p l) l.
Proof.
  induction l as [|x l IH]; simpl; [constructor |].
  destruct (p x); now constructor.
Qed.

Lemma filter_true {A} (l : list A) : List.filter (fun _ => true) l = l.
Proof. induction l as [|x l IH]; simpl; [reflexivity |]. now rewrite IH. Qed.

Section ResolvedFilter.
Context {RT : PyRuntime}.

Lemma filter_by_codes_rows df plant_code cctr_code found :
  df_empty df = false ->
  column_of df (CostComponents.plant_col found) ->
  column_of df (CostComponents.cctr_col found) ->
  CostComponents.filter_by_codes (Some df) plant_code cctr_code found
  = Some {| columns := columns df;
            rows := List.filter
                      (fun r =>
                         code_constraint df plant_code (CostComponents.plant_col found) r
                         && code_constraint df cctr_code (CostComponents.cctr_col found) r)
                      (rows df) |}.
Proof.
  intros Hne Hp Hc.
  unfold CostComponents.filter_by_codes. rewrite Hne.
  unfold df_len. rewrite (repeat_true_map (rows df)).
  rewrite (constraint_step df plant_code _ (fun _ => true) Hp). simpl.
  rewrite (constraint_step df cctr_code _ _ Hc). simpl.
  unfold loc_mask. now rewrite select_mask_map.
Qed.

Lemma resolve_columns_column_of df :
  column_of df (CostComponents.plant_col (CostComponents.resolve_columns df))
  /\ column_of df (CostComponents.cctr_col (CostComponents.resolve_columns df)).
Proof.
  unfold CostComponents.resolve_columns.
  cbn [CostComponents.plant_col CostComponents.cctr_col].
  rewrite !find_col_same. split; apply find_col_column_of.
Qed.

End ResolvedFilter.

(** X4.  With the columns [resolve_columns] finds on the table itself,
    [filter_by_codes] does not raise; on a table that is not empty the
    result has the columns of the table and its rows are rows of the
    table in their order, and with both codes empty or absent it is the
    whole table; on an empty table it is the empty table. *)
Theorem filter_by_codes_with_resolved_columns {RT : PyRuntime}
    (df : DataFrame) (plant_code cctr_code : option ustring) :
  exists res,
    CostComponents.filter_by_codes (Some df) plant_code cctr_code
      (CostComponents.resolve_columns df) = Some res
    /\ (df_empty df = true -> res = empty_frame)
    /\ (df_empty df = false ->
        columns res = columns df
        /\ sublist (rows res) (rows df)
        /\ (truthy plant_code = false -> truthy cctr_code = false -> res = df)).
Proof.
  destruct (df_empty df) eqn:Hne.
  - exists empty_frame. unfold CostComponents.filter_by_codes. rewrite Hne.
    repeat split; discriminate.
  - eexists. split.
    + destruct (resolve_columns_column_of df) as [Hp Hc].
      exact (filter_by_codes_rows df plant_code cctr_code _ Hne Hp Hc).
    + split; [discriminate |]. intros _. split; [reflexivity |].
      split; [apply filter_sublist |].
      intros Hp Hc. simpl.
      rewrite (List.filter_ext _ (fun _ => true)), filter_true; [now destruct df |].
      intros r. unfold code_constraint.
      destruct plant_code as [[|]|], cctr_code as [[|]|]; try discriminate; reflexivity.
Qed.

(** ** Assigning columns *)

Lemma set_nth_same {A} (j : nat) (x pad : A) (r : list A) :
  set_nth j x pad r !! j = Some x.
Proof.
  revert r. induction j as [|j IH]; intros [|y r]; simpl; try reflexivity; apply IH.
Qed.

Lemma index_of_app_new c cols :
  index_of c cols = None -> index_of c (cols ++ [c]) = Some (length cols).
Proof.
  induction cols as [|d cols IH]; simpl.
  - now rewrite ustr_eqb_refl.
  - destruct (ustr_eqb d c); [discriminate |].
    destruct (index_of c cols) eqn:E; [discriminate |].
    intros _. now rewrite IH.
Qed.

Lemma number_rows_values {A B} (f : nat -> B) k (rws : list A) :
  map (fun '(i, _) => f i) (number_rows k rws) = map f (seq k (length rws)).
Proof.
  revert k. induction rws as [|r rws IH]; intros k; simpl; [reflexivity |].
  now rewrite IH.
Qed.

Lemma assigned_cells_scalar_map (c : cell) n :
  map (fun _ : nat => c) (seq 0 n) = repeat c n.
Proof.
  generalize 0%nat. induction n as [|n IH]; intros k; simpl; [reflexivity |].
  now rewrite IH.
Qed.

Lemma assigned_cells_fits l : assigned_cells (VSeries l) (length l) = l.
Proof.
  simpl. apply list_eq. intros i. rewrite list_lookup_fmap.
  destruct (decide (i < length l)%nat) as [Hi | Hi].
  - rewrite lookup_seq_lt by exact Hi. simpl.
    destruct (l !! i) eqn:E; [reflexivity |].
    apply lookup_ge_None in E. lia.
  - rewrite lookup_seq_ge by lia. symmetry. apply lookup_ge_None. lia.
Qed.

Lemma length_assigned_cells v n : length (assigned_cells v n) = n.
Proof.
  destruct v; simpl; [apply repeat_length |]. now rewrite length_map, length_seq.
Qed.

(** The column just assigned holds the cells of the value. *)
Lemma setitem_getcol_same df name v :
  getcol (df_setitem df name v) name = Some (assigned_cells v (df_len df)).
Proof.
  assert (Hvals : forall j cols,
             index_of name cols = Some j ->
             map (fun r => cell_at cols r name)
               (map (fun '(i, r) =>
                       set_nth j (match v with
                                  | VScalar c => c
                                  | VSeries l => default NaN (l !! i)
                                  end) NaN r)
                    (number_rows 0 (rows df)))
             = assigned_cells v (df_len df)).
  { intros j cols Hj. rewrite map_map.
    transitivity
      (map (fun '(i, _) => match v with
                           | VScalar c => c
                           | VSeries l => default NaN (l !! i)
                           end)
           (number_rows 0 (rows df))).
    - apply map_ext. intros [i r]. unfold cell_at. now rewrite Hj, set_nth_same.
    - rewrite (number_rows_values
                 (fun i => match v with
                           | VScalar c => c
                           | VSeries l => default NaN (l !! i)
                           end)).
      unfold df_len.
      destruct v; [apply assigned_cells_scalar_map | reflexivity]. }
  unfold getcol, has_column, df_setitem.
  destruct (index_of name (columns df)) as [j|] eqn:Ej; simpl.
  - rewrite Ej. f_equal. now apply Hvals.
  - rewrite (index_of_app_new _ _ Ej). f_equal. apply Hvals.
    now apply index_of_app_new.
Qed.

Lemma assign_fits df name v : fits v (df_len df) -> df_assign df name v = df_setitem df name v.
Proof.
  unfold df_assign, fits, df_len. destruct (rows df) eqn:E; [| reflexivity].
  destruct v as [c | [|x l]]; try reflexivity. discriminate.
Qed.

Lemma getcol_length df c col : getcol df c = Some col -> length col = df_len df.
Proof.
  unfold getcol. destruct (has_column df c); [| discriminate].
  intros [= <-]. apply length_map.
Qed.

(** A run of assignments of values that fit the table. *)
Lemma assign_list (val : ustring -> pyvalue) names out :
  NoDup names ->
  (forall c, In c names -> fits (val c) (df_len out)) ->
  let res := foldl (fun out c => df_assign out c (val c)) out names in
  df_len res = df_len out
  /\ columns res
     = columns out ++ List.filter (fun c => negb (has_column out c)) names
  /\ (forall c, In c names -> getcol res c = Some (assigned_cells (val c) (df_len out)))
  /\ (forall c, ~ In c names -> getcol res c = getcol out c).
Proof.
  revert out. induction names as [|name names IH]; intros out Hnd Hfit; simpl.
  - rewrite app_nil_r. split; [reflexivity |]. split; [reflexivity |].
    split; [intros c [] | reflexivity].
  - apply NoDup_cons in Hnd as [Hname Hnd]. rewrite list_elem_of_In in Hname.
    rewrite (assign_fits out name) by (apply Hfit; now left).
    set (out1 := df_setitem out name (val name)).
    assert (Hlen1 : df_len out1 = df_len out) by apply setitem_len.
    destruct (IH out1 Hnd) as (Hlen & Hcols & Hin & Hout).
    { intros c Hc. rewrite Hlen1. apply Hfit. now right. }
    split; [congruence |]. split; [| split].
    + rewrite Hcols. unfold out1. rewrite setitem_columns.
      assert (Hf : forall c, In c names ->
                     has_column (df_setitem out name (val name)) c = has_column out c).
      { intros c Hc. unfold has_column. rewrite setitem_columns.
        destruct (has_column out name) eqn:E; [reflexivity |].
        rewrite index_of_app_other; [reflexivity |]. intros ->. tauto. }
      rewrite (List.filter_ext_in _ (fun c => negb (has_column out c)) names)
        by (intros c Hc; now rewrite (Hf c Hc)).
      destruct (has_column out name); simpl; [reflexivity |].
      now rewrite <- app_assoc.
    + intros c [<- | Hc].
      * rewrite (Hout _ Hname). unfold out1. now rewrite setitem_getcol_same.
      * rewrite (Hin c Hc). now rewrite Hlen1.
    + intros c Hc. rewrite Hout by tauto. apply setitem_getcol_other.
      intros ->. tauto.
Qed.

(** ** The components table *)

Lemma assign_keep out name v :
  fits v (df_len out) ->
  df_len (df_assign out name v) = df_len out
  /\ (exists more, columns (df_assign out name v) = columns out ++ more)
  /\ forall c, c <> name -> getcol (df_assign out name v) c = getcol out c.
Proof.
  intros Hfit. rewrite (assign_fits out name v Hfit).
  split; [apply setitem_len |]. split.
  - rewrite setitem_columns. destruct (has_column out name);
      [exists []; now rewrite app_nil_r | now exists [name]].
  - intros c Hc. now apply setitem_getcol_other.
Qed.

(** An optional copy of a column of [df] into [out]. *)
Lemma copy_keep df out name (src : option (list cell)) :
  df_len out = df_len df ->
  (forall col, src = Some col -> length col = df_len df) ->
  let out' := match src with
              | Some col => df_assign out name (VSeries col)
              | None => out
              end in
  df_len out' = df_len df
  /\ (exists more, columns out' = columns out ++ more)
  /\ forall c, c <> name -> getcol out' c = getcol out c.
Proof.
  intros Hlen Hsrc. destruct src as [col|]; simpl.
  - destruct (assign_keep out name (VSeries col)) as (H1 & H2 & H3).
    { simpl. rewrite Hlen. now apply Hsrc. }
    split; [congruence | auto].
  - split; [exact Hlen |]. split; [exists []; now rewrite app_nil_r | reflexivity].
Qed.

(** The table [extract_components] builds: the component columns first,
    each assigned from its source column or from 0.0. *)
Lemma extract_components_shape {RT : PyRuntime}
    (df : DataFrame) (found : CostComponents.FoundColumns) :
  let out := CostComponents.extract_components df found in
  df_len out = df_len df
  /\ (exists more, columns out = CostComponents.COMPONENTS ++ more)
  /\ forall comp,
       In comp CostComponents.COMPONENTS ->
       getcol out comp
       = Some (assigned_cells
                 match default None (dict_get (CostComponents.comp_cols found) comp) with
                 | Some ((_ :: _) as src) =>
                     match getcol df src with
                     | Some col =>
                         VSeries (map (fun x => CFloat (CostComponents._to_float x)) col)
                     | None => VScalar (CFloat zero_float)
                     end
                 | _ => VScalar (CFloat zero_float)
                 end
                 (df_len df)).
Proof.
  intros out. unfold CostComponents.extract_components, reset_index in out.
  set (val := fun comp =>
         match default None (dict_get (CostComponents.comp_cols found) comp) with
         | Some ((_ :: _) as src) =>
             match getcol df src with
             | Some col => VSeries (map (fun x => CFloat (CostComponents._to_float x)) col)
             | None => VScalar (CFloat zero_float)
             end
         | _ => VScalar (CFloat zero_float)
         end) in *.
  set (out1 := foldl (fun out comp => df_assign out comp (val comp))
                 (index_frame df) CostComponents.COMPONENTS) in *.
  assert (Hlen0 : df_len (index_frame df) = df_len df)
    by (unfold df_len, index_frame; simpl; apply length_map).
  assert (Hfit : forall c, In c CostComponents.COMPONENTS ->
                           fits (val c) (df_len (index_frame df))).
  { intros c _. unfold val.
    destruct (default None _) as [[|a src]|]; simpl; try exact I.
    destruct (getcol df (a :: src)) as [col|] eqn:E; simpl; [| exact I].
    rewrite length_map, Hlen0. exact (getcol_length _ _ _ E). }
  assert (Hnd : NoDup CostComponents.COMPONENTS).
  { vm_compute. repeat constructor; intros Hin;
      repeat (apply list_elem_of_In in Hin; destruct Hin as [Hin | Hin];
              [discriminate Hin | apply list_elem_of_In in Hin]);
      try (apply list_elem_of_In in Hin; destruct Hin). }
  destruct (assign_list val CostComponents.COMPONENTS (index_frame df) Hnd Hfit)
    as (Hlen1 & Hcols1 & Hin1 & _).
  fold out1 in Hlen1, Hcols1, Hin1. rewrite Hlen0 in Hlen1, Hin1.
  change (columns out1 = CostComponents.COMPONENTS) in Hcols1.
  (* the three copies *)
  destruct (copy_keep df out1 (U "__kaynak_dosya__") (getcol df (U "__kaynak_dosya__"))
              Hlen1 (getcol_length df _)) as (Hlen2 & [m2 Hcols2] & Hget2).
  set (out2 := match getcol df (U "__kaynak_dosya__") with
               | Some col => df_assign out1 (U "__kaynak_dosya__") (VSeries col)
               | None => out1
               end) in *.
  set (src3 := match CostComponents.plant_col found with
               | Some ((_ :: _) as c) => getcol df c
               | _ => None
               end).
  destruct (copy_keep df out2 (U "İş Yeri Kodu") src3 Hlen2) as (Hlen3 & [m3 Hcols3] & Hget3).
  { unfold src3. intros col. destruct (CostComponents.plant_col found) as [[|]|];
      try discriminate. apply getcol_length. }
  set (out3 := match src3 with
               | Some col => df_assign out2 (U "İş Yeri Kodu") (VSeries col)
               | None => out2
               end) in *.
  set (src4 := match CostComponents.cctr_col found with
               | Some ((_ :: _) as c) => getcol df c
               | _ => None
               end).
  destruct (copy_keep df out3 (U "Masraf Yeri Kodu") src4 Hlen3) as (Hlen4 & [m4 Hcols4] & Hget4).
  { unfold src4. intros col. destruct (CostComponents.cctr_col found) as [[|]|];
      try discriminate. apply getcol_length. }
  set (out4 := match src4 with
               | Some col => df_assign out3 (U "Masraf Yeri Kodu") (VSeries col)
               | None => out3
               end) in *.
  assert (Hout : out = out4).
  { unfold out, out4, out3, src4, src3, out2.
    destruct (CostComponents.plant_col found) as [[|]|],
             (CostComponents.cctr_col found) as [[|]|];
      try reflexivity;
      repeat match goal with |- context [getcol df ?c] => destruct (getcol df c) end;
      reflexivity. }
  rewrite Hout. clear Hout out. clearbody out4 out3 out2 out1 src3 src4.
  split; [exact Hlen4 |]. split.
  - exists (m2 ++ m3 ++ m4). rewrite Hcols4, Hcols3, Hcols2, Hcols1.
    now rewrite <- !app_assoc.
  - intros comp Hcomp.
    assert (Hne : comp <> U "__kaynak_dosya__" /\ comp <> U "İş Yeri Kodu"
                  /\ comp <> U "Masraf Yeri Kodu").
    { destruct Hcomp as [<- | [<- | [<- | [<- | [<- | []]]]]];
        repeat split; discriminate. }
    destruct Hne as (N2 & N3 & N4).
    rewrite (Hget4 comp N4), (Hget3 comp N3), (Hget2 comp N2), (Hin1 comp Hcomp).
    reflexivity.
Qed.

(** X5.  [extract_components] gives a table with one row per row of the
    input, whose first columns are AMOR, DIS, EDIS, ENER and GUG in this
    order; every cell of these columns is a float: the coercion of the
    cell of the source column where the component has a source column in
    the input, and 0.0 in every row otherwise. *)
Theorem extract_components_numeric {RT : PyRuntime}
    (df : DataFrame) (found : CostComponents.FoundColumns) :
  let out := CostComponents.extract_components df found in
  df_len out = df_len df
  /\ (exists more, columns out = CostComponents.COMPONENTS ++ more)
  /\ forall comp,
       In comp CostComponents.COMPONENTS ->
       exists vals,
         getcol out comp = Some vals
         /\ length vals = df_len df
         /\ (forall x, In x vals -> exists f, x = CFloat f)
         /\ (forall src col,
                dict_get (CostComponents.comp_cols found) comp = Some (Some src) ->
                src <> [] -> getcol df src = Some col ->
                vals = map (fun x => CFloat (CostComponents._to_float x)) col)
         /\ ((forall src,
                 dict_get (CostComponents.comp_cols found) comp = Some (Some src) ->
                 src <> [] -> getcol df src = None) ->
             vals = repeat (CFloat zero_float) (df_len df)).
Proof.
  intros out.
  destruct (extract_components_shape df found) as (Hlen & Hcols & Hget).
  cbn zeta in Hlen, Hcols, Hget. fold out in Hlen, Hcols, Hget. clearbody out.
  split; [exact Hlen |]. split; [exact Hcols |].
  intros comp Hcomp. rewrite (Hget comp Hcomp).
    eexists. split; [reflexivity |]. split; [apply length_assigned_cells |].
    destruct (dict_get (CostComponents.comp_cols found) comp) as [[[|a src]|]|] eqn:Eg;
      simpl default; cbv beta iota.
    + (* an empty name *)
      split; [| split].
      * intros x Hx. apply repeat_spec in Hx. eauto.
      * intros src col [= <-]. congruence.
      * reflexivity.
    + destruct (getcol df (a :: src)) as [col|] eqn:Ec.
      * pose proof (getcol_length _ _ _ Ec) as Hl.
        assert (Hv : assigned_cells
                       (VSeries (map (fun x => CFloat (CostComponents._to_float x)) col))
                       (df_len df)
                     = map (fun x => CFloat (CostComponents._to_float x)) col).
        { rewrite <- Hl, <- (length_map (fun x => CFloat (CostComponents._to_float x)) col).
          apply assigned_cells_fits. }
        rewrite Hv. split; [| split].
        -- intros x (y & <- & _)%in_map_iff. eauto.
        -- intros src' col' [= <-] _ Hc. congruence.
        -- intros Hno. specialize (Hno (a :: src) eq_refl ltac:(discriminate)).
           congruence.
      * split; [| split].
        -- intros x Hx. apply repeat_spec in Hx. eauto.
        -- intros src' col' [= <-] _ Hc. congruence.
        -- reflexivity.
    + split; [| split].
      * intros x Hx. apply repeat_spec in Hx. eauto.
      * intros src col [=].
      * reflexivity.
    + split; [| split].
      * intros x Hx. apply repeat_spec in Hx. eauto.
      * intros src col [=].
      * reflexivity.
Qed.

(** ** Numeric coercion: what [float] accepts *)

Section FloatFacts.
Context {RT : PyRuntime}.
Import CostComponents.

Lemma count_none (ok : N -> bool) l x :
  forallb ok l = true -> ok x = false -> count_occ N.eq_dec l x = 0%nat.
Proof.
  intros Hl Hx. apply count_occ_not_In. intros Hin.
  rewrite forallb_forall in Hl. specialize (Hl x Hin). congruence.
Qed.

Lemma count_map_same (f : N -> N) x l :
  (forall c, f c = x <-> c = x) ->
  count_occ N.eq_dec (map f l) x = count_occ N.eq_dec l x.
Proof.
  intros Hf. induction l as [|c l IH]; simpl; [reflexivity |].
  destruct (N.eq_dec (f c) x) as [E | E], (N.eq_dec c x) as [E' | E'];
    rewrite IH; try reflexivity.
  - exfalso. apply E', (proj1 (Hf c)), E.
  - exfalso. apply E, (proj2 (Hf c)), E'.
Qed.

(** A digit part is made of digits and underscores. *)
Lemma digitpart_split s :
  exists pre, s = pre ++ snd (digitpart s)
              /\ forallb (fun c => is_09 c || (c =? 95)) pre = true.
Proof.
  remember (length s) as n eqn:Hn. revert s Hn.
  induction n as [n IH] using lt_wf_ind. intros s Hn.
  destruct s as [|c s']; [now exists [] |].
  cbn [digitpart]. destruct (is_09 c) eqn:Ec; [| now exists []].
  destruct s' as [|u s''].
  { exists [c]. simpl. now rewrite Ec. }
  destruct ((u =? 95) && match s'' with d :: _ => is_09 d | [] => false end) eqn:Eu.
  - destruct (IH (length s'') ltac:(simpl in Hn; lia) s'' eq_refl) as (pre & Hs & Hp).
    destruct (digitpart s'') as [ds r]. simpl in Hs. simpl snd.
    exists (c :: u :: pre). split; [simpl; now rewrite <- Hs |].
    apply andb_true_iff in Eu as [Eu _]. simpl. now rewrite Ec, Eu, orb_true_r.
  - destruct (IH (length (u :: s'')) ltac:(simpl in Hn |- *; lia) (u :: s'') eq_refl)
      as (pre & Hs & Hp).
    destruct (digitpart (u :: s'')) as [ds r]. simpl in Hs. simpl snd.
    exists (c :: pre). split; [simpl; now rewrite <- Hs |].
    simpl. now rewrite Ec.
Qed.

Lemma digitpart_all s ds :
  digitpart s = (ds, []) -> forallb (fun c => is_09 c || (c =? 95)) s = true.
Proof.
  intros E. destruct (digitpart_split s) as (pre & Hs & Hp).
  rewrite E in Hs. simpl in Hs. rewrite app_nil_r in Hs. now subst.
Qed.

(** An exponent has neither a dot nor a comma. *)
Lemma exponent_chars s z x :
  exponent s = Some z -> x = 44 \/ x = 46 -> count_occ N.eq_dec s x = 0%nat.
Proof.
  intros E Hx. apply count_occ_not_In. intros Hin.
  destruct s as [|e s']; [destruct Hin |].
  unfold exponent in E.
  destruct ((e =? 101) || (e =? 69)) eqn:Ee; [| discriminate].
  destruct Hin as [-> | Hin].
  { destruct Hx as [-> | ->]; discriminate. }
  assert (Hs : forall t, match digitpart t with
                         | ((_ :: _) as ds, []) => True
                         | _ => False
                         end -> ~ In x t).
  { intros t Ht Hin'. destruct (digitpart t) as [[|d ds] [|r0 r]] eqn:Ed; try contradiction.
    pose proof (digitpart_all _ _ Ed) as Hall. rewrite forallb_forall in Hall.
    specialize (Hall x Hin'). destruct Hx as [-> | ->]; discriminate. }
  destruct s' as [|sg t].
  - destruct Hin.
  - destruct (sg =? 45) eqn:E45; [| destruct (sg =? 43) eqn:E43].
    + destruct Hin as [-> | Hin]; [destruct Hx as [-> | ->]; discriminate |].
      apply (Hs t); [| exact Hin].
      destruct (digitpart t) as [[|d ds] [|r0 r]]; try discriminate; exact I.
    + destruct Hin as [-> | Hin]; [destruct Hx as [-> | ->]; discriminate |].
      apply (Hs t); [| exact Hin].
      destruct (digitpart t) as [[|d ds] [|r0 r]]; try discriminate; exact I.
    + apply (Hs (sg :: t)); [| exact Hin].
      destruct (digitpart (sg :: t)) as [[|d ds] [|r0 r]]; try discriminate; exact I.
Qed.

Lemma digits_no_sep pre x :
  forallb (fun c => is_09 c || (c =? 95)) pre = true -> x = 44 \/ x = 46 ->
  count_occ N.eq_dec pre x = 0%nat.
Proof.
  intros Hp Hx. apply (count_none _ _ _ Hp). destruct Hx as [-> | ->]; reflexivity.
Qed.

(** A decimal literal has no comma and at most one dot. *)
Lemma unsigned_literal_chars s q :
  unsigned_literal s = Some q ->
  count_occ N.eq_dec s 44 = 0%nat /\ (count_occ N.eq_dec s 46%N <= 1)%nat.
Proof.
  unfold unsigned_literal. intros E.
  destruct (digitpart_split s) as (pre & Hs & Hp).
  destruct (digitpart s) as [ip r]. simpl in Hs.
  assert (Hr : forall x, x = 44 \/ x = 46 ->
                 count_occ N.eq_dec s x = count_occ N.eq_dec r x).
  { intros x Hx. rewrite Hs at 1. rewrite count_occ_app, (digits_no_sep pre x Hp Hx).
    reflexivity. }
  destruct r as [|d t].
  - rewrite !Hr by auto. simpl. lia.
  - destruct (d =? 46) eqn:Ed.
    + apply N.eqb_eq in Ed. subst d.
      destruct (digitpart_split t) as (pre2 & Ht & Hp2).
      destruct (digitpart t) as [fp r']. simpl in Ht.
      assert (Er : exists e, exponent r' = Some e).
      { destruct ip, fp; try discriminate;
          destruct (exponent r') as [e|]; try discriminate; eauto. }
      destruct Er as [e Er].
      rewrite !Hr by auto. simpl.
      destruct (N.eq_dec 46 44) as [? | _]; [discriminate |].
      destruct (N.eq_dec 46 46) as [_ | ?]; [| congruence].
      rewrite Ht, !count_occ_app, !(digits_no_sep pre2) by auto.
      rewrite !(exponent_chars r' e) by auto. lia.
    + assert (Er : exists e, exponent (d :: t) = Some e).
      { destruct ip; try discriminate;
          destruct (exponent (d :: t)) as [e|]; try discriminate; eauto. }
      destruct Er as [e Er].
      rewrite !Hr by auto. rewrite !(exponent_chars _ e _ Er) by auto. lia.
Qed.

Lemma drop_spaces_count s x :
  c_isspace x = false ->
  count_occ N.eq_dec (drop_spaces s) x = count_occ N.eq_dec s x.
Proof.
  intros Hx. induction s as [|c s IH]; simpl; [reflexivity |].
  destruct (c_isspace c) eqn:Ec; [| reflexivity].
  rewrite IH. destruct (N.eq_dec c x) as [-> | _]; [congruence | reflexivity].
Qed.

Lemma float_trim_count s x :
  c_isspace x = false ->
  count_occ N.eq_dec (float_trim s) x = count_occ N.eq_dec s x.
Proof.
  intros Hx. unfold float_trim.
  now rewrite count_occ_rev, drop_spaces_count, count_occ_rev, drop_spaces_count.
Qed.

Lemma lower_sep c x : x = 44 \/ x = 46 -> ascii_lower c = x <-> c = x.
Proof.
  intros Hx. unfold ascii_lower. destruct (is_AZ c) eqn:Ec; [| reflexivity].
  unfold is_AZ in Ec. apply andb_true_iff in Ec as [E1 E2].
  apply N.leb_le in E1, E2. destruct Hx as [-> | ->]; lia.
Qed.

(** What [float] accepts has no comma and at most one dot. *)
Lemma float_of_str_chars s f :
  float_of_str s = Some f ->
  count_occ N.eq_dec s 44 = 0%nat /\ (count_occ N.eq_dec s 46%N <= 1)%nat.
Proof.
  unfold float_of_str.
  set (g := fun c : N => if is_ascii c then c
                         else if isspace c then 32
                              else match uni_decimal c with
                                   | Some d => 48 + d
                                   | None => c
                                   end).
  set (s1 := if forallb is_ascii s then s else map g s).
  assert (H1 : forall x, x = 44 \/ x = 46 ->
                 count_occ N.eq_dec s1 x = count_occ N.eq_dec s x).
  { intros x Hx. unfold s1. destruct (forallb is_ascii s); [reflexivity |].
    apply count_map_same. intros c. unfold g.
    destruct (is_ascii c) eqn:Ea; [reflexivity |].
    unfold is_ascii in Ea. apply N.ltb_ge in Ea.
    destruct (isspace c); [| destruct (uni_decimal c)];
      destruct Hx as [-> | ->]; split; intros; lia. }
  assert (H2 : forall x, x = 44 \/ x = 46 ->
                 count_occ N.eq_dec (float_trim s1) x = count_occ N.eq_dec s x).
  { intros x Hx. rewrite float_trim_count, H1; auto.
    destruct Hx as [-> | ->]; reflexivity. }
  clearbody s1. clear H1 g.
  set (t := float_trim s1) in *. clearbody t.
  set (sb := match t with
             | sg :: t' => if sg =? 45 then (true, t')
                          else if sg =? 43 then (false, t') else (false, t)
             | [] => (false, t)
             end).
  assert (H3 : forall x, x = 44 \/ x = 46 ->
                 count_occ N.eq_dec (snd sb) x = count_occ N.eq_dec s x).
  { intros x Hx. rewrite <- (H2 x Hx). unfold sb.
    destruct t as [|sg t']; [reflexivity |].
    destruct (sg =? 45) eqn:E45; [| destruct (sg =? 43) eqn:E43]; simpl; try reflexivity;
      destruct (N.eq_dec sg x) as [-> | _]; try reflexivity;
      destruct Hx as [-> | ->]; discriminate. }
  clearbody sb. destruct sb as [neg body]. simpl in H3.
  assert (Hw : forall w, ustr_eqb (map ascii_lower body) w = true ->
                 forall x, x = 44 \/ x = 46 ->
                   count_occ N.eq_dec body x = count_occ N.eq_dec w x).
  { intros w Ew x Hx. apply ustr_eqb_eq in Ew. rewrite <- Ew.
    symmetry. apply count_map_same. intros c. now apply lower_sep. }
  intros E.
  destruct (ustr_eqb (map ascii_lower body) (U "inf")) eqn:E1.
  { rewrite <- !H3, !(Hw _ E1) by auto. vm_compute. lia. }
  destruct (ustr_eqb (map ascii_lower body) (U "infinity")) eqn:E2.
  { rewrite <- !H3, !(Hw _ E2) by auto. vm_compute. lia. }
  simpl in E.
  destruct (ustr_eqb (map ascii_lower body) (U "nan")) eqn:E3.
  { rewrite <- !H3, !(Hw _ E3) by auto. vm_compute. lia. }
  destruct (unsigned_literal body) as [q|] eqn:Eq; [| discriminate].
  rewrite <- !H3 by auto. exact (unsigned_literal_chars _ _ Eq).
Qed.

(** *** [rfind] *)

Lemma rfind_fold c s (i f : Z) :
  (f < i)%Z ->
  let r := foldl (fun '(i, found) d => ((i + 1)%Z, if d =? c then i else found))
                 (i, f) s in
  fst r = (i + Z.of_nat (length s))%Z
  /\ (f <= snd r < i + Z.of_nat (length s) \/ (s = [] /\ snd r = f))%Z
  /\ (~ In c s -> snd r = f)
  /\ (forall p q, s = p ++ c :: q -> (i + Z.of_nat (length p) <= snd r)%Z).
Proof.
  revert i f. induction s as [|d s IH]; intros i f Hf; cbn zeta.
  - simpl. split; [lia |]. split; [now right |]. split; [reflexivity |].
    intros [|? ?] q; discriminate.
  - cbn [foldl].
    set (f' := if d =? c then i else f).
    assert (Hf' : (f' < i + 1)%Z) by (unfold f'; destruct (d =? c); lia).
    destruct (IH (i + 1)%Z f' Hf') as (I1 & I2 & I3 & I4).
    cbn zeta in I1, I2, I3, I4.
    split; [rewrite I1; simpl length; lia |].
    assert (Hff : (f <= f')%Z) by (unfold f'; destruct (d =? c); lia).
    split; [| split].
    + left. simpl length. destruct I2 as [I2 | [-> I2]]; [lia |].
      rewrite I2. simpl. lia.
    + intros Hn. rewrite I3 by (intros H; apply Hn; now right).
      unfold f'. destruct (d =? c) eqn:E; [| reflexivity].
      apply N.eqb_eq in E. exfalso. apply Hn. now left.
    + intros [|a p] q Hs; injection Hs as -> Hs.
      * simpl. assert (f' = i) by (unfold f'; now rewrite N.eqb_refl).
        destruct I2 as [I2 | [_ I2]]; lia.
      * specialize (I4 p q Hs). simpl length. lia.
Qed.

Lemma rfind_dot_after_comma p c :
  ~ In 44 c -> (rfind 44%N (p ++ 46%N :: c) <= rfind 46%N (p ++ 46%N :: c))%Z.
Proof.
  intros Hc.
  pose proof (rfind_fold 46 (p ++ 46 :: c) 0 (-1) ltac:(lia)) as (_ & _ & _ & H46).
  cbn zeta in H46. specialize (H46 p c eq_refl).
  unfold rfind at 2. etransitivity; [| exact H46].
  unfold rfind. rewrite foldl_app.
  pose proof (rfind_fold 44 p 0 (-1) ltac:(lia)) as (P1 & P2 & _ & _).
  cbn zeta in P1, P2.
  destruct (foldl _ (0%Z, (-1)%Z) p) as [i f]. simpl in P1, P2.
  assert (Hf : (f < i)%Z) by (destruct P2 as [? | [-> ->]]; simpl; lia).
  pose proof (rfind_fold 44 (46 :: c) i f Hf) as (_ & _ & Q & _).
  cbn zeta in Q. rewrite Q.
  - destruct P2 as [? | [-> ->]]; simpl; lia.
  - intros [H | H]; [discriminate | contradiction].
Qed.

(** *** [strip] keeps what is not a space *)

Lemma lstrip_keeps p x c :
  isspace x = false -> exists p', lstrip (p ++ x :: c) = p' ++ x :: c.
Proof.
  intros Hx. induction p as [|a p [p' IH]]; simpl.
  - rewrite Hx. now exists [].
  - destruct (isspace a); [now exists p' | now exists (a :: p)].
Qed.

Lemma rstrip_keeps p x c :
  isspace x = false -> rstrip (p ++ x :: c) = p ++ x :: rstrip c.
Proof.
  intros Hx.
  assert (E : rstrip (x :: c) = x :: rstrip c).
  { simpl. destruct (rstrip c); [now rewrite Hx | reflexivity]. }
  induction p as [|a p IH]; [exact E |].
  simpl app. cbn [rstrip]. rewrite IH. now destruct p.
Qed.

Lemma rstrip_In c y : In y (rstrip c) -> In y c.
Proof.
  intros H. destruct (rstrip_split c) as (w & Hc & _). rewrite Hc.
  apply in_or_app. now left.
Qed.

Lemma strip_keeps p x c :
  isspace x = false ->
  exists p' c', strip (p ++ x :: c) = p' ++ x :: c' /\ forall y, In y c' -> In y c.
Proof.
  intros Hx. unfold strip. destruct (lstrip_keeps p x c Hx) as [p' ->].
  exists p', (rstrip c). split; [now apply rstrip_keeps | apply rstrip_In].
Qed.

Lemma strip_In s x : isspace x = false -> In x s -> In x (strip s).
Proof.
  intros Hx Hin. apply in_split in Hin as (p & c & ->).
  destruct (strip_keeps p x c Hx) as (p' & c' & -> & _).
  apply in_or_app. right. now left.
Qed.

Lemma replace_comma_count t :
  count_occ N.eq_dec (replace_char 44 46 t) 46
  = (count_occ N.eq_dec t 44%N + count_occ N.eq_dec t 46%N)%nat.
Proof.
  unfold replace_char. induction t as [|c t IH]; simpl; [reflexivity |].
  destruct (c =? 44) eqn:E.
  - apply N.eqb_eq in E. subst c. simpl. rewrite IH. lia.
  - apply N.eqb_neq in E.
    destruct (N.eq_dec c 44) as [? | _]; [contradiction |].
    destruct (N.eq_dec c 46); rewrite IH; lia.
Qed.

Lemma str_lower_In s x :
  is_ascii x = true -> ascii_lower x = x -> In x s -> In x (str_lower s).
Proof.
  intros Ha Hl Hin. unfold str_lower. apply in_flat_map. exists x.
  split; [exact Hin |]. rewrite Ha, Hl. now left.
Qed.

End FloatFacts.

(** X6.  A string with a comma and, somewhere, a dot that no comma
    follows (the English way of writing thousands and decimals, as in
    "1,234.56" or "12,5 kg."): [_to_float] gives 0.0 on every such string,
    whatever else it holds. *)
Theorem to_float_dot_after_comma_is_zero {RT : PyRuntime} (s p c : ustring) :
  In 44 s -> s = p ++ 46 :: c -> ~ In 44 c ->
  CostComponents._to_float (CStr s) = zero_float.
Proof.
  intros Hcomma Hs Hc.
  assert (Hpy : CostComponents.py_float (CStr s) = None).
  { simpl. destruct (CostComponents.float_of_str s) as [f|] eqn:E; [| reflexivity].
    apply float_of_str_chars in E as [E _].
    apply (count_occ_In N.eq_dec) in Hcomma. lia. }
  unfold CostComponents._to_float. rewrite Hpy. simpl py_str.
  destruct (strip_keeps p 46 c eq_refl) as (p' & c' & Ht & Hc').
  rewrite <- Hs in Ht.
  pose proof (strip_In s 44 eq_refl Hcomma) as Hcomma'.
  set (t := strip s) in *. clearbody t.
  assert (Hnull : ustr_eqb t []
                  || existsb (ustr_eqb (str_lower t)) [U "nan"; U "<na>"; U "none"]
                  = false).
  { apply orb_false_iff. split.
    - apply ustr_eqb_neq. intros ->. destruct Hcomma'.
    - pose proof (str_lower_In t 44 eq_refl eq_refl Hcomma') as Hl.
      simpl. rewrite !orb_false_iff. repeat split; try reflexivity;
        apply ustr_eqb_neq; intros E; rewrite E in Hl; vm_compute in Hl;
        repeat (destruct Hl as [Hl | Hl]; [discriminate Hl |]); destruct Hl. }
  rewrite Hnull.
  assert (Hbranch : (CostComponents.rfind 46%N t <? CostComponents.rfind 44%N t)%Z = false).
  { apply Z.ltb_ge. rewrite Ht. apply rfind_dot_after_comma.
    intros H. apply Hc, Hc', H. }
  rewrite Hbranch, andb_false_r.
  destruct (CostComponents.float_of_str (CostComponents.replace_char 44 46 t))
    as [f|] eqn:E; [| reflexivity].
  apply float_of_str_chars in E as [_ E]. rewrite replace_comma_count in E.
  apply (count_occ_In N.eq_dec) in Hcomma'.
  assert (In 46 t) by (rewrite Ht; apply in_or_app; right; now left).
  apply (count_occ_In N.eq_dec) in H. lia.
Qed.

Lemma to_float_dot_after_comma_is_zero_witness :
  @CostComponents._to_float ascii_only (CStr (U "12,5 kg.")) = zero_float.
Proof.
  apply (@to_float_dot_after_comma_is_zero ascii_only (U "12,5 kg.") (U "12,5 kg") []).
  - vm_compute. auto.
  - reflexivity.
  - intros [].
Defined.

(** ** The shape of a key *)

Lemma tidy_no_double b a c : tidy b (a ++ 32 :: 32 :: c) = false.
Proof.
  revert b. induction a as [|d a IH]; intros b; simpl.
  - now rewrite andb_false_r.
  - destruct (is_az09 d); [apply IH |]. now rewrite IH, andb_false_r.
Qed.

Lemma rstrip_last s a x : rstrip s = a ++ [x] -> isspace x = false.
Proof.
  revert a. induction s as [|c s IH]; intros a; simpl.
  - destruct a; discriminate.
  - destruct (rstrip s) as [|d r] eqn:E.
    + destruct (isspace c) eqn:Ec; [destruct a; discriminate |].
      destruct a as [|? [|? ?]]; intros [= <-]; try discriminate. exact Ec.
    + destruct a as [|a0 a]; [discriminate |]. intros [= _ H]. now apply (IH a).
Qed.

(** X7.  A key made by [normalize] holds only the letters a-z, the digits
    and spaces; no two spaces are adjacent, and the key neither starts nor
    ends with a space. *)
Theorem normalize_key_shape {RT : PyRuntime} (s : option ustring) :
  let k := CoreSchema.normalize s in
  (forall c, In c k -> is_az09 c = true \/ c = 32)
  /\ (forall a b, k <> a ++ 32 :: 32 :: b)
  /\ (forall b, k <> 32 :: b)
  /\ (forall a, k <> a ++ [32]).
Proof.
  destruct s as [s|]; cbn zeta; simpl CoreSchema.normalize.
  2:{ split; [intros c [] |]. split; [intros [|? ?] ?; discriminate |].
      split; [discriminate | intros [|? ?]; discriminate]. }
  rewrite normalize_str_squeeze.
  destruct (squeeze_key (flat_map key_chars (strip s))) as [Ht Hs].
  set (k := squeeze _) in *. clearbody k.
  split; [intros c; exact (tidy_chars _ _ c Ht) |].
  split; [| split].
  - intros a b E. rewrite E, tidy_no_double in Ht. discriminate.
  - intros b E. rewrite E in Ht. simpl in Ht. discriminate.
  - intros a E. unfold strip in Hs. rewrite E in Hs at 2.
    apply rstrip_last in Hs. discriminate.
Qed.

(** ** Tables built column by column *)

Lemma cell_at_blank cols k c : cell_at cols (repeat NaN k) c = NaN.
Proof.
  unfold cell_at. destruct (index_of c cols) as [i|]; [| reflexivity].
  destruct (repeat NaN k !! i) as [x|] eqn:E; [| reflexivity].
  apply list_elem_of_lookup_2, list_elem_of_In, repeat_spec in E. now subst.
Qed.

(** One assignment of a new column to a table of [m] rows, the value
    being a scalar or a series of [n] cells: a table without rows takes
    the rows of a non-empty series. *)
Lemma assign_step out name v n :
  has_column out name = false -> fits v n ->
  let m := df_len out in
  let grows := is_series v && (m =? 0)%nat && (0 <? n)%nat in
  let m' := if is_series v && (m =? 0)%nat then n else m in
  let out' := df_assign out name v in
  columns out' = columns out ++ [name]
  /\ df_len out' = m'
  /\ getcol out' name = Some (assigned_cells v m')
  /\ forall c cells, c <> name -> getcol out c = Some cells ->
       getcol out' c = Some (if grows then repeat NaN n else cells).
Proof.
  intros Hnew Hfit m grows m' out'.
  destruct (rows out) as [|r0 rws] eqn:Er.
  - assert (Hm : m = 0%nat) by (unfold m, df_len; now rewrite Er).
    destruct v as [c | [|x l]].
    + (* a scalar *)
      assert (E : out' = df_setitem out name (VScalar c))
        by (unfold out', df_assign; now rewrite Er).
      rewrite E, setitem_columns, Hnew, setitem_len, setitem_getcol_same.
      fold m. unfold m', grows. simpl.
      split; [reflexivity |]. split; [reflexivity |]. split; [reflexivity |].
      intros c0 cells Hc Hg. now rewrite setitem_getcol_other.
    + (* an empty series *)
      assert (E : out' = df_setitem out name (VSeries []))
        by (unfold out', df_assign; now rewrite Er).
      simpl in Hfit. subst n.
      rewrite E, setitem_columns, Hnew, setitem_len, setitem_getcol_same.
      fold m. unfold m', grows. rewrite Hm. simpl.
      split; [reflexivity |]. split; [reflexivity |]. split; [reflexivity |].
      intros c0 cells Hc Hg. now rewrite setitem_getcol_other.
    + (* the table takes the rows of the series *)
      set (G := {| columns := columns out;
                   rows := map (fun _ : cell => repeat NaN (length (columns out)))
                               (x :: l) |}).
      assert (E : out' = df_setitem G name (VSeries (x :: l)))
        by (unfold out', df_assign; now rewrite Er).
      assert (HG : df_len G = n)
        by (unfold df_len, G; cbn [rows]; rewrite length_map; exact Hfit).
      assert (HnewG : has_column G name = false) by exact Hnew.
      rewrite E, setitem_columns, HnewG, setitem_len, setitem_getcol_same, HG.
      unfold m', grows. rewrite Hm. cbn [is_series andb Nat.eqb].
      split; [reflexivity |]. split; [reflexivity |]. split; [reflexivity |].
      intros c0 cells Hc Hg. rewrite setitem_getcol_other by exact Hc.
      assert (Hn : (0 <? n)%nat = true) by (apply Nat.ltb_lt; simpl in Hfit; lia).
      rewrite Hn. unfold getcol in Hg |- *.
      change (has_column G c0) with (has_column out c0).
      destruct (has_column out c0); [| discriminate]. f_equal.
      unfold G. cbn [rows columns]. rewrite map_map.
      rewrite <- Hfit, cell_at_blank. clear.
      induction (x :: l) as [|y l' IH]; simpl; [reflexivity |]. now rewrite IH.
  - assert (Hm : (m =? 0)%nat = false)
      by (unfold m, df_len; now rewrite Er).
    assert (E : out' = df_setitem out name v)
      by (unfold out', df_assign; rewrite Er; now destruct v as [|[|]]).
    rewrite E, setitem_columns, Hnew, setitem_len, setitem_getcol_same.
    fold m. unfold m', grows. rewrite Hm, !andb_false_r. cbn [andb].
    split; [reflexivity |]. split; [reflexivity |]. split; [reflexivity |].
    intros c0 cells Hc Hg. now rewrite setitem_getcol_other.
Qed.

(** A table built from nothing by assigning columns one after the other,
    each a scalar or a series of [n] cells. *)
Lemma assign_items n (items : list (ustring * pyvalue)) :
  NoDup (map fst items) ->
  (forall name v, In (name, v) items -> fits v n) ->
  let res := foldl (fun out item => df_assign out (fst item) (snd item))
               empty_frame items in
  columns res = map fst items
  /\ df_len res = (if existsb is_series (map snd items) then n else 0%nat)
  /\ forall name v, In (name, v) items ->
       exists cells,
         getcol res name = Some cells
         /\ (forall col, v = VSeries col -> cells = col)
         /\ (forall c x, v = VScalar c -> In x cells -> x = c \/ x = NaN).
Proof.
  induction items as [|[name v] l IH] using rev_ind; intros Hnd Hfit; cbn zeta.
  - split; [reflexivity |]. split; [reflexivity |]. intros ? ? [].
  - rewrite foldl_app. cbn [foldl fst snd].
    rewrite map_app in Hnd. apply NoDup_app in Hnd as (Hnd & Hdisj & _).
    destruct IH as (Hcols & Hlen & Hcells); [exact Hnd | |].
    { intros name0 v0 H0. apply (Hfit name0 v0), in_or_app. now left. }
    set (out := foldl _ empty_frame l) in *. clearbody out.
    assert (Hnew : has_column out name = false).
    { destruct (has_column out name) eqn:E; [| reflexivity].
      apply has_column_In in E. rewrite Hcols in E.
      exfalso. apply (Hdisj name); [now apply list_elem_of_In |].
      apply list_elem_of_In. now left. }
    assert (Hv : fits v n) by (apply (Hfit name v), in_or_app; right; now left).
    destruct (assign_step out name v n Hnew Hv) as (S1 & S2 & S3 & S4).
    cbn zeta in S1, S2, S3, S4.
    set (out' := df_assign out name v) in *. clearbody out'.
    rewrite Hlen in S2, S3, S4.
    assert (Hm' : df_len out'
                  = if existsb is_series (map snd (l ++ [(name, v)])) then n else 0%nat).
    { rewrite S2, map_app, existsb_app. cbn [map snd existsb]. rewrite orb_false_r.
      destruct (existsb is_series (map snd l)); [| now destruct (is_series v)].
      cbn [orb]. destruct (is_series v); [| reflexivity].
      cbn [andb]. now destruct (n =? 0)%nat. }
    split; [rewrite S1, Hcols, map_app; reflexivity |].
    split; [exact Hm' |].
    intros name0 v0 [H0 | [[= <- <-] | []]]%in_app_or.
    + (* an earlier column *)
      destruct (Hcells name0 v0 H0) as (cells & Hg & Hser & Hsca).
      assert (Hne : name0 <> name).
      { intros ->. apply (Hdisj name).
        - apply list_elem_of_In, in_map_iff. now exists (name, v0).
        - apply list_elem_of_In. now left. }
      rewrite (S4 name0 cells Hne Hg).
      eexists. split; [reflexivity |].
      destruct (is_series v && _ && _) eqn:Eg.
      * apply andb_true_iff in Eg as [[_ Em]%andb_true_iff En].
        destruct (existsb is_series (map snd l)) eqn:Ex.
        { apply Nat.eqb_eq in Em. apply Nat.ltb_lt in En. lia. }
        split.
        -- intros col ->. exfalso.
           assert (existsb is_series (map snd l) = true); [| congruence].
           apply existsb_exists. exists (VSeries col). split; [| reflexivity].
           apply in_map_iff. now exists (name0, VSeries col).
        -- intros c x _ Hx. apply repeat_spec in Hx. now right.
      * split; assumption.
    + (* the new column *)
      rewrite S3, <- S2, Hm'. eexists. split; [reflexivity |]. split.
      * intros col ->. simpl in Hv. rewrite map_app, existsb_app. cbn [map snd existsb is_series].
        rewrite orb_true_r. rewrite <- Hv. apply assigned_cells_fits.
      * intros c x -> Hx. simpl in Hx. apply repeat_spec in Hx. now left.
Qed.

Lemma foldl_items {A} (h : A -> ustring * pyvalue) (f : DataFrame -> A -> DataFrame)
    out l :
  (forall out a, f out a = df_assign out (fst (h a)) (snd (h a))) ->
  foldl f out l
  = foldl (fun out item => df_assign out (fst item) (snd item)) out (map h l).
Proof.
  intros Hf. revert out. induction l as [|a l IH]; intros out; simpl; [reflexivity |].
  now rewrite Hf, IH.
Qed.


(** [apply_mapping] as a run of assignments: one per field of the schema,
    then the source-file column. *)
Lemma apply_mapping_items
    (schema : dict CoreSchema.FieldMeta) (df : DataFrame)
    (mapping : dict (option ustring)) :
  NoDup (map label_of schema) ->
  ~ In (U "__kaynak_dosya__") (map label_of schema) ->
  let val := fun entry : ustring * CoreSchema.FieldMeta =>
               match default None (dict_get mapping (fst entry)) with
               | Some ((_ :: _) as src) =>
                   match getcol df src with
                   | Some col => VSeries col
                   | None => VScalar CNA
                   end
               | _ => VScalar CNA
               end in
  let items := map (fun entry => (label_of entry, val entry)) schema
               ++ match getcol df (U "__kaynak_dosya__") with
                  | Some col => [(U "__kaynak_dosya__", VSeries col)]
                  | None => []
                  end in
  let out := CoreSchemaFrames.apply_mapping schema df mapping in
  columns out
  = map label_of schema
    ++ (if has_column df (U "__kaynak_dosya__") then [U "__kaynak_dosya__"] else [])
  /\ df_len out = (if existsb is_series (map snd items) then df_len df else 0%nat)
  /\ forall name v, In (name, v) items ->
       exists cells,
         getcol out name = Some cells
         /\ (forall col, v = VSeries col -> cells = col)
         /\ (forall c x, v = VScalar c -> In x cells -> x = c \/ x = NaN).
Proof.
  intros Hnd Hkay val items out.
  set (h := fun entry : ustring * CoreSchema.FieldMeta => (label_of entry, val entry))
    in *.
  set (tag := match getcol df (U "__kaynak_dosya__") with
              | Some col => [(U "__kaynak_dosya__", VSeries col)]
              | None => []
              end) in *.
  assert (Hout : out = foldl (fun out item => df_assign out (fst item) (snd item))
                         empty_frame (map h schema ++ tag)).
  { unfold out, CoreSchemaFrames.apply_mapping. rewrite foldl_app.
    rewrite <- (foldl_items h
                  (fun out '(canonical, meta) =>
                     df_assign out (default canonical (CoreSchema.label meta))
                       match default None (dict_get mapping canonical) with
                       | Some ((_ :: _) as src) =>
                           match getcol df src with
                           | Some col => VSeries col
                           | None => VScalar CNA
                           end
                       | _ => VScalar CNA
                       end))
      by (intros o [canonical meta]; reflexivity).
    unfold tag. now destruct (getcol df (U "__kaynak_dosya__")). }
  assert (Hfst : map fst (map h schema ++ tag)
                 = map label_of schema
                   ++ (if has_column df (U "__kaynak_dosya__")
                       then [U "__kaynak_dosya__"] else [])).
  { rewrite map_app, map_map. f_equal. unfold tag, getcol.
    now destruct (has_column df (U "__kaynak_dosya__")). }
  assert (Hval : forall entry, fits (val entry) (df_len df)).
  { intros entry. unfold val.
    destruct (default None _) as [[|a src]|]; simpl; try exact I.
    destruct (getcol df (a :: src)) as [col|] eqn:E; simpl; [| exact I].
    exact (getcol_length _ _ _ E). }
  destruct (assign_items (df_len df) (map h schema ++ tag)) as (Hcols & Hlen & Hcells).
  { rewrite Hfst. apply NoDup_app. split; [exact Hnd |]. split.
    - intros x Hx Hx'. destruct (has_column df _); [| now apply elem_of_nil in Hx'].
      apply list_elem_of_singleton in Hx'. subst x. now apply Hkay, list_elem_of_In.
    - destruct (has_column df _); [apply NoDup_singleton | apply NoDup_nil_2]. }
  { intros name v [(entry & [= <- <-] & _)%in_map_iff | Ht]%in_app_or; [apply Hval |].
    unfold tag in Ht. destruct (getcol df (U "__kaynak_dosya__")) as [col|] eqn:E;
      [| destruct Ht].
    destruct Ht as [[= <- <-] | []]. exact (getcol_length _ _ _ E). }
  cbn zeta in Hcols, Hlen, Hcells. rewrite <- Hout in Hcols, Hlen, Hcells.
  clearbody out. clear Hout.
  rewrite Hfst in Hcols.
  split; [exact Hcols |]. split; [exact Hlen | exact Hcells].
Qed.

(** X8.  [apply_mapping], for a schema whose labels are distinct and none
    of which is the name of the source-file column: the result has one
    column per field of the schema, under the field's label and in the
    order of the schema, then the source-file column when the input has
    one; a field mapped to a column of the input gets the cells of that
    column, as they are; every other field gets a column of missing
    values only; the source-file column is copied; and the result has the
    rows of the input, or none at all when no field is mapped to a column
    of the input and there is no source-file column. *)
Theorem apply_mapping_copies_or_nulls
    (schema : dict CoreSchema.FieldMeta) (df : DataFrame)
    (mapping : dict (option ustring)) :
  NoDup (map label_of schema) ->
  ~ In (U "__kaynak_dosya__") (map label_of schema) ->
  let out := CoreSchemaFrames.apply_mapping schema df mapping in
  columns out
  = map label_of schema
    ++ (if has_column df (U "__kaynak_dosya__") then [U "__kaynak_dosya__"] else [])
  /\ (forall entry src col,
         In entry schema ->
         dict_get mapping (fst entry) = Some (Some src) -> src <> [] ->
         getcol df src = Some col ->
         getcol out (label_of entry) = Some col /\ df_len out = df_len df)
  /\ (forall entry,
         In entry schema ->
         (forall src, dict_get mapping (fst entry) = Some (Some src) -> src <> [] ->
                      getcol df src = None) ->
         exists cells,
           getcol out (label_of entry) = Some cells
           /\ forall x, In x cells -> x = CNA \/ x = NaN)
  /\ (forall col,
         getcol df (U "__kaynak_dosya__") = Some col ->
         getcol out (U "__kaynak_dosya__") = Some col /\ df_len out = df_len df)
  /\ ((forall entry src,
          In entry schema ->
          dict_get mapping (fst entry) = Some (Some src) -> src <> [] ->
          getcol df src = None) ->
      getcol df (U "__kaynak_dosya__") = None ->
      df_len out = 0%nat).
Proof.
  intros Hnd Hkay out.
  destruct (apply_mapping_items schema df mapping Hnd Hkay) as (Hcols & Hlen & Hcells).
  cbn zeta in Hcols, Hlen, Hcells. fold out in Hcols, Hlen, Hcells.
  pose (val := fun entry : ustring * CoreSchema.FieldMeta =>
         match default None (dict_get mapping (fst entry)) with
         | Some ((_ :: _) as src) =>
             match getcol df src with
             | Some col => VSeries col
             | None => VScalar CNA
             end
         | _ => VScalar CNA
         end).
  pose (h := fun entry : ustring * CoreSchema.FieldMeta => (label_of entry, val entry)).
  pose (tag := match getcol df (U "__kaynak_dosya__") with
               | Some col => [(U "__kaynak_dosya__", VSeries col)]
               | None => []
               end).
  change (df_len out
          = if existsb is_series (map snd (map h schema ++ tag)) then df_len df else 0%nat)
    in Hlen.
  change (forall name v, In (name, v) (map h schema ++ tag) ->
            exists cells,
              getcol out name = Some cells
              /\ (forall col, v = VSeries col -> cells = col)
              /\ (forall c x, v = VScalar c -> In x cells -> x = c \/ x = NaN))
    in Hcells.
  clearbody out.
  assert (Hser : forall name col, In (name, VSeries col) (map h schema ++ tag) ->
                   getcol out name = Some col /\ df_len out = df_len df).
  { intros name col Hin. destruct (Hcells name _ Hin) as (cells & Hg & Hc & _).
    rewrite (Hc col eq_refl) in Hg. split; [exact Hg |].
    rewrite Hlen.
    assert (E : existsb is_series (map snd (map h schema ++ tag)) = true).
    { apply existsb_exists. exists (VSeries col). split; [| reflexivity].
      apply in_map_iff. now exists (name, VSeries col). }
    now rewrite E. }
  split; [exact Hcols |]. split; [| split; [| split]].
  - intros entry src col Hin Hm Hne Hc.
    apply (Hser (label_of entry) col), in_or_app. left.
    apply in_map_iff. exists entry. split; [| exact Hin].
    unfold h, val. rewrite Hm. simpl. destruct src; [congruence |]. now rewrite Hc.
  - intros entry Hin Hno.
    assert (Ev : val entry = VScalar CNA).
    { unfold val. destruct (dict_get mapping (fst entry)) as [[[|a src]|]|] eqn:Eg;
        try reflexivity.
      simpl. now rewrite (Hno (a :: src) eq_refl ltac:(discriminate)). }
    destruct (Hcells (label_of entry) (VScalar CNA)) as (cells & Hg & _ & Hc).
    { apply in_or_app. left. apply in_map_iff. exists entry.
      split; [unfold h; now rewrite Ev | exact Hin]. }
    exists cells. split; [exact Hg |]. intros x Hx. exact (Hc CNA x eq_refl Hx).
  - intros col Hc. apply (Hser (U "__kaynak_dosya__") col), in_or_app. right.
    unfold tag. rewrite Hc. now left.
  - intros Hno Hk. rewrite Hlen.
    assert (E : existsb is_series (map snd (map h schema ++ tag)) = false).
    { apply not_true_is_false. intros E. apply existsb_exists in E as (v & Hv & Hs).
      apply in_map_iff in Hv as ([name v'] & <- & Hin). simpl in Hs.
      apply in_app_or in Hin as [(entry & [= <- <-] & Hin)%in_map_iff | Hin].
      - unfold val in Hs.
        destruct (dict_get mapping (fst entry)) as [[[|a src]|]|] eqn:Eg;
          try discriminate Hs.
        simpl in Hs.
        now rewrite (Hno entry (a :: src) Hin Eg ltac:(discriminate)) in Hs.
      - unfold tag in Hin. rewrite Hk in Hin. destruct Hin. }
    now rewrite E.
Qed.


Lemma apply_mapping_copies_or_nulls_witness :
  let out := CoreSchemaFrames.apply_mapping CoreSchema.DEFAULT_SCHEMA
               SampleMapping.table SampleMapping.mapping in
  getcol out (U "İş Yeri Kodu") = Some [CStr (U "P1"); CStr (U "P2")]
  /\ df_len out = 2%nat.
Proof.
  assert (Hnd : NoDup (map label_of CoreSchema.DEFAULT_SCHEMA)).
  { apply (bool_decide_unpack _). vm_compute. exact I. }
  assert (Hk : ~ In (U "__kaynak_dosya__") (map label_of CoreSchema.DEFAULT_SCHEMA)).
  { intros H. apply list_elem_of_In in H. revert H.
    apply (bool_decide_unpack _). vm_compute. exact I. }
  destruct (apply_mapping_copies_or_nulls CoreSchema.DEFAULT_SCHEMA
              SampleMapping.table SampleMapping.mapping Hnd Hk) as (_ & H & _).
  apply (H (U "is_yeri_kodu",
            {| CoreSchema.label := Some (U "İş Yeri Kodu");
               CoreSchema.synonyms := [U "is yeri"; U "iş yeri"; U "plant"; U "site";
                                       U "plant code"; U "işyeri"; U "isyeri"] |})
           (U "Plant")).
  - now left.
  - reflexivity.
  - discriminate.
  - reflexivity.
Defined.

(** ** The processed table *)

Lemma suggest_mapping_headers {RT : PyRuntime}
    (get_close_matches : ustring -> list ustring -> list ustring)
    (schema : dict CoreSchema.FieldMeta) (headers : list ustring) canonical h :
  dict_get (CoreSchema.suggest_mapping get_close_matches schema headers) canonical
  = Some (Some h) ->
  In h headers.
Proof.
  unfold CoreSchema.suggest_mapping. intros H.
  apply (mapping_value
           (fun canonical meta =>
              fst (CoreSchema.suggest_field get_close_matches _ canonical meta)))
    in H as [H | (meta & _ & H)]; [discriminate |].
  symmetry in H. exact (suggest_field_in _ _ _ _ _ H).
Qed.

(** X9.  [auto_apply_top] on an engine whose system table is absent or
    empty returns None and leaves the engine as it is.  Otherwise (the
    labels of the schema being distinct and none of them the name of the
    source-file column) it stores and returns a table that has the
    columns of the schema's labels, in order, then the source-file column
    if the system table has one; nothing else of the engine changes; a
    field that [suggest_mapping] maps to a header gets the cells of that
    column of the system table, and the result then has as many rows;
    and every column of the result is a column of the system table, cell
    by cell, or holds missing values only. *)
Theorem auto_apply_top_copies_columns {RT : PyRuntime}
    (get_close_matches : ustring -> list ustring -> list ustring)
    (e : DataEngine.Engine) :
  (absent_or_empty (DataEngine.src_df e) = true ->
   DataEngine.auto_apply_top get_close_matches e = (e, None))
  /\ forall src,
       DataEngine.src_df e = Some src -> df_empty src = false ->
       NoDup (map label_of (DataEngine.schema e)) ->
       ~ In (U "__kaynak_dosya__") (map label_of (DataEngine.schema e)) ->
       exists out,
         DataEngine.auto_apply_top get_close_matches e
         = (DataEngine.set_processed_df e (Some out), Some out)
         /\ columns out
            = map label_of (DataEngine.schema e)
              ++ (if has_column src (U "__kaynak_dosya__")
                  then [U "__kaynak_dosya__"] else [])
         /\ (forall entry h,
                In entry (DataEngine.schema e) ->
                dict_get (CoreSchema.suggest_mapping get_close_matches
                            (DataEngine.schema e) (columns src)) (fst entry)
                = Some (Some h) ->
                h <> [] ->
                exists col,
                  getcol src h = Some col
                  /\ getcol out (label_of entry) = Some col
                  /\ df_len out = df_len src)
         /\ (forall c, In c (columns out) ->
                exists cells,
                  getcol out c = Some cells
                  /\ ((exists h, getcol src h = Some cells)
                      \/ forall x, In x cells -> x = CNA \/ x = NaN)).
Proof.
  split.
  - unfold DataEngine.auto_apply_top, absent_or_empty.
    destruct (DataEngine.src_df e) as [src|]; [| reflexivity]. now intros ->.
  - intros src Hsrc Hne Hnd Hk.
    set (mapping := CoreSchema.suggest_mapping get_close_matches
                      (DataEngine.schema e) (columns src)).
    exists (CoreSchemaFrames.apply_mapping (DataEngine.schema e) src mapping).
    split; [unfold DataEngine.auto_apply_top; now rewrite Hsrc, Hne |].
    destruct (apply_mapping_items (DataEngine.schema e) src mapping Hnd Hk)
      as (Hcols & Hlen & Hcells).
    cbn zeta in Hcols, Hlen, Hcells.
    set (out := CoreSchemaFrames.apply_mapping _ src mapping) in *. clearbody out.
    pose (val := fun entry : ustring * CoreSchema.FieldMeta =>
           match default None (dict_get mapping (fst entry)) with
           | Some ((_ :: _) as s0) =>
               match getcol src s0 with
               | Some col => VSeries col
               | None => VScalar CNA
               end
           | _ => VScalar CNA
           end).
    pose (items := map (fun entry => (label_of entry, val entry)) (DataEngine.schema e)
                   ++ match getcol src (U "__kaynak_dosya__") with
                      | Some col => [(U "__kaynak_dosya__", VSeries col)]
                      | None => []
                      end).
    change (df_len out
            = if existsb is_series (map snd items) then df_len src else 0%nat) in Hlen.
    change (forall name v, In (name, v) items ->
              exists cells,
                getcol out name = Some cells
                /\ (forall col, v = VSeries col -> cells = col)
                /\ (forall c x, v = VScalar c -> In x cells -> x = c \/ x = NaN))
      in Hcells.
    assert (Hval : forall entry col,
               val entry = VSeries col -> exists h, getcol src h = Some col).
    { intros entry col. unfold val.
      destruct (default None _) as [[|a s0]|]; try discriminate.
      destruct (getcol src (a :: s0)) as [col'|] eqn:Eg; [| discriminate].
      intros [= <-]. eauto. }
    assert (Hnull : forall entry c, val entry = VScalar c -> c = CNA).
    { intros entry c. unfold val.
      destruct (default None _) as [[|a s0]|]; try (now intros [= <-]).
      destruct (getcol src (a :: s0)); [discriminate | now intros [= <-]]. }
    split; [exact Hcols |]. split.
    + intros entry h Hin Hm Hh.
      pose proof (suggest_mapping_headers _ _ _ _ _ Hm) as Hcol.
      pose proof (getcol_In src h Hcol) as Hg.
      exists (map (fun r => cell_at (columns src) r h) (rows src)).
      split; [exact Hg |].
      assert (Hitem : In (label_of entry,
                          VSeries (map (fun r => cell_at (columns src) r h) (rows src)))
                         items).
      { apply in_or_app. left. apply in_map_iff. exists entry. split; [| exact Hin].
        f_equal. unfold val. fold mapping in Hm. rewrite Hm. simpl.
        destruct h; [congruence |]. now rewrite Hg. }
      destruct (Hcells _ _ Hitem) as (cells & Hgc & Hser & _).
      rewrite (Hser _ eq_refl) in Hgc. split; [exact Hgc |].
      rewrite Hlen.
      assert (E : existsb is_series (map snd items) = true).
      { apply existsb_exists.
        exists (VSeries (map (fun r => cell_at (columns src) r h) (rows src))).
        split; [| reflexivity].
        apply in_map_iff. eexists. split; [| exact Hitem]. reflexivity. }
      now rewrite E.
    + intros c Hc.
      assert (Hitem : exists v, In (c, v) items).
      { assert (Hf : In c (map fst items)).
        { unfold items. rewrite map_app, map_map. cbn [fst]. rewrite Hcols in Hc.
          apply in_app_or in Hc as [Hc | Hc]; apply in_or_app; [now left | right].
          unfold getcol. destruct (has_column src (U "__kaynak_dosya__")); exact Hc. }
        apply in_map_iff in Hf as ([c' v] & <- & Hf). eauto. }
      destruct Hitem as [v Hitem].
      destruct (Hcells _ _ Hitem) as (cells & Hgc & Hser & Hsca).
      exists cells. split; [exact Hgc |].
      destruct v as [x | col].
      * right. intros y Hy.
        assert (Hx : x = CNA).
        { unfold items in Hitem.
          apply in_app_or in Hitem as [(entry & [= _ Hv] & _)%in_map_iff | Ht].
          - exact (Hnull _ _ Hv).
          - destruct (getcol src (U "__kaynak_dosya__")); [| destruct Ht].
            destruct Ht as [[=] | []]. }
        subst x. exact (Hsca CNA y eq_refl Hy).
      * left. rewrite (Hser col eq_refl).
        unfold items in Hitem.
        apply in_app_or in Hitem as [(entry & [= _ Hv] & _)%in_map_iff | Ht].
        -- exact (Hval _ _ Hv).
        -- destruct (getcol src (U "__kaynak_dosya__")) as [col'|] eqn:Eg; [| destruct Ht].
           destruct Ht as [[= _ <-] | []]. eauto.
Qed.

(** ** Appending to a buffer *)

Lemma appended_concat src new :
  df_empty src = false -> appended (Some src) new (concat src new).
Proof.
  intros Hne. split; [simpl; congruence |].
  intros src0 [= <-] _ cols. split; [reflexivity |].
  exact (concat_laid_out src new).
Qed.

Lemma appended_new old new : absent_or_empty old = true -> appended old new new.
Proof.
  intros He. split; [reflexivity |]. intros src -> Hne. simpl in He. congruence.
Qed.

(** The paths recorded by the loop. *)
Lemma record_paths_recorded files paths :
  recorded files paths (DataEngine.record_paths files paths).
Proof.
  unfold DataEngine.record_paths. revert files.
  induction paths as [|p paths IH]; intros files; simpl.
  - exists []. rewrite app_nil_r. split; [reflexivity |]. split; [constructor |].
    intros q. simpl. tauto.
  - destruct (bool_decide (p ∈ files)) eqn:Ep.
    + apply bool_decide_eq_true in Ep. apply list_elem_of_In in Ep.
      destruct (IH files) as (more & -> & Hnd & Hmore).
      exists more. split; [reflexivity |]. split; [exact Hnd |].
      intros q. rewrite Hmore. simpl. split; [tauto |].
      intros [[<- | Hq] Hn]; [contradiction | tauto].
    + apply bool_decide_eq_false in Ep. rewrite list_elem_of_In in Ep.
      destruct (IH (files ++ [p])) as (more & -> & Hnd & Hmore).
      exists (p :: more). split; [now rewrite <- app_assoc |]. split.
      * apply NoDup_cons. split; [| exact Hnd].
        rewrite list_elem_of_In, Hmore. intros [_ Hn]. apply Hn, in_or_app.
        right. now left.
      * intros q. simpl. rewrite Hmore, in_app_iff. simpl.
        destruct (decide (p = q)) as [-> | Hpq]; [tauto |].
        split; [intros [? | [? ?]]; tauto | intros [[? | ?] ?]; tauto].
Qed.

(** X10.  [append_to_top] and [append_to_bottom] do nothing, and record no
    path, when the new table is absent or empty.  Otherwise the new table
    becomes the buffer when the buffer was absent or empty, and is put
    under it when not: the old rows first, then the new ones, under the
    columns of the buffer followed by the columns only the new table has,
    every cell with its value (an integer that [pd.concat] converts comes
    as the float of the same value, and no cell is converted when every
    column holds integers in both tables or strings and floats in both)
    and NaN where a table lacks a column; the paths that the file list
    does not have yet are added at its end, each once; and nothing else
    of the engine changes.  A table with the column "s" alone put under
    a table with the integers 1 and 2 in its column "n" gives 1.0, 2.0
    and NaN under "n". *)
Theorem append_keeps_rows_and_paths (e : DataEngine.Engine) (paths : list ustring) :
  (forall new_df,
      absent_or_empty new_df = true ->
      DataEngine.append_to_top e new_df paths = e
      /\ DataEngine.append_to_bottom e new_df paths = e)
  /\ DataEngine.src_df
       (DataEngine.append_to_top
          (SampleImport.with_tables (Some SampleAppend.counted) None)
          (Some SampleAppend.named) paths)
     = Some {| columns := [U "n"; U "s"];
               rows := [ [CFloat (FFinite 1); NaN];
                         [CFloat (FFinite 2); NaN];
                         [NaN; CStr (U "x")] ] |}
  /\ forall new,
       df_empty new = false ->
       let t := DataEngine.append_to_top e (Some new) paths in
       let b := DataEngine.append_to_bottom e (Some new) paths in
       ((exists res, DataEngine.src_df t = Some res
                     /\ appended (DataEngine.src_df e) new res)
        /\ recorded (DataEngine.loaded_files_top e) paths (DataEngine.loaded_files_top t)
        /\ DataEngine.staged_df t = DataEngine.staged_df e
        /\ DataEngine.processed_df t = DataEngine.processed_df e
        /\ DataEngine.loaded_files_bottom t = DataEngine.loaded_files_bottom e
        /\ DataEngine.manual_values t = DataEngine.manual_values e
        /\ DataEngine.schema t = DataEngine.schema e)
       /\ ((exists res, DataEngine.staged_df b = Some res
                        /\ appended (DataEngine.staged_df e) new res)
           /\ recorded (DataEngine.loaded_files_bottom e) paths
                (DataEngine.loaded_files_bottom b)
           /\ DataEngine.src_df b = DataEngine.src_df e
           /\ DataEngine.processed_df b = DataEngine.processed_df e
           /\ DataEngine.loaded_files_top b = DataEngine.loaded_files_top e
           /\ DataEngine.manual_values b = DataEngine.manual_values e
           /\ DataEngine.schema b = DataEngine.schema e).
Proof.
  split; [| split; [reflexivity |]].
  - intros [new|] He; [| split; reflexivity].
    simpl in He. unfold DataEngine.append_to_top, DataEngine.append_to_bottom.
    rewrite He. split; reflexivity.
  - intros new Hne t b. split.
    + unfold t, DataEngine.append_to_top. rewrite Hne.
      destruct (DataEngine.src_df e) as [src|] eqn:Es;
        [destruct (df_empty src) eqn:Ee |]; cbn;
        (split; [eexists; split; [reflexivity |] |
                 split; [apply record_paths_recorded | repeat split]]).
      * now apply appended_new.
      * now apply appended_concat.
      * now apply appended_new.
    + unfold b, DataEngine.append_to_bottom. rewrite Hne.
      destruct (DataEngine.staged_df e) as [src|] eqn:Es;
        [destruct (df_empty src) eqn:Ee |]; cbn;
        (split; [eexists; split; [reflexivity |] |
                 split; [apply record_paths_recorded | repeat split]]).
      * now apply appended_new.
      * now apply appended_concat.
      * now apply appended_new.
Qed.

(** ** The import accounts for every row *)

Lemma filter_split_length {A} (p : A -> bool) (l : list A) :
  (length (List.filter p l) + length (List.filter (fun x => negb (p x)) l))%nat
  = length l.
Proof.
  induction l as [|x l IH]; simpl; [reflexivity |].
  destruct (p x); simpl; lia.
Qed.

Lemma set_src_df_same (e : DataEngine.Engine) :
  DataEngine.set_src_df e (DataEngine.src_df e) = e.
Proof. now destruct e. Qed.

Section ImportShape.
Context {RT : PyRuntime}.
Import DataEngine.

(** With both tables non-empty: the rows kept of the system table, the
    staged table put under them. *)
Lemma import_shape e replace_on_keys src staged :
  staged_df e = Some staged -> df_empty staged = false ->
  src_df e = Some src -> df_empty src = false ->
  exists kept,
    import_staged_into_system e replace_on_keys
    = Some (set_src_df e (Some (concat {| columns := columns src; rows := kept |} staged)),
            ((df_len src - length kept)%nat, df_len staged))
    /\ sublist kept (rows src)
    /\ (replace_on_keys = false -> kept = rows src).
Proof.
  intros Hst Hste Hsrc Hsrce.
  assert (Hplain : forall b,
             import_staged_into_system e b
             = Some (set_src_df e (Some (concat src staged)), (0%nat, df_len staged)) ->
             exists kept,
               import_staged_into_system e b
               = Some (set_src_df e
                         (Some (concat {| columns := columns src; rows := kept |} staged)),
                       ((df_len src - length kept)%nat, df_len staged))
               /\ sublist kept (rows src)
               /\ (b = false -> kept = rows src)).
  { intros b E. exists (rows src). rewrite E. unfold df_len at 2.
    rewrite Nat.sub_diag. destruct src. auto. }
  destruct replace_on_keys.
  - destruct (key_columns e src) as [top_keys|] eqn:Et;
      [destruct (key_columns e staged) as [bot_keys|] eqn:Eb |].
    + pose proof (import_with_keys e src staged _ _ Hst Hste Hsrc Hsrce Et Eb) as E.
      cbn zeta in E.
      set (among := key_among (table_keys staged bot_keys) (columns src) top_keys) in *.
      exists (List.filter (fun r => negb (among r)) (rows src)).
      split; [| split; [apply filter_sublist | discriminate]].
      rewrite E. do 3 f_equal. unfold df_len.
      pose proof (filter_split_length among (rows src)). lia.
    + apply Hplain. apply import_without_keys; auto.
    + apply Hplain. apply import_without_keys; auto.
  - apply Hplain. unfold import_staged_into_system.
    now rewrite Hst, Hste, Hsrc, Hsrce.
Qed.

End ImportShape.

(** X11.  [import_staged_into_system] never raises, whatever the engine
    holds and whatever [replace_on_keys] is, and changes nothing of the
    engine but the system table.  With nothing staged it returns (0, 0)
    and changes nothing.  Otherwise [added] is the number of staged rows;
    into an absent or empty system table the staged table is put as it
    is; and into a table with rows and columns the result is a
    sub-sequence of the system rows followed by all the staged rows, laid
    out on the columns of the system table followed by those only the
    staged table has, every cell with its value (an integer that
    [pd.concat] converts comes as the float of the same value; no cell is
    converted when every column holds integers in both tables or strings
    and floats in both), [removed] being the number of system rows left
    out; with [replace_on_keys] false no row is left out. *)
Theorem import_accounts_for_every_row {RT : PyRuntime}
    (e : DataEngine.Engine) (replace_on_keys : bool) :
  exists e' removed added,
    DataEngine.import_staged_into_system e replace_on_keys = Some (e', (removed, added))
    /\ system_table_only e e'
    /\ (absent_or_empty (DataEngine.staged_df e) = true ->
        e' = e /\ removed = 0%nat /\ added = 0%nat)
    /\ forall staged,
         DataEngine.staged_df e = Some staged -> df_empty staged = false ->
         added = df_len staged
         /\ exists res,
              DataEngine.src_df e' = Some res
              /\ (absent_or_empty (DataEngine.src_df e) = true ->
                  res = staged /\ removed = 0%nat)
              /\ forall src,
                   DataEngine.src_df e = Some src -> df_empty src = false ->
                   exists kept top bottom,
                     sublist kept (rows src)
                     /\ (length kept + removed)%nat = df_len src
                     /\ (replace_on_keys = false -> kept = rows src)
                     /\ columns res
                        = columns src
                          ++ List.filter (fun c => negb (has_column src c)) (columns staged)
                     /\ rows res = top ++ bottom
                     /\ laid_out (columns res) (columns src) kept top
                     /\ laid_out (columns res) (columns staged) (rows staged) bottom
                     /\ (unconverted [src; staged] ->
                         top = map (realign (columns res) (columns src)) kept
                         /\ bottom
                            = map (realign (columns res) (columns staged)) (rows staged)).
Proof.
  assert (Hsame : system_table_only e e) by (repeat split).
  destruct (DataEngine.staged_df e) as [staged|] eqn:Est.
  2:{ exists e, 0%nat, 0%nat.
      split; [unfold DataEngine.import_staged_into_system; now rewrite Est |].
      split; [exact Hsame |].
      split; [auto | discriminate]. }
  destruct (df_empty staged) eqn:Este.
  { exists e, 0%nat, 0%nat.
    split; [unfold DataEngine.import_staged_into_system; now rewrite Est, Este |].
    split; [exact Hsame |].
    split; [auto |]. intros ? [= <-]. congruence. }
  assert (Hset : forall t, system_table_only e (DataEngine.set_src_df e t)).
  { intros t. unfold system_table_only. simpl. rewrite Est. repeat split. }
  destruct (DataEngine.src_df e) as [src|] eqn:Esrc.
  2:{ exists (DataEngine.set_src_df e (Some staged)), 0%nat, (df_len staged).
      split; [unfold DataEngine.import_staged_into_system; now rewrite Est, Este, Esrc |].
      split; [apply Hset |]. split; [simpl; congruence |].
      intros ? [= <-] _. split; [reflexivity |].
      exists staged. split; [reflexivity |]. split; [auto | discriminate]. }
  destruct (df_empty src) eqn:Esrce.
  { exists (DataEngine.set_src_df e (Some staged)), 0%nat, (df_len staged).
    split; [unfold DataEngine.import_staged_into_system;
            now rewrite Est, Este, Esrc, Esrce |].
    split; [apply Hset |]. split; [simpl; congruence |].
    intros ? [= <-] _. split; [reflexivity |].
    exists staged. split; [reflexivity |]. split; [auto |].
    intros ? [= <-]. congruence. }
  destruct (import_shape e replace_on_keys src staged Est Este Esrc Esrce)
    as (kept & E & Hsub & Hall).
  eexists _, _, _. split; [exact E |].
  split; [apply Hset |]. split; [simpl; congruence |].
  intros ? [= <-] _. split; [reflexivity |].
  eexists. split; [reflexivity |]. split; [simpl; congruence |].
  intros ? [= <-] _.
  destruct (concat_laid_out {| columns := columns src; rows := kept |} staged)
    as (top & bottom & Hrows & Htop & Hbot & Hexact).
  exists kept, top, bottom.
  split; [exact Hsub |]. split.
  { apply sublist_length in Hsub. unfold df_len in *. lia. }
  split; [exact Hall |]. split; [reflexivity |].
  split; [exact Hrows |]. split; [exact Htop |]. split; [exact Hbot |].
  intros Hu. apply Hexact. apply unconverted_rows; [exact Hu |].
  intros r Hr. apply list_elem_of_In. eapply elem_of_sublist; [| exact Hsub].
  now apply list_elem_of_In.
Qed.

(** ** What the automatic filling touches *)

Section AutofillFrame.
Context {RT : PyRuntime}.
Import DataEngine.

Lemma vote_In s v : vote s = Some v -> In v s.
Proof.
  intros Hv. destruct s as [|x s]; [discriminate |].
  destruct (vote_majority (x :: s) v ltac:(discriminate) Hv) as [Hmaj _].
  apply count_of_pos. simpl length in Hmaj. lia.
Qed.

Lemma non_null_values_In df col s v :
  non_null_values df col = Some s -> In v s -> filled_value df v.
Proof.
  unfold non_null_values. destruct (getcol df col) as [vals|] eqn:Eg; [| discriminate].
  simpl. intros [= <-] Hv. apply List.filter_In in Hv as [Hv Hn].
  apply negb_true_iff in Hn. split; [exact Hn |].
  apply in_map_iff in Hv as (x & <- & Hx).
  unfold getcol in Eg. destruct (has_column df col) eqn:Eh; [| discriminate].
  injection Eg as <-. apply in_map_iff in Hx as (r & <- & Hr).
  exists col, r. split; [now apply has_column_In | auto].
Qed.

Lemma set_manual_values_same (e : Engine) : set_manual_values e (manual_values e) = e.
Proof. now destruct e. Qed.

(** One key. *)
Lemma autofill_key_frame df override e key :
  exists e1 b,
    autofill_key df override e key = Some (e1, b)
    /\ (b = false -> e1 = e)
    /\ (b = true -> exists v, e1 = set_manual_value e key v /\ filled_value df v)
    /\ (override = false -> truthy (manual_values e !! key) = true -> b = false).
Proof.
  unfold autofill_key.
  destruct (negb override && truthy (manual_values e !! key)) eqn:Eskip.
  { exists e, false. repeat split; auto; discriminate. }
  assert (Hrun : override = false -> truthy (manual_values e !! key) = true -> False).
  { intros -> Ht. rewrite Ht in Eskip. discriminate. }
  destruct (find_col_by_candidates _ _) as [[|c col]|] eqn:Ecol;
    try solve [exists e, false; repeat split; auto; try discriminate; intros; exfalso; auto].
  destruct (non_null_values_total df (c :: col) (find_col_in_columns _ _ _ Ecol))
    as [s Hs]. rewrite Hs. simpl.
  destruct s as [|v s];
    [solve [exists e, false; repeat split; auto; try discriminate; intros; exfalso; auto] |].
  destruct (vote (v :: s)) as [val|] eqn:Ev;
    [| solve [exists e, false; repeat split; auto; try discriminate; intros; exfalso; auto]].
  exists (set_manual_value e key val), true.
  split; [reflexivity |]. split; [discriminate |]. split.
  - intros _. exists val. split; [reflexivity |].
    exact (non_null_values_In _ _ _ _ Hs (vote_In _ _ Ev)).
  - intros H1 H2. exfalso. auto.
Qed.

Lemma autofill_keys_frame df override keys e :
  exists e' filled,
    autofill_keys df override e keys = Some (e', filled)
    /\ e' = set_manual_values e (manual_values e')
    /\ sublist filled keys
    /\ (forall k, ~ In k filled -> manual_values e' !! k = manual_values e !! k)
    /\ (forall k, holds_value df e k -> holds_value df e' k)
    /\ (forall k, In k filled -> holds_value df e' k)
    /\ (override = false ->
        forall k, truthy (manual_values e !! k) = true ->
                  manual_values e' !! k = manual_values e !! k /\ ~ In k filled).
Proof.
  revert e. induction keys as [|key keys IH]; intros e; simpl.
  - exists e, []. split; [reflexivity |].
    split; [symmetry; apply set_manual_values_same |].
    split; [constructor |]. split; [auto |]. split; [auto |].
    split; [intros k [] |]. intros _ k _. split; [reflexivity | intros []].
  - destruct (autofill_key_frame df override e key) as (e1 & b & -> & Hb0 & Hb1 & Hskip).
    destruct (IH e1) as (e2 & f2 & -> & Hrec & Hsub & Hkeep & Hpres & Hfill & Hset).
    assert (Hstep : forall k, k <> key -> manual_values e1 !! k = manual_values e !! k).
    { intros k Hk. destruct b; [| now rewrite Hb0].
      destruct Hb1 as (v & -> & _); [reflexivity |]. simpl.
      now apply lookup_insert_ne. }
    assert (Hpres1 : forall k, holds_value df e k -> holds_value df e1 k).
    { intros k Hk. destruct b; [| now rewrite Hb0].
      destruct Hb1 as (v & -> & Hv); [reflexivity |].
      destruct (decide (k = key)) as [-> | Hne].
      - exists v. split; [apply lookup_insert_eq | exact Hv].
      - destruct Hk as (w & Hw & Hfw). exists w. split; [| exact Hfw].
        simpl. now rewrite lookup_insert_ne. }
    eexists _, _. split; [reflexivity |].
    split.
    { rewrite Hrec. destruct b; [| now rewrite Hb0].
      destruct Hb1 as (v & -> & _); reflexivity. }
    split.
    { destruct b; [now apply sublist_skip | now apply sublist_cons]. }
    split; [| split; [| split]].
    + intros k Hk. destruct b.
      * rewrite Hkeep, Hstep; [reflexivity | |]; intros ?; apply Hk; [subst; now left | now right].
      * rewrite Hkeep by exact Hk. now rewrite Hb0.
    + intros k Hk. auto.
    + intros k Hk. destruct b; [| now apply Hfill].
      destruct Hk as [<- | Hk]; [| now apply Hfill].
      apply Hpres. destruct Hb1 as (v & -> & Hv); [reflexivity |].
      exists v. split; [apply lookup_insert_eq | exact Hv].
    + intros Ho k Hk.
      assert (Hb : k = key -> b = false) by (intros ->; auto).
      assert (Hk1 : manual_values e1 !! k = manual_values e !! k).
      { destruct (decide (k = key)) as [Heq | Hne]; [| now apply Hstep].
        now rewrite (Hb0 (Hb Heq)). }
      destruct (Hset Ho k) as [Hv Hn]; [now rewrite Hk1 |].
      split; [congruence |]. destruct b; [| exact Hn].
      intros [<- | Hin]; [| contradiction]. now specialize (Hb eq_refl).
Qed.

End AutofillFrame.

(** X12.  [autofill_manual_from_df] never raises and changes nothing of
    the engine but the manual values.  The keys it reports as filled are
    keys of the request, in the order of the request; the value of every
    other key stays as it was; the value of a filled key is the trimmed
    text of some cell of the table and not a marker of a missing value
    (so never the empty string); without [override], a key that already
    had a non-empty value keeps it and is not reported; and on an absent
    or empty table nothing is filled. *)
Theorem autofill_touches_only_what_it_fills {RT : PyRuntime}
    (e : DataEngine.Engine) (df : option DataFrame) (keys : list ustring)
    (override : bool) :
  exists e' filled,
    DataEngine.autofill_manual_from_df e df keys override = Some (e', filled)
    /\ e' = DataEngine.set_manual_values e (DataEngine.manual_values e')
    /\ sublist filled keys
    /\ (forall k, ~ In k filled ->
                  DataEngine.manual_values e' !! k = DataEngine.manual_values e !! k)
    /\ (forall k, In k filled ->
          exists table v,
            df = Some table
            /\ DataEngine.manual_values e' !! k = Some v
            /\ v <> [] /\ filled_value table v)
    /\ (override = false ->
        forall k, truthy (DataEngine.manual_values e !! k) = true ->
                  DataEngine.manual_values e' !! k = DataEngine.manual_values e !! k
                  /\ ~ In k filled)
    /\ (absent_or_empty df = true -> e' = e /\ filled = []).
Proof.
  unfold DataEngine.autofill_manual_from_df.
  assert (Hnone : exists e' filled : _,
             Some (e, @nil ustring) = Some (e', filled)
             /\ e' = DataEngine.set_manual_values e (DataEngine.manual_values e')
             /\ sublist filled keys
             /\ (forall k, ~ In k filled ->
                   DataEngine.manual_values e' !! k = DataEngine.manual_values e !! k)
             /\ (forall k, In k filled ->
                   exists table v,
                     df = Some table
                     /\ DataEngine.manual_values e' !! k = Some v
                     /\ v <> [] /\ filled_value table v)
             /\ (override = false ->
                 forall k, truthy (DataEngine.manual_values e !! k) = true ->
                   DataEngine.manual_values e' !! k = DataEngine.manual_values e !! k
                   /\ ~ In k filled)
             /\ (absent_or_empty df = true -> e' = e /\ filled = [])).
  { exists e, []. split; [reflexivity |].
    split; [symmetry; apply set_manual_values_same |].
    split; [apply sublist_nil_l |]. split; [auto |].
    split; [intros k [] |]. split; auto. }
  destruct df as [table|]; [| exact Hnone].
  destruct (df_empty table) eqn:Ee; [exact Hnone |]. clear Hnone.
  destruct (autofill_keys_frame table override keys e)
    as (e' & filled & -> & Hrec & Hsub & Hkeep & _ & Hfill & Hset).
  exists e', filled. split; [reflexivity |]. split; [exact Hrec |].
  split; [exact Hsub |]. split; [exact Hkeep |]. split; [| split; [exact Hset |]].
  - intros k Hk. destruct (Hfill k Hk) as (v & Hv & Hf).
    exists table, v. split; [reflexivity |]. split; [exact Hv |]. split; [| exact Hf].
    intros ->. destruct Hf as [Hf _]. discriminate.
  - simpl. congruence.
Qed.

(** ** The state directory *)

Ltac diff_names := let H := fresh in intros H; vm_compute in H; discriminate H.

(** What [save_state] leaves in the directory. *)
Lemma save_state_files (e : DataEngine.Engine) w dir :
  let d := DataEngine.save_state e w dir in
  d !! U "src_df.pkl"
  = (if absent_or_empty (DataEngine.src_df e) then dir !! U "src_df.pkl"
     else FPickle <$> DataEngine.src_df e)
  /\ d !! U "staged_df.pkl"
     = (if absent_or_empty (DataEngine.staged_df e) then dir !! U "staged_df.pkl"
        else FPickle <$> DataEngine.staged_df e)
  /\ d !! U "processed_df.pkl"
     = (if absent_or_empty (DataEngine.processed_df e) then dir !! U "processed_df.pkl"
        else FPickle <$> DataEngine.processed_df e)
  /\ d !! U "config.json"
     = Some (FConfig
               {| cfg_loaded_files_top := Some (DataEngine.loaded_files_top e);
                  cfg_loaded_files_bottom := Some (DataEngine.loaded_files_bottom e);
                  cfg_manual_values := Some (DataEngine.manual_values e);
                  cfg_window := default ∅ w |})
  /\ forall name,
       ~ In name [U "src_df.pkl"; U "staged_df.pkl"; U "processed_df.pkl";
                  U "config.json"] ->
       d !! name = dir !! name.
Proof.
  cbn zeta. unfold DataEngine.save_state, absent_or_empty.
  destruct (DataEngine.src_df e) as [a|]; [destruct (df_empty a) |];
    (destruct (DataEngine.staged_df e) as [b|]; [destruct (df_empty b) |]);
    (destruct (DataEngine.processed_df e) as [c|]; [destruct (df_empty c) |]);
    (split; [| split; [| split; [| split]]]);
    try (intros name Hn; simpl in Hn);
    rewrite ?lookup_insert_eq;
    repeat (rewrite lookup_insert_ne by (first [diff_names | intros ?; tauto]);
            rewrite ?lookup_insert_eq);
    reflexivity.
Qed.

(** What [load_state] reads when no pickle is unreadable. *)
Lemma load_state_readable (e0 : DataEngine.Engine) (d : directory) :
  absent_or_pickle (d !! U "src_df.pkl") ->
  absent_or_pickle (d !! U "staged_df.pkl") ->
  absent_or_pickle (d !! U "processed_df.pkl") ->
  let e1 := DataEngine.load_state e0 d in
  DataEngine.schema e1 = DataEngine.schema e0
  /\ DataEngine.src_df e1
     = match d !! U "src_df.pkl" with
       | Some (FPickle df) => Some df
       | _ => DataEngine.src_df e0
       end
  /\ DataEngine.staged_df e1
     = match d !! U "staged_df.pkl" with
       | Some (FPickle df) => Some df
       | _ => DataEngine.staged_df e0
       end
  /\ DataEngine.processed_df e1
     = match d !! U "processed_df.pkl" with
       | Some (FPickle df) => Some df
       | _ => DataEngine.processed_df e0
       end.
Proof.
  unfold DataEngine.load_state, read_pickle, read_json.
  destruct (d !! U "src_df.pkl") as [[a| |]|]; try contradiction;
    (destruct (d !! U "staged_df.pkl") as [[b| |]|]; try contradiction);
    (destruct (d !! U "processed_df.pkl") as [[c| |]|]; try contradiction);
    intros _ _ _;
    destruct (d !! U "config.json") as [[p0 | q0 |]|]; cbn; repeat split; reflexivity.
Qed.

(** The configuration is read whatever the pickles are. *)
Lemma load_state_config (e0 : DataEngine.Engine) (d : directory) cfg :
  d !! U "config.json" = Some (FConfig cfg) ->
  let e1 := DataEngine.load_state e0 d in
  DataEngine.loaded_files_top e1 = default [] (cfg_loaded_files_top cfg)
  /\ DataEngine.loaded_files_bottom e1 = default [] (cfg_loaded_files_bottom cfg)
  /\ DataEngine.manual_values e1 = default ∅ (cfg_manual_values cfg).
Proof.
  intros Hc. unfold DataEngine.load_state, read_pickle, read_json. rewrite Hc.
  destruct (d !! U "src_df.pkl") as [[a| |]|];
    destruct (d !! U "staged_df.pkl") as [[b| |]|];
    destruct (d !! U "processed_df.pkl") as [[c| |]|];
    cbn; repeat split; reflexivity.
Qed.

Lemma restored_pick saved old before :
  restored saved old before
    match (if absent_or_empty saved then old else FPickle <$> saved) with
    | Some (FPickle df) => Some df
    | _ => before
    end.
Proof.
  unfold restored, absent_or_empty. split.
  - intros df -> Hne. now rewrite Hne.
  - intros He. destruct saved as [df|]; [rewrite He |];
      (split; [now intros df' -> | now intros ->]).
Qed.

Lemma saved_readable saved old :
  absent_or_pickle old ->
  absent_or_pickle (if absent_or_empty saved then old else FPickle <$> saved).
Proof.
  intros Ho. destruct (absent_or_empty saved) eqn:E; [exact Ho |].
  destruct saved; [exact I | discriminate].
Qed.

(** X13.  A save followed by a load, in a directory whose pickles (if
    any) can be read: the file lists and the manual values come back as
    they were saved, and so does every table that has rows and columns.
    A table that is absent or empty is not written: in its place the
    load finds the pickle left in the directory by an earlier save, and
    leaves the buffer as it is when there is no such pickle.  The schema
    is not part of the saved state. *)
Theorem save_then_load_restores (e e0 : DataEngine.Engine)
    (window : option (gmap (list N) Z)) (dir : directory) :
  absent_or_pickle (dir !! U "src_df.pkl") ->
  absent_or_pickle (dir !! U "staged_df.pkl") ->
  absent_or_pickle (dir !! U "processed_df.pkl") ->
  let e1 := DataEngine.load_state e0 (DataEngine.save_state e window dir) in
  DataEngine.schema e1 = DataEngine.schema e0
  /\ DataEngine.loaded_files_top e1 = DataEngine.loaded_files_top e
  /\ DataEngine.loaded_files_bottom e1 = DataEngine.loaded_files_bottom e
  /\ DataEngine.manual_values e1 = DataEngine.manual_values e
  /\ restored (DataEngine.src_df e) (dir !! U "src_df.pkl")
       (DataEngine.src_df e0) (DataEngine.src_df e1)
  /\ restored (DataEngine.staged_df e) (dir !! U "staged_df.pkl")
       (DataEngine.staged_df e0) (DataEngine.staged_df e1)
  /\ restored (DataEngine.processed_df e) (dir !! U "processed_df.pkl")
       (DataEngine.processed_df e0) (DataEngine.processed_df e1).
Proof.
  intros H1 H2 H3 e1.
  destruct (save_state_files e window dir) as (S1 & S2 & S3 & S4 & _).
  cbn zeta in S1, S2, S3, S4.
  set (d := DataEngine.save_state e window dir) in *.
  destruct (load_state_readable e0 d) as (L0 & L1 & L2 & L3).
  { rewrite S1. now apply saved_readable. }
  { rewrite S2. now apply saved_readable. }
  { rewrite S3. now apply saved_readable. }
  destruct (load_state_config e0 d _ S4) as (C1 & C2 & C3).
  cbn zeta in L0, L1, L2, L3, C1, C2, C3. fold e1 in L0, L1, L2, L3, C1, C2, C3.
  split; [exact L0 |]. split; [exact C1 |]. split; [exact C2 |]. split; [exact C3 |].
  rewrite L1, L2, L3, S1, S2, S3.
  split; [apply restored_pick |]. split; apply restored_pick.
Qed.

Lemma save_then_load_restores_witness :
  let e := DataEngine.set_src_df (DataEngine.new_engine None) (Some SampleMapping.table) in
  DataEngine.src_df
    (DataEngine.load_state (DataEngine.new_engine None) (DataEngine.save_state e None ∅))
  = Some SampleMapping.table.
Proof.
  intro e.
  destruct (save_then_load_restores e (DataEngine.new_engine None) None ∅)
    as (_ & _ & _ & _ & [H _] & _).
  - rewrite lookup_empty. exact I.
  - rewrite lookup_empty. exact I.
  - rewrite lookup_empty. exact I.
  - apply H; reflexivity.
Defined.

(** X14.  [load_state] reads the three pickles in one block: at the first
    pickle that is there but cannot be read, the block ends, and the
    tables that come after it (system, staged, processed, in this order)
    are not loaded even when their pickles are good; the tables read
    before it are kept.  The file lists and the manual values are read
    from the configuration all the same. *)
Theorem load_state_stops_at_unreadable_pickle (e0 : DataEngine.Engine) (d : directory) :
  let e1 := DataEngine.load_state e0 d in
  (~ absent_or_pickle (d !! U "src_df.pkl") ->
   DataEngine.src_df e1 = DataEngine.src_df e0
   /\ DataEngine.staged_df e1 = DataEngine.staged_df e0
   /\ DataEngine.processed_df e1 = DataEngine.processed_df e0)
  /\ (absent_or_pickle (d !! U "src_df.pkl") ->
      ~ absent_or_pickle (d !! U "staged_df.pkl") ->
      DataEngine.src_df e1
      = match d !! U "src_df.pkl" with
        | Some (FPickle df) => Some df
        | _ => DataEngine.src_df e0
        end
      /\ DataEngine.staged_df e1 = DataEngine.staged_df e0
      /\ DataEngine.processed_df e1 = DataEngine.processed_df e0)
  /\ (forall cfg,
         d !! U "config.json" = Some (FConfig cfg) ->
         DataEngine.loaded_files_top e1 = default [] (cfg_loaded_files_top cfg)
         /\ DataEngine.loaded_files_bottom e1 = default [] (cfg_loaded_files_bottom cfg)
         /\ DataEngine.manual_values e1 = default ∅ (cfg_manual_values cfg)).
Proof.
  cbn zeta. split; [| split].
  - unfold DataEngine.load_state, read_pickle, read_json.
    destruct (d !! U "src_df.pkl") as [[a| |]|]; simpl absent_or_pickle;
      intros H; try (exfalso; now apply H);
      destruct (d !! U "config.json") as [[p0 | q0 |]|]; cbn; repeat split; reflexivity.
  - unfold DataEngine.load_state, read_pickle, read_json.
    destruct (d !! U "src_df.pkl") as [[a| |]|]; simpl absent_or_pickle;
      intros H0; try contradiction;
      (destruct (d !! U "staged_df.pkl") as [[b| |]|]; simpl absent_or_pickle;
         intros H; try (exfalso; now apply H));
      destruct (d !! U "config.json") as [[p0 | q0 |]|]; cbn; repeat split; reflexivity.
  - intros cfg Hc. exact (load_state_config e0 d cfg Hc).
Qed.

(** *** The resets *)

Lemma unlink_lookup (dir : directory) name name' :
  unlink_if_exists dir name !! name'
  = if bool_decide (name = name') then None else dir !! name'.
Proof.
  unfold unlink_if_exists. destruct (bool_decide (name = name')) eqn:E.
  - apply bool_decide_eq_true in E. subst. apply lookup_delete_eq.
  - apply bool_decide_eq_false in E. now apply lookup_delete_ne.
Qed.

(** X15.  The resets forget for good.  After [reset_state] the engine has
    no table, no file and no manual value, the four files of the state
    are gone from the directory, and a load finds nothing: the loading
    engine stays as it is.  After [reset_top] the system and the
    processed table are gone from the engine, the staged table, its file
    list and the manual values are untouched, and a save followed by a
    load brings no system and no processed table back; [reset_bottom]
    does the same for the staged table.  No file other than those of the
    state is touched. *)
Theorem resets_forget (e e0 : DataEngine.Engine)
    (window : option (gmap (list N) Z)) (dir : directory) :
  (let e1 := fst (DataEngine.reset_state e dir) in
   let d1 := snd (DataEngine.reset_state e dir) in
   DataEngine.src_df e1 = None /\ DataEngine.staged_df e1 = None
   /\ DataEngine.processed_df e1 = None
   /\ DataEngine.loaded_files_top e1 = [] /\ DataEngine.loaded_files_bottom e1 = []
   /\ DataEngine.manual_values e1 = ∅
   /\ DataEngine.schema e1 = DataEngine.schema e
   /\ DataEngine.load_state e0 d1 = e0
   /\ DataEngine.load_state e0 (DataEngine.save_state e1 window d1)
      = DataEngine.set_manual_values
          (DataEngine.set_loaded_files_bottom
             (DataEngine.set_loaded_files_top e0 []) []) ∅)
  /\ (let e1 := fst (DataEngine.reset_top e dir) in
      let d1 := snd (DataEngine.reset_top e dir) in
      let e2 := DataEngine.load_state e0 (DataEngine.save_state e1 window d1) in
      DataEngine.src_df e1 = None /\ DataEngine.processed_df e1 = None
      /\ DataEngine.loaded_files_top e1 = []
      /\ DataEngine.staged_df e1 = DataEngine.staged_df e
      /\ DataEngine.loaded_files_bottom e1 = DataEngine.loaded_files_bottom e
      /\ DataEngine.manual_values e1 = DataEngine.manual_values e
      /\ DataEngine.src_df e2 = DataEngine.src_df e0
      /\ DataEngine.processed_df e2 = DataEngine.processed_df e0
      /\ DataEngine.loaded_files_top e2 = []
      /\ forall name, name <> U "src_df.pkl" -> name <> U "processed_df.pkl" ->
           d1 !! name = dir !! name)
  /\ (let e1 := fst (DataEngine.reset_bottom e dir) in
      let d1 := snd (DataEngine.reset_bottom e dir) in
      let e2 := DataEngine.load_state e0 (DataEngine.save_state e1 window d1) in
      DataEngine.staged_df e1 = None
      /\ DataEngine.loaded_files_bottom e1 = []
      /\ DataEngine.src_df e1 = DataEngine.src_df e
      /\ DataEngine.processed_df e1 = DataEngine.processed_df e
      /\ DataEngine.loaded_files_top e1 = DataEngine.loaded_files_top e
      /\ DataEngine.manual_values e1 = DataEngine.manual_values e
      /\ DataEngine.staged_df e2 = DataEngine.staged_df e0
      /\ DataEngine.loaded_files_bottom e2 = []
      /\ forall name, name <> U "staged_df.pkl" -> d1 !! name = dir !! name).
Proof.
  split; [| split].
  - cbn zeta. unfold DataEngine.reset_state. cbn [fst snd foldl].
    do 7 (split; [reflexivity |]).
    set (d1 := unlink_if_exists _ _).
    assert (D1 : d1 !! U "src_df.pkl" = None)
      by (unfold d1; rewrite !unlink_lookup; reflexivity).
    assert (D2 : d1 !! U "staged_df.pkl" = None)
      by (unfold d1; rewrite !unlink_lookup; reflexivity).
    assert (D3 : d1 !! U "processed_df.pkl" = None)
      by (unfold d1; rewrite !unlink_lookup; reflexivity).
    assert (D4 : d1 !! U "config.json" = None)
      by (unfold d1; rewrite !unlink_lookup; reflexivity).
    clearbody d1. split.
    + unfold DataEngine.load_state. now rewrite D1, D2, D3, D4.
    + set (e1 := {| DataEngine.schema := DataEngine.schema e;
                    DataEngine.src_df := None |}).
      destruct (save_state_files e1 window d1) as (S1 & S2 & S3 & S4 & _).
      cbn zeta in S1, S2, S3, S4. simpl in S1, S2, S3, S4.
      rewrite D1 in S1. rewrite D2 in S2. rewrite D3 in S3.
      unfold DataEngine.load_state, read_json. now rewrite S1, S2, S3, S4.
  - cbn zeta. unfold DataEngine.reset_top. cbn [fst snd].
    do 6 (split; [reflexivity |]).
    set (e1 := DataEngine.set_loaded_files_top _ []).
    set (d1 := unlink_if_exists _ _).
    assert (D1 : d1 !! U "src_df.pkl" = None)
      by (unfold d1; rewrite !unlink_lookup; reflexivity).
    assert (D3 : d1 !! U "processed_df.pkl" = None)
      by (unfold d1; rewrite !unlink_lookup; reflexivity).
    assert (Dn : forall name, name <> U "src_df.pkl" -> name <> U "processed_df.pkl" ->
                   d1 !! name = dir !! name).
    { intros name N1 N2. unfold d1. rewrite !unlink_lookup.
      rewrite !bool_decide_eq_false_2 by congruence. reflexivity. }
    clearbody d1.
    destruct (save_state_files e1 window d1) as (S1 & _ & S3 & S4 & _).
    cbn zeta in S1, S3, S4. simpl in S1, S3, S4. rewrite D1 in S1. rewrite D3 in S3.
    destruct (load_state_config e0 _ _ S4) as (C1 & _).
    cbn zeta in C1. simpl in C1.
    split; [| split; [| split; [exact C1 | exact Dn]]].
    + unfold DataEngine.load_state, read_pickle, read_json. rewrite S1, S3, S4.
      destruct (DataEngine.save_state e1 window d1 !! U "staged_df.pkl") as [[b| |]|];
        reflexivity.
    + unfold DataEngine.load_state, read_pickle, read_json. rewrite S1, S3, S4.
      destruct (DataEngine.save_state e1 window d1 !! U "staged_df.pkl") as [[b| |]|];
        reflexivity.
  - cbn zeta. unfold DataEngine.reset_bottom. cbn [fst snd].
    do 6 (split; [reflexivity |]).
    set (e1 := DataEngine.set_loaded_files_bottom _ []).
    set (d1 := unlink_if_exists _ _).
    assert (D2 : d1 !! U "staged_df.pkl" = None)
      by (unfold d1; rewrite !unlink_lookup; reflexivity).
    assert (Dn : forall name, name <> U "staged_df.pkl" -> d1 !! name = dir !! name).
    { intros name N1. unfold d1. rewrite !unlink_lookup.
      rewrite !bool_decide_eq_false_2 by congruence. reflexivity. }
    clearbody d1.
    destruct (save_state_files e1 window d1) as (_ & S2 & _ & S4 & _).
    cbn zeta in S2, S4. simpl in S2, S4. rewrite D2 in S2.
    destruct (load_state_config e0 _ _ S4) as (_ & C2 & _).
    cbn zeta in C2. simpl in C2.
    split; [| split; [exact C2 | exact Dn]].
    unfold DataEngine.load_state, read_pickle, read_json. rewrite S2, S4.
    destruct (DataEngine.save_state e1 window d1 !! U "src_df.pkl") as [[a| |]|];
      try reflexivity;
      destruct (DataEngine.save_state e1 window d1 !! U "processed_df.pkl") as [[c| |]|];
      reflexivity.
Qed.

(** ** Reading files *)

Lemma column_or_nan_cells df c :
  column_or_nan df c = map (fun r => cell_at (columns df) r c) (rows df).
Proof.
  unfold column_or_nan, getcol, has_column, cell_at, df_len.
  destruct (index_of c (columns df)); simpl; [reflexivity |].
  induction (rows df) as [|r l IH]; simpl; [reflexivity | now rewrite IH].
Qed.

Lemma getcol_column_or_nan df c :
  In c (columns df) -> getcol df c = Some (column_or_nan df c).
Proof. intros H. rewrite column_or_nan_cells. now apply getcol_In. Qed.

Lemma cells_under_In (P : cell -> bool) df c :
  (forall r, In r (rows df) -> P (cell_at (columns df) r c) = true)
  <-> (forall x, In x (cells_under df c) -> P x = true).
Proof.
  unfold cells_under. split.
  - intros H x (r & <- & Hr)%in_map_iff. now apply H.
  - intros H r Hr. apply H, in_map_iff. eauto.
Qed.

Lemma flat_map_ext_in {A B} (f g : A -> list B) (l : list A) :
  (forall x, In x l -> f x = g x) -> flat_map f l = flat_map g l.
Proof.
  induction l as [|x l IH]; intros H; simpl; [reflexivity |].
  rewrite (H x) by now left. f_equal. apply IH. intros y Hy. apply H. now right.
Qed.

Lemma flat_map_map {A B C} (f : A -> B) (g : B -> list C) (l : list A) :
  flat_map g (map f l) = flat_map (fun x => g (f x)) l.
Proof. induction l as [|x l IH]; simpl; [reflexivity |]. now rewrite IH. Qed.

Lemma Forall2_flat_map {A B C} (R : B -> C -> Prop) (f : A -> list B)
    (g : A -> list C) (l : list A) :
  (forall x, In x l -> Forall2 R (f x) (g x)) ->
  Forall2 R (flat_map f l) (flat_map g l).
Proof.
  induction l as [|x l IH]; intros H; simpl; [constructor |].
  apply Forall2_app; [apply H; now left |]. apply IH. intros y Hy. apply H. now right.
Qed.

(** A string is never converted. *)
Lemma same_value_text l l' :
  Forall2 same_value l l' ->
  (forall x, In x l -> exists s, x = CStr s) -> l' = l.
Proof.
  induction 1 as [|x y l l' Hxy _ IH]; intros Ht; [reflexivity |].
  rewrite IH by (intros z Hz; apply Ht; now right). f_equal.
  destruct (Ht x (or_introl eq_refl)) as [s ->].
  destruct Hxy as [-> | [(z & [=] & _) | [[=] _]]]. reflexivity.
Qed.

(** The cells of the tables of [pd.concat(frames)] under a column, and
    the cells of the result. *)
Lemma concat_frames_same frames c :
  In c (columns (concat_frames frames)) ->
  exists cells,
    getcol (concat_frames frames) c = Some cells
    /\ Forall2 same_value (flat_map (fun df => cells_under df c) frames) cells
    /\ (unconverted frames -> cells = flat_map (fun df => cells_under df c) frames).
Proof.
  intros Hc. eexists. split; [exact (concat_frames_getcol frames c Hc) |]. split.
  - apply Forall2_flat_map. intros f Hf. unfold cells_under. rewrite map_map.
    apply Forall2_fmap. apply Forall_Forall2_diag. apply Forall_forall.
    intros r Hr. apply list_elem_of_In in Hr. now apply concat_cell_same.
  - intros Hu. apply flat_map_ext_in. intros f Hf. unfold cells_under.
    rewrite map_map. apply map_ext_in. intros r Hr.
    apply concat_cell_keep; auto. now apply concat_frames_columns_In.
Qed.

Section ReadFiles.
Context {RT : PyRuntime}.
Variables read_csv read_excel : ustring -> option DataFrame.
Variable path_name : ustring -> ustring.

(** The tables the loop collects. *)
Lemma read_files_frames paths :
  DataEngine.read_files read_csv read_excel path_name paths
  = concat_all
      (map (fun '(path, df) =>
              df_assign df (U "__kaynak_dosya__") (VScalar (CStr (path_name path))))
           (files_read read_csv read_excel paths)).
Proof.
  unfold DataEngine.read_files, files_read. f_equal.
  assert (H : forall acc,
             foldl (fun frames path =>
                      match DataEngine._read_any read_csv read_excel path with
                      | None => frames
                      | Some df =>
                          if df_empty df then frames
                          else frames
                               ++ [df_assign df (U "__kaynak_dosya__")
                                     (VScalar (CStr (path_name path)))]
                      end) acc paths
             = acc ++ map (fun '(path, df) =>
                             df_assign df (U "__kaynak_dosya__")
                               (VScalar (CStr (path_name path))))
                          (omap (fun path =>
                                   match DataEngine._read_any read_csv read_excel path with
                                   | Some df => if df_empty df then None else Some (path, df)
                                   | None => None
                                   end) paths)).
  { induction paths as [|p paths IH]; intros acc; simpl; [now rewrite app_nil_r |].
    rewrite IH. destruct (DataEngine._read_any read_csv read_excel p) as [df|];
      [| reflexivity].
    destruct (df_empty df); [reflexivity |]. simpl. now rewrite <- app_assoc. }
  exact (H []).
Qed.

Lemma tagged_cells df name c :
  let t := df_assign df (U "__kaynak_dosya__") (VScalar (CStr name)) in
  df_len t = df_len df
  /\ (In c (columns t) <-> c = U "__kaynak_dosya__" \/ In c (columns df))
  /\ column_or_nan t c
     = if bool_decide (c = U "__kaynak_dosya__")
       then repeat (CStr name) (df_len df)
       else column_or_nan df c.
Proof.
  cbn zeta. rewrite (assign_fits df _ (VScalar (CStr name)) I).
  split; [apply setitem_len |]. split.
  - rewrite setitem_columns. destruct (has_column df _) eqn:E.
    + apply has_column_In in E. split; [auto | intros [-> | ?]; auto].
    + rewrite in_app_iff. simpl. split; [intros [? | [<- | []]]; auto | intros [-> | ?]; auto].
  - unfold column_or_nan. destruct (bool_decide _) eqn:E.
    + apply bool_decide_eq_true in E. subst c. now rewrite setitem_getcol_same.
    + apply bool_decide_eq_false in E. rewrite setitem_getcol_other by exact E.
      now rewrite setitem_len.
Qed.

End ReadFiles.

(** A table that has nothing to convert has nothing to convert once the
    name of its file is written in it. *)
Lemma unconverted_tagged (tag : ustring * DataFrame -> DataFrame)
    (name : ustring * DataFrame -> ustring) files :
  (forall f c,
      (In c (columns (tag f)) <-> c = U "__kaynak_dosya__" \/ In c (columns (snd f)))
      /\ cells_under (tag f) c
         = if bool_decide (c = U "__kaynak_dosya__")
           then repeat (CStr (name f)) (df_len (snd f))
           else cells_under (snd f) c) ->
  unconverted (map snd files) -> unconverted (map tag files).
Proof.
  intros Htag Hu c (g & (f & <- & Hf)%in_map_iff & Hc).
  destruct (decide (c = U "__kaynak_dosya__")) as [-> | Hne].
  - right. intros g (f' & <- & Hf')%in_map_iff. unfold plain_under.
    apply (proj2 (cells_under_In text_or_float _ _)). rewrite (proj2 (Htag f' _)).
    rewrite bool_decide_eq_true_2 by reflexivity.
    intros x Hx. apply repeat_spec in Hx. now subst x.
  - assert (Hsame : forall f', cells_under (tag f') c = cells_under (snd f') c).
    { intros f'. rewrite (proj2 (Htag f' c)). now rewrite bool_decide_eq_false_2. }
    assert (Hc' : exists g, In g (map snd files) /\ In c (columns g)).
    { exists (snd f). split; [now apply in_map |].
      apply (proj1 (Htag f c)) in Hc as [? | ?]; [contradiction | assumption]. }
    destruct (Hu c Hc') as [Hi | Hp]; [left | right];
      intros g (f' & <- & Hf')%in_map_iff.
    + destruct (Hi (snd f') (in_map snd _ _ Hf')) as [H1 H2]. split.
      * apply (proj1 (Htag f' c)). now right.
      * apply (proj2 (cells_under_In is_int _ _)). rewrite Hsame.
        now apply (proj1 (cells_under_In is_int _ _)).
    + unfold plain_under. apply (proj2 (cells_under_In text_or_float _ _)).
      rewrite Hsame. apply (proj1 (cells_under_In text_or_float _ _)).
      apply Hp. now apply in_map.
Qed.

(** X16.  [read_files] skips the files that cannot be read and those
    without rows or columns, and gives the empty table when none is left.
    Otherwise the result has the rows of the remaining files, file after
    file in the order of the paths; its columns are the source-file
    column and the columns of these files; a row has, under the
    source-file column, the name of the file it comes from (also when the
    file has a column of that name), and under any other column the value
    of its own cell, NaN when its file has no such column: an integer
    that [pd.concat] converts comes as the float of the same value, and
    every cell is the cell of the file when each column holds integers in
    all the files or strings and floats in all of them. *)
Theorem read_files_rows_by_file {RT : PyRuntime}
    (read_csv read_excel : ustring -> option DataFrame)
    (path_name : ustring -> ustring) (paths : list ustring) :
  let files := files_read read_csv read_excel paths in
  let res := DataEngine.read_files read_csv read_excel path_name paths in
  let cells_of := fun c =>
    flat_map (fun f => if bool_decide (c = U "__kaynak_dosya__")
                       then repeat (CStr (path_name (fst f))) (df_len (snd f))
                       else column_or_nan (snd f) c)
             files in
  (files = [] -> res = empty_frame)
  /\ (files <> [] ->
      df_len res = list_sum (map (fun f => df_len (snd f)) files)
      /\ (forall c, In c (columns res) <->
                    c = U "__kaynak_dosya__"
                    \/ exists f, In f files /\ In c (columns (snd f)))
      /\ getcol res (U "__kaynak_dosya__") = Some (cells_of (U "__kaynak_dosya__"))
      /\ (forall c, In c (columns res) ->
            exists cells,
              getcol res c = Some cells /\ Forall2 same_value (cells_of c) cells)
      /\ (unconverted (map snd files) ->
          forall c, In c (columns res) -> getcol res c = Some (cells_of c))).
Proof.
  intros files res cells_of. unfold res. rewrite read_files_frames. fold files.
  split; [now intros -> |]. intros Hne.
  set (tag := fun '(path, df) =>
                df_assign df (U "__kaynak_dosya__") (VScalar (CStr (path_name path)))).
  assert (Hall : concat_all (map tag files) = concat_frames (map tag files))
    by (destruct files; [congruence | reflexivity]).
  rewrite Hall. clear Hall.
  assert (Hf0 : exists f, In f files)
    by (destruct files as [|f ?]; [congruence | exists f; now left]).
  assert (Htag : forall f c,
             df_len (tag f) = df_len (snd f)
             /\ (In c (columns (tag f)) <-> c = U "__kaynak_dosya__" \/ In c (columns (snd f)))
             /\ cells_under (tag f) c
                = if bool_decide (c = U "__kaynak_dosya__")
                  then repeat (CStr (path_name (fst f))) (df_len (snd f))
                  else column_or_nan (snd f) c).
  { intros [p d] c. destruct (tagged_cells d (path_name p) c) as (H1 & H2 & H3).
    split; [exact H1 |]. split; [exact H2 |].
    cbn [fst snd]. rewrite <- H3. symmetry. apply column_or_nan_cells. }
  assert (Hcells : forall c,
             flat_map (fun df => cells_under df c) (map tag files) = cells_of c).
  { intros c. rewrite flat_map_map. apply flat_map_ext_in. intros f _.
    exact (proj2 (proj2 (Htag f c))). }
  assert (Hcols : forall c,
             In c (columns (concat_frames (map tag files))) <->
             c = U "__kaynak_dosya__" \/ exists f, In f files /\ In c (columns (snd f))).
  { intros c. rewrite concat_frames_columns_In. split.
    - intros (x & (f & <- & Hf)%in_map_iff & Hc).
      apply (proj1 (proj2 (Htag f c))) in Hc as [-> | Hc]; [now left |].
      right. eauto.
    - intros H.
      assert (Hsome : exists f, In f files
                                /\ (c = U "__kaynak_dosya__" \/ In c (columns (snd f)))).
      { destruct H as [-> | (f & Hf & Hc)]; [| eauto].
        destruct Hf0 as [f Hf]. exists f. auto. }
      destruct Hsome as (f & Hf & Hc). exists (tag f).
      split; [apply in_map_iff; eauto |]. now apply (proj1 (proj2 (Htag f c))). }
  assert (Hsame : forall c,
             In c (columns (concat_frames (map tag files))) ->
             exists cells,
               getcol (concat_frames (map tag files)) c = Some cells
               /\ Forall2 same_value (cells_of c) cells
               /\ (unconverted (map tag files) -> cells = cells_of c)).
  { intros c Hc. destruct (concat_frames_same (map tag files) c Hc) as (cells & H1 & H2 & H3).
    rewrite Hcells in H2, H3. eauto. }
  split; [| split; [exact Hcols |]; split; [| split]].
  - rewrite concat_frames_len, map_map. f_equal. apply map_ext. intros f.
    exact (proj1 (Htag f [])).
  - destruct (Hsame (U "__kaynak_dosya__")) as (cells & H1 & H2 & _).
    { apply Hcols. now left. }
    rewrite H1. f_equal. apply same_value_text; [exact H2 |].
    intros x Hx. unfold cells_of in Hx. apply in_flat_map in Hx as (f & _ & Hx).
    rewrite bool_decide_eq_true_2 in Hx by reflexivity.
    apply repeat_spec in Hx. eauto.
  - intros c Hc. destruct (Hsame c Hc) as (cells & H1 & H2 & _). eauto.
  - intros Hu c Hc. destruct (Hsame c Hc) as (cells & H1 & _ & H3).
    rewrite H1. f_equal. apply H3.
    apply (unconverted_tagged tag (fun f => path_name (fst f))); [| exact Hu].
    intros f c'. destruct (Htag f c') as (_ & H4 & H5). split; [exact H4 |].
    rewrite H5. destruct (bool_decide _); [reflexivity | apply column_or_nan_cells].
Qed.

(** ** The value of a formula *)

Section FormulaValue.
Context {RT : PyRuntime}.
Variable py_eval : ustring -> dict pyvalue -> option pyvalue.
Import CostComponents.

(** The environment of a formula holds the component columns only. *)
Lemma local_env_ext a b :
  (forall c, In c COMPONENTS -> getcol a c = getcol b c) -> local_env a = local_env b.
Proof.
  intros H. unfold local_env. apply map_ext_in. intros c Hc. now rewrite (H c Hc).
Qed.

Lemma local_env_formulas df formulas :
  (forall n, In n (dict_keys formulas) -> ~ In n COMPONENTS) ->
  local_env (apply_formulas py_eval df formulas) = local_env df.
Proof.
  intros Hdisj. apply local_env_ext. intros c Hc.
  apply apply_formulas_getcol. intros Hin. exact (Hdisj c Hin Hc).
Qed.

End FormulaValue.

(** X17.  In [eval_formulas_on_rows], with no formula named like a
    component, every formula is evaluated on the component columns of the
    input table, whatever the other formulas are and wherever it stands
    among them: when its expression passes the character check and its
    evaluation on these columns gives a value, the result has a column of
    its name that holds this value, a scalar in every row and a series
    cell by cell (NaN beyond its end), also when the input had a column
    of that name. *)
Theorem formula_column_holds_its_value {RT : PyRuntime}
    (py_eval : ustring -> dict pyvalue -> option pyvalue)
    (h : heap) (components_df : nat) (df : DataFrame)
    (formulas : dict CostComponents.formula_expr)
    (name expr : ustring) (v : pyvalue) :
  h !! components_df = Some df ->
  NoDup (dict_keys formulas) ->
  (forall n, In n (dict_keys formulas) -> ~ In n CostComponents.COMPONENTS) ->
  In (name, CostComponents.ExprStr expr) formulas ->
  CostComponents.expr_allowed expr = true ->
  py_eval expr (CostComponents.local_env df) = Some v ->
  exists h' out res,
    CostComponents.eval_formulas_on_rows py_eval h components_df formulas = Some (h', out)
    /\ h' !! out = Some res
    /\ getcol res name = Some (assigned_cells v (df_len df)).
Proof.
  intros Hdf Hnd Hdisj Hin Hok Hval.
  destruct (eval_formulas_on_rows_heap py_eval h components_df df formulas Hdf)
    as [Hrun _].
  eexists _, _, _. split; [exact Hrun |]. split; [apply lookup_insert_eq |].
  apply in_split in Hin as (before & after & ->).
  unfold dict_keys in Hnd, Hdisj. rewrite map_app in Hnd, Hdisj. simpl in Hnd, Hdisj.
  apply NoDup_app in Hnd as (_ & _ & Hnd'). apply NoDup_cons in Hnd' as [Hafter _].
  rewrite list_elem_of_In in Hafter.
  change (before ++ (name, CostComponents.ExprStr expr) :: after)
    with (before ++ [(name, CostComponents.ExprStr expr)] ++ after).
  rewrite !apply_formulas_app.
  rewrite (apply_formulas_getcol _ _ after) by exact Hafter.
  assert (Henv : CostComponents.local_env (apply_formulas py_eval df before)
                 = CostComponents.local_env df).
  { apply local_env_formulas. intros n Hn. apply Hdisj, in_or_app. now left. }
  rewrite <- (apply_formulas_len py_eval df before).
  set (mid := apply_formulas py_eval df before) in *.
  unfold apply_formulas at 1. cbn [foldl]. unfold apply_formula.
  rewrite Hok, Henv, Hval. apply setitem_getcol_same.
Qed.

Lemma formula_column_holds_its_value_witness :
  exists h' out res,
    @CostComponents.eval_formulas_on_rows ascii_only Sample.name_eval
      {[ 0%nat := Sample.components ]} 0%nat Sample.formulas = Some (h', out)
    /\ h' !! out = Some res
    /\ getcol res (U "A") = Some [CInt 100; CInt 50].
Proof.
  apply (@formula_column_holds_its_value ascii_only Sample.name_eval
           {[ 0%nat := Sample.components ]} 0%nat Sample.components Sample.formulas
           (U "A") (U "AMOR") (VSeries [CInt 100; CInt 50])).
  - reflexivity.
  - apply (bool_decide_unpack _). vm_compute. exact I.
  - intros n Hn Hc. apply list_elem_of_In in Hn, Hc. revert Hn Hc.
    intros [-> | [-> | [-> | []%elem_of_nil]%elem_of_cons]%elem_of_cons]%elem_of_cons Hc;
      revert Hc; apply (bool_decide_unpack _); vm_compute; exact I.
  - now left.
  - reflexivity.
  - reflexivity.
Defined.

(** ** The formulas of a workbook *)

Lemma dict_has_keys {V} (d : dict V) k : dict_has d k = true <-> In k (dict_keys d).
Proof.
  unfold dict_has, dict_keys. induction d as [|[k' v'] d IH]; simpl.
  - split; [discriminate | tauto].
  - destruct (ustr_eqb k' k) eqn:E.
    + apply ustr_eqb_eq in E. split; [auto | reflexivity].
    + apply ustr_eqb_neq in E. rewrite IH. split; [auto | intros [? | ?]; [contradiction | auto]].
Qed.

Lemma dict_set_NoDup {V} (d : dict V) k v :
  NoDup (dict_keys d) -> NoDup (dict_keys (dict_set d k v)).
Proof.
  intros Hnd. rewrite dict_keys_set. destruct (dict_has d k) eqn:E; [exact Hnd |].
  apply NoDup_app. split; [exact Hnd |]. split; [| apply NoDup_singleton].
  intros x Hx Hx'. apply list_elem_of_singleton in Hx'. subst x.
  apply list_elem_of_In, dict_has_keys in Hx. congruence.
Qed.

Lemma foldl_dict_set_get (l : list (ustring * ustring)) acc k :
  dict_get (foldl (fun d p => dict_set d (fst p) (snd p)) acc l) k
  = match last_named k l with
    | Some v => Some v
    | None => dict_get acc k
    end.
Proof.
  revert acc. induction l as [|[n ex] l IH]; intros acc; simpl; [reflexivity |].
  rewrite IH. destruct (last_named k l); [reflexivity |].
  rewrite dict_get_set. now destruct (ustr_eqb n k).
Qed.

Lemma foldl_dict_set_NoDup (l : list (ustring * ustring)) acc :
  NoDup (dict_keys acc) ->
  NoDup (dict_keys (foldl (fun d p => dict_set d (fst p) (snd p)) acc l)).
Proof.
  revert acc. induction l as [|p l IH]; intros acc H; simpl; [exact H |].
  apply IH. now apply dict_set_NoDup.
Qed.

Lemma foldl_dict_set_nonempty (l : list (ustring * ustring)) acc :
  acc <> [] \/ l <> [] ->
  foldl (fun d p => dict_set d (fst p) (snd p)) acc l <> [].
Proof.
  assert (Hset : forall (d : dict ustring) k v, dict_set d k v <> []).
  { intros d k v. destruct d as [|[k' v'] d]; simpl; [discriminate |].
    destruct (ustr_eqb k' k); discriminate. }
  revert acc. induction l as [|p l IH]; intros acc H; simpl.
  - destruct H; congruence.
  - apply IH. left. apply Hset.
Qed.

Section LoadFormulas.
Context {RT : PyRuntime}.
Import CostComponents.

(** The loop over the rows sets, row after row, the formula of the row. *)
Lemma formulas_of_rows_found df name_col expr_col :
  formulas_of_rows df name_col expr_col
  = foldl (fun d p => dict_set d (fst p) (snd p)) []
          (omap (row_formula (columns df) name_col expr_col) (iterrows df)).
Proof.
  unfold formulas_of_rows.
  assert (H : forall rws acc,
             foldl (fun formulas r =>
                      let nm := strip (py_str (cell_at (columns df) r name_col)) in
                      let ex := strip (py_str (cell_at (columns df) r expr_col)) in
                      match nm, ex with
                      | _ :: _, _ :: _ => dict_set formulas nm ex
                      | _, _ => formulas
                      end) acc rws
             = foldl (fun d p => dict_set d (fst p) (snd p)) acc
                     (omap (row_formula (columns df) name_col expr_col) rws)).
  { induction rws as [|r rws IH]; intros acc; [reflexivity |].
    cbn [foldl omap list_omap]. unfold row_formula at 1.
    destruct (strip (py_str (cell_at (columns df) r name_col))) as [|n nm];
      [apply IH |].
    destruct (strip (py_str (cell_at (columns df) r expr_col))) as [|x ex];
      [apply IH |].
    cbn [foldl]. apply IH. }
  apply H.
Qed.

End LoadFormulas.

(** X18.  [load_formulas_from_excel] never gives an empty set of formulas
    and never raises, and no name occurs twice in what it gives.  It
    gives the default set when the workbook cannot be read; when
    [_find_col_by_candidates] finds no name column or no expression
    column in it; and when no row has both a name and an expression.
    Otherwise the formulas are those of the rows, as [iterrows] hands
    them, that have a non-empty trimmed text under the name column and
    under the expression column: a name has the expression of the last
    such row with that name.  In a workbook with the rows (" A ",
    " AMOR + DIS "), ("  ", "GUG"), ("B", 3) and ("A", "ENER") that is
    A = "ENER" and B = "3"; in a workbook of numbers with the row
    (1, 2.5), where [iterrows] hands the integer as a float, it is
    1.0 = "2.5". *)
Theorem load_formulas_from_rows_or_default {RT : PyRuntime}
    (read_excel : ustring -> option DataFrame) (path : ustring) :
  let formulas := CostComponents.load_formulas_from_excel read_excel path in
  formulas <> []
  /\ NoDup (dict_keys formulas)
  /\ (read_excel path = None -> formulas = CostComponents.DEFAULT_FORMULAS)
  /\ (forall df,
         read_excel path = Some df ->
         let name_col :=
           CostComponents._find_col_by_candidates (Some df)
             [U "name"; U "formul ad"; U "formül adı"; U "kod"] in
         let expr_col :=
           CostComponents._find_col_by_candidates (Some df)
             [U "expr"; U "formul"; U "formül"; U "expression"] in
         (truthy name_col = false \/ truthy expr_col = false ->
          formulas = CostComponents.DEFAULT_FORMULAS)
         /\ forall nc ec,
              name_col = Some nc -> nc <> [] -> expr_col = Some ec -> ec <> [] ->
              let found := omap (row_formula (columns df) nc ec) (iterrows df) in
              In nc (columns df) /\ In ec (columns df)
              /\ (found = [] -> formulas = CostComponents.DEFAULT_FORMULAS)
              /\ (found <> [] ->
                  forall name, dict_get formulas name = last_named name found))
  /\ @CostComponents.load_formulas_from_excel ascii_decimal
       (fun _ => Some SampleFormulas.text) []
     = [ (U "A", U "ENER"); (U "B", U "3") ]
  /\ @CostComponents.load_formulas_from_excel ascii_decimal
       (fun _ => Some SampleFormulas.numeric) []
     = [ (U "1.0", U "2.5") ].
Proof.
  cbn zeta.
  assert (Hdef : CostComponents.DEFAULT_FORMULAS <> []
                 /\ NoDup (dict_keys CostComponents.DEFAULT_FORMULAS)).
  { split; [discriminate |]. apply NoDup_singleton. }
  destruct Hdef as [D1 D2].
  split; [| split; [| split; [| split; [| split; reflexivity]]]].
  - unfold CostComponents.load_formulas_from_excel.
    destruct (read_excel path) as [df|]; [| exact D1].
    destruct (CostComponents._find_col_by_candidates (Some df) _) as [[|n0 nc]|];
      try exact D1.
    destruct (CostComponents._find_col_by_candidates (Some df) _) as [[|e0 ec]|];
      try exact D1.
    destruct (CostComponents.formulas_of_rows df (n0 :: nc) (e0 :: ec)); [exact D1 | discriminate].
  - unfold CostComponents.load_formulas_from_excel.
    destruct (read_excel path) as [df|]; [| exact D2].
    destruct (CostComponents._find_col_by_candidates (Some df) _) as [[|n0 nc]|];
      try exact D2.
    destruct (CostComponents._find_col_by_candidates (Some df) _) as [[|e0 ec]|];
      try exact D2.
    pose proof (foldl_dict_set_NoDup
                  (omap (row_formula (columns df) (n0 :: nc) (e0 :: ec)) (iterrows df))
                  [] (NoDup_nil_2)) as Hnd.
    rewrite <- formulas_of_rows_found in Hnd.
    destruct (CostComponents.formulas_of_rows df (n0 :: nc) (e0 :: ec)); [exact D2 | exact Hnd].
  - intros Er. unfold CostComponents.load_formulas_from_excel. now rewrite Er.
  - intros df Er. unfold CostComponents.load_formulas_from_excel. rewrite Er.
    split.
    + intros [H | H].
      * destruct (CostComponents._find_col_by_candidates (Some df)
                    [U "name"; U "formul ad"; U "formül adı"; U "kod"]) as [[|n0 nc]|];
          try reflexivity. discriminate H.
      * destruct (CostComponents._find_col_by_candidates (Some df)
                    [U "name"; U "formul ad"; U "formül adı"; U "kod"]) as [[|n0 nc]|];
          try reflexivity.
        destruct (CostComponents._find_col_by_candidates (Some df)
                    [U "expr"; U "formul"; U "formül"; U "expression"]) as [[|e0 ec]|];
          try reflexivity. discriminate H.
    + intros nc ec En Hn Ee He.
      pose proof En as En'. pose proof Ee as Ee'.
      rewrite find_col_same in En'. rewrite find_col_same in Ee'.
      apply find_col_in_columns in En', Ee'.
      rewrite En, Ee.
      destruct nc as [|n0 nc]; [congruence |]. destruct ec as [|e0 ec]; [congruence |].
      split; [exact En' |]. split; [exact Ee' |].
      rewrite formulas_of_rows_found.
      set (found := omap (row_formula (columns df) (n0 :: nc) (e0 :: ec)) (iterrows df)).
      split.
      * intros ->. reflexivity.
      * intros Hne.
        pose proof (foldl_dict_set_nonempty found [] (or_intror Hne)) as Hnonempty.
        pose proof (fun k => foldl_dict_set_get found [] k) as Hget.
        destruct (foldl _ [] found) as [|p d]; [congruence |].
        intros name. rewrite Hget. now destruct (last_named name found).
Qed.

(** ** The filter of the engine *)

Lemma select_columns_getcol sub cols c :
  In c cols -> getcol (select_columns sub cols) c
               = Some (map (fun r => cell_at (columns sub) r c) (rows sub)).
Proof.
  intros Hc. rewrite (getcol_In (select_columns sub cols) c Hc).
  unfold select_columns. cbn [rows columns]. rewrite map_map. f_equal.
  apply map_ext. intros r. now apply cell_at_realign.
Qed.

(** X19.  [Engine.filter_df_by_codes] selects the rows that
    [cost_components.filter_by_codes] selects when given the plant and
    cost-center columns the engine resolves, and never raises.  It
    differs in what it returns: the empty table (no column) when no row
    is left, and otherwise the selected rows with the source-file column,
    if there is one, moved to the front, every column keeping its cells
    and the other columns their order. *)
Theorem engine_filter_agrees_with_filter_by_codes {RT : PyRuntime}
    (e : DataEngine.Engine) (df : DataFrame) (isyeri masraf : option ustring) :
  let found :=
    {| CostComponents.plant_col :=
         DataEngine.find_col_by_candidates (Some df)
           (DataEngine._cands e (U "is_yeri_kodu"));
       CostComponents.cctr_col :=
         DataEngine.find_col_by_candidates (Some df)
           (DataEngine._cands e (U "masraf_yeri_kodu"));
       CostComponents.comp_cols := [] |} in
  exists sub res,
    CostComponents.filter_by_codes (Some df) isyeri masraf found = Some sub
    /\ DataEngine.filter_df_by_codes e (Some df) isyeri masraf = Some res
    /\ (df_empty sub = true -> res = empty_frame)
    /\ (df_empty sub = false ->
        rows sub <> []
        /\ df_len res = df_len sub
        /\ (forall c, In c (columns res) <-> In c (columns sub))
        /\ (forall c, In c (columns sub) -> getcol res c = getcol sub c)
        /\ (has_column sub (U "__kaynak_dosya__") = true ->
            columns res
            = U "__kaynak_dosya__"
              :: List.filter (fun c => negb (ustr_eqb c (U "__kaynak_dosya__")))
                   (columns sub))
        /\ (has_column sub (U "__kaynak_dosya__") = false -> res = sub)).
Proof.
  intros found.
  set (post := fun sub : DataFrame =>
         if df_empty sub then empty_frame
         else if has_column sub (U "__kaynak_dosya__")
              then select_columns sub
                     (U "__kaynak_dosya__"
                      :: List.filter (fun c => negb (ustr_eqb c (U "__kaynak_dosya__")))
                           (columns sub))
              else sub).
  assert (Hagree : DataEngine.filter_df_by_codes e (Some df) isyeri masraf
                   = post <$> CostComponents.filter_by_codes (Some df) isyeri masraf found).
  { unfold DataEngine.filter_df_by_codes, CostComponents.filter_by_codes, found, post.
    cbn [CostComponents.plant_col CostComponents.cctr_col].
    destruct (df_empty df) eqn:Hne; [reflexivity |].
    destruct isyeri as [[|i0 isyeri]|], masraf as [[|m0 masraf]|]; cbn [truthy];
      repeat match goal with
             | |- context [DataEngine.find_col_by_candidates ?d ?c] =>
                 destruct (DataEngine.find_col_by_candidates d c) as [[|? ?]|]
             end;
      cbn [mbind option_bind fmap option_fmap option_map];
      repeat match goal with
             | |- context [CostComponents.code_mask ?d ?c ?k] =>
                 destruct (CostComponents.code_mask d c k)
             end;
      cbn [mbind option_bind fmap option_fmap option_map reset_index];
      try reflexivity;
      repeat match goal with
             | |- context [df_empty ?x] => destruct (df_empty x)
             end;
      reflexivity. }
  destruct (df_empty df) eqn:Hne.
  - exists empty_frame, empty_frame.
    assert (E : CostComponents.filter_by_codes (Some df) isyeri masraf found
                = Some empty_frame)
      by (unfold CostComponents.filter_by_codes; now rewrite Hne).
    rewrite Hagree, E. split; [reflexivity |]. split; [reflexivity |].
    split; [reflexivity | discriminate].
  - pose proof (filter_by_codes_rows df isyeri masraf found Hne
                  (find_col_column_of _ _) (find_col_column_of _ _)) as E.
    rewrite Hagree, E. eexists _, _. split; [reflexivity |].
    split; [reflexivity |].
    set (sub := {| columns := columns df; rows := List.filter _ (rows df) |}).
    unfold post. destruct (df_empty sub) eqn:Es.
    + split; [reflexivity | discriminate].
    + split; [discriminate |]. intros _.
      split.
      { intros Hr. unfold df_empty in Es. rewrite Hr in Es.
        now destruct (columns sub). }
      destruct (has_column sub (U "__kaynak_dosya__")) eqn:Ek.
      * split; [unfold df_len, select_columns; cbn [rows]; apply length_map |].
        assert (Hcols : forall c,
                   In c (U "__kaynak_dosya__"
                         :: List.filter (fun c => negb (ustr_eqb c (U "__kaynak_dosya__")))
                              (columns sub))
                   <-> In c (columns sub)).
        { intros c. simpl. rewrite List.filter_In. apply has_column_In in Ek.
          destruct (ustr_eqb c (U "__kaynak_dosya__")) eqn:Ec.
          - apply ustr_eqb_eq in Ec. subst c. simpl. split; [intros _; exact Ek | auto].
          - apply ustr_eqb_neq in Ec. simpl.
            split; [intros [? | [? _]]; [congruence | auto] | auto]. }
        split; [exact Hcols |]. split.
        { intros c Hc. rewrite select_columns_getcol by now apply Hcols.
          symmetry. now apply getcol_In. }
        split; [intros _; reflexivity | discriminate].
      * split; [reflexivity |]. split; [reflexivity |]. split; [reflexivity |].
        split; [discriminate | reflexivity].
Qed.

(** ** The whole computation *)

Section Summary.
Context {RT : PyRuntime}.
Variable series_sum : list cell -> option pyfloat.
Hypothesis series_sum_total : forall l, exists f, series_sum l = Some f.
Import CostComponents.

(** The loop that fills the summary, when the sum does not raise. *)
Lemma summarize_totals out names acc :
  exists summary,
    summarize series_sum out names acc = Some summary
    /\ (forall name total,
           dict_get summary name = Some total ->
           dict_get acc name = Some total
           \/ exists vals, getcol out name = Some vals /\ series_sum vals = Some total)
    /\ (forall name total,
           dict_get acc name = Some total ->
           (forall vals, getcol out name = Some vals -> series_sum vals = Some total) ->
           dict_get summary name = Some total)
    /\ (forall name, In name names -> In name (columns out) ->
                     exists total, dict_get summary name = Some total).
Proof.
  revert acc. induction names as [|n names IH]; intros acc; simpl.
  - exists acc. split; [reflexivity |]. split; [auto |]. split; [auto |]. intros ? [].
  - destruct (getcol out n) as [vals|] eqn:Eg.
    + destruct (series_sum_total vals) as [t Et]. rewrite Et. simpl.
      destruct (IH (dict_set acc n t)) as (summary & -> & I1 & I2 & I3).
      exists summary. split; [reflexivity |]. split; [| split].
      * intros name total Hs. destruct (I1 name total Hs) as [Ha | Hx]; [| now right].
        rewrite dict_get_set in Ha. destruct (ustr_eqb n name) eqn:E; [| now left].
        apply ustr_eqb_eq in E. subst name. injection Ha as <-. right. eauto.
      * intros name total Ha Hsame. apply I2; [| exact Hsame].
        rewrite dict_get_set. destruct (ustr_eqb n name) eqn:E; [| exact Ha].
        apply ustr_eqb_eq in E. subst name. rewrite <- Et. now apply Hsame.
      * intros name [<- | Hin] Hc; [| now apply I3].
        exists t. apply I2; [apply dict_get_set_eq |].
        intros vals' Hv. rewrite Eg in Hv. now injection Hv as <-.
    + destruct (IH acc) as (summary & -> & I1 & I2 & I3).
      exists summary. split; [reflexivity |]. split; [exact I1 |]. split; [exact I2 |].
      intros name [<- | Hin] Hc; [| now apply I3].
      rewrite (getcol_In out n Hc) in Eg. discriminate.
Qed.

End Summary.

(** X20.  [compute_by_plant_costcenter], the sum of a column not raising:
    the call returns.  It gives the empty table and the empty summary
    when the source table is absent or empty and when the filter leaves
    no row.  Otherwise the rows are those the filter leaves, as many and
    with the five component columns first; the summary has a total for
    every component; and every total of the summary, component or
    formula, is the sum of the column of that name in the returned
    rows. *)
Theorem compute_rows_and_totals {RT : PyRuntime}
    (read_excel : ustring -> option DataFrame)
    (py_eval : ustring -> dict pyvalue -> option pyvalue)
    (series_sum : list cell -> option pyfloat)
    (src_df : option DataFrame) (isyeri_kodu masraf_yeri_kodu : option ustring)
    (formula_excel_path : option ustring) :
  (forall l, exists f, series_sum l = Some f) ->
  exists out_rows summary,
    CostComponents.compute_by_plant_costcenter read_excel py_eval series_sum
      src_df isyeri_kodu masraf_yeri_kodu formula_excel_path
    = Some (out_rows, summary)
    /\ (absent_or_empty src_df = true -> out_rows = empty_frame /\ summary = [])
    /\ forall src filtered,
         src_df = Some src -> df_empty src = false ->
         CostComponents.filter_by_codes (Some src) isyeri_kodu masraf_yeri_kodu
           (CostComponents.resolve_columns src) = Some filtered ->
         (df_empty filtered = true -> out_rows = empty_frame /\ summary = [])
         /\ (df_empty filtered = false ->
             df_len out_rows = df_len filtered
             /\ (exists more, columns out_rows = CostComponents.COMPONENTS ++ more)
             /\ (forall comp, In comp CostComponents.COMPONENTS ->
                   exists total, dict_get summary comp = Some total)
             /\ (forall name total,
                   dict_get summary name = Some total ->
                   exists vals,
                     getcol out_rows name = Some vals /\ series_sum vals = Some total)).
Proof.
  intros Hsum. unfold CostComponents.compute_by_plant_costcenter.
  destruct src_df as [src|].
  2:{ exists empty_frame, []. split; [reflexivity |]. split; [auto | discriminate]. }
  destruct (df_empty src) eqn:Hne.
  { exists empty_frame, []. split; [reflexivity |]. split; [auto |].
    intros ? ? [= <-]. congruence. }
  destruct (resolve_columns_column_of src) as [Hp Hc].
  rewrite (filter_by_codes_rows src isyeri_kodu masraf_yeri_kodu _ Hne Hp Hc).
  cbn [mbind option_bind].
  set (filtered := {| columns := columns src; rows := List.filter _ (rows src) |}).
  destruct (df_empty filtered) eqn:Hfe.
  { exists empty_frame, []. split; [reflexivity |]. split; [auto |].
    intros src' f' [= <-] _ Hf.
    rewrite (filter_by_codes_rows src _ _ _ Hne Hp Hc) in Hf. injection Hf as <-.
    split; [auto |]. intros H. change (df_empty filtered = false) in H. congruence. }
  set (comp_df := CostComponents.extract_components filtered _).
  set (formulas := match formula_excel_path with
                   | Some ((_ :: _) as path) =>
                       CostComponents.load_formulas_from_excel read_excel path
                   | _ => CostComponents.DEFAULT_FORMULAS
                   end).
  set (fs := map (fun '(name, expr) => (name, CostComponents.ExprStr expr)) formulas).
  destruct (eval_formulas_on_rows_heap py_eval ({[ 0%nat := comp_df ]} : heap) 0%nat
              comp_df fs (lookup_singleton_eq _ _)) as [Hrun _].
  cbn zeta in Hrun. rewrite Hrun. cbn [mbind option_bind].
  rewrite lookup_insert_eq. cbn [mbind option_bind].
  set (out_rows := apply_formulas py_eval comp_df fs).
  destruct (summarize_totals series_sum Hsum out_rows CostComponents.COMPONENTS [])
    as (s1 & -> & A1 & _ & A3).
  cbn [mbind option_bind].
  destruct (summarize_totals series_sum Hsum out_rows (dict_keys formulas) s1)
    as (s2 & -> & B1 & B2 & _).
  cbn [mbind option_bind].
  exists out_rows, s2. split; [reflexivity |]. split; [simpl; congruence |].
  intros src' f' [= <-] _ Hf.
  rewrite (filter_by_codes_rows src _ _ _ Hne Hp Hc) in Hf. injection Hf as <-.
  split; [intros H; change (df_empty filtered = true) in H; congruence |]. intros _.
  destruct (extract_components_shape filtered
              (CostComponents.resolve_columns src)) as (Hlen & [more Hcols] & _).
  cbn zeta in Hlen, Hcols. fold comp_df in Hlen, Hcols.
  destruct (apply_formulas_columns py_eval comp_df fs) as (new & Hnew & _).
  fold out_rows in Hnew.
  assert (Htot : forall name total,
             dict_get s1 name = Some total ->
             exists vals, getcol out_rows name = Some vals /\ series_sum vals = Some total).
  { intros name total H1. destruct (A1 name total H1) as [H | H]; [discriminate | exact H]. }
  split; [unfold out_rows; rewrite apply_formulas_len; exact Hlen |].
  split; [exists (more ++ new); now rewrite Hnew, Hcols, app_assoc |].
  split.
  - intros comp Hcomp.
    destruct (A3 comp Hcomp) as [total Ht].
    { rewrite Hnew, Hcols. apply in_or_app. left. apply in_or_app. now left. }
    exists total. apply B2; [exact Ht |].
    intros vals Hv. destruct (Htot comp total Ht) as (vals' & Hv' & Hs).
    rewrite Hv in Hv'. now injection Hv' as <-.
  - intros name total H2. destruct (B1 name total H2) as [H | H]; [now apply Htot | exact H].
Qed.

Lemma compute_rows_and_totals_witness :
  exists out_rows summary,
    @CostComponents.compute_by_plant_costcenter ascii_only (fun _ => None)
      Sample.name_eval (fun _ => Some zero_float)
      (Some SampleFilter.table) None None None
    = Some (out_rows, summary)
    /\ (absent_or_empty (Some SampleFilter.table) = true ->
        out_rows = empty_frame /\ summary = []).
Proof.
  destruct (@compute_rows_and_totals ascii_only (fun _ => None) Sample.name_eval
              (fun _ => Some zero_float) (Some SampleFilter.table) None None None)
    as (out_rows & summary & Hrun & Hempty & _).
  - intros l. exists zero_float. reflexivity.
  - exists out_rows, summary. split; [exact Hrun | exact Hempty].
Defined.

(** ** The columns [resolve_columns] reports *)

Lemma fold_set_get {V} (f : ustring -> V) names (d0 : dict V) k v :
  dict_get (foldl (fun d c => dict_set d c (f c)) d0 names) k = Some v ->
  dict_get d0 k = Some v \/ (In k names /\ v = f k).
Proof.
  revert d0. induction names as [|n names IH]; intros d0; simpl; [auto |].
  intros H. destruct (IH _ H) as [H0 | [Hin ->]].
  - rewrite dict_get_set in H0. destruct (ustr_eqb n k) eqn:E; [| auto].
    apply ustr_eqb_eq in E. subst n. injection H0 as <-. auto.
  - auto.
Qed.

(** X21.  [resolve_columns] reports, for the plant, for the cost center
    and for each of the five components (and for nothing else), either no
    column or a column of the table: what it reports can be looked up in
    the table. *)
Theorem resolve_columns_reports_columns {RT : PyRuntime} (df : DataFrame) :
  let found := CostComponents.resolve_columns df in
  dict_keys (CostComponents.comp_cols found) = CostComponents.COMPONENTS
  /\ (forall comp c,
         dict_get (CostComponents.comp_cols found) comp = Some (Some c) ->
         In comp CostComponents.COMPONENTS /\ In c (columns df))
  /\ (forall c, CostComponents.plant_col found = Some c -> In c (columns df))
  /\ (forall c, CostComponents.cctr_col found = Some c -> In c (columns df)).
Proof.
  cbn zeta. unfold CostComponents.resolve_columns.
  cbn [CostComponents.plant_col CostComponents.cctr_col CostComponents.comp_cols].
  split; [reflexivity |]. split; [| split].
  - intros comp c H.
    apply (fold_set_get
             (fun comp => CostComponents._find_col_by_candidates (Some df)
                            (default [comp]
                               (dict_get CostComponents.COMP_COL_CANDIDATES comp))))
      in H as [H | [Hin H]]; [discriminate |].
    split; [exact Hin |]. symmetry in H. rewrite find_col_same in H.
    exact (find_col_in_columns _ _ _ H).
  - intros c H. rewrite find_col_same in H. exact (find_col_in_columns _ _ _ H).
  - intros c H. rewrite find_col_same in H. exact (find_col_in_columns _ _ _ H).
Qed.
